(** * The claims ETL: header reconciliation, merge, KPIs, persistence

    A shallow embedding of the billing-workbook pipeline of [ETL.py], with
    the sibling variants [mapping.py] (header matching with an exact-match
    shortcut) and [final_2.py] (sheet lookup and archive retry loop).

    Conventions of the embedding.
    - Python [str] is [string]; [lower], [strip], [split] and [in] act on
      ASCII, which is what the sheet and column names of the workbooks use.
    - A pandas frame is a list of column labels and a list of rows; a cell
      is null (NaN, NaT, None, NA), a finite number (an exact rational
      standing for the float), a text or a timestamp.
    - A Python exception is a [Raise] result; [try/except] is a match.
    - Column dtypes are not tracked: a column is what its cells are.
    - A [dict] whose iteration order matters (the mapping tables) is an
      association list in declaration order; the others are [gmap]s.
    - The file system and the SQLite store are explicit state ([World]). *)

From Stdlib Require Import QArith Qround.
From Stdlib Require Import Strings.Ascii Strings.String Numbers.DecimalString.
From stdpp Require Import gmap strings list fin_maps.

Local Open Scope string_scope.
Local Open Scope list_scope.

(** ** Python string primitives *)

Definition is_upper (a : ascii) : bool :=
  let n := nat_of_ascii a in (65 <=? n)%nat && (n <=? 90)%nat.

Definition lower_ascii (a : ascii) : ascii :=
  if is_upper a then ascii_of_nat (nat_of_ascii a + 32) else a.

(** [s.lower()] *)
Fixpoint lower (s : string) : string :=
  match s with
  | EmptyString => EmptyString
  | String a s' => String (lower_ascii a) (lower s')
  end.

(** [str.isspace] on one ASCII character: TAB, LF, VT, FF, CR, FS, GS, RS,
    US and the blank. *)
Definition is_space (a : ascii) : bool :=
  let n := nat_of_ascii a in
  ((9 <=? n)%nat && (n <=? 13)%nat) || ((28 <=? n)%nat && (n <=? 32)%nat).

Fixpoint lstrip (s : string) : string :=
  match s with
  | EmptyString => EmptyString
  | String a s' => if is_space a then lstrip s' else s
  end.

Fixpoint rstrip (s : string) : string :=
  match s with
  | EmptyString => EmptyString
  | String a s' =>
      match rstrip s' with
      | EmptyString => if is_space a then EmptyString else String a EmptyString
      | r => String a r
      end
  end.

(** [s.strip()] *)
Definition strip (s : string) : string := lstrip (rstrip s).

(** [needle in hay] for two strings. *)
Fixpoint contains (needle hay : string) : bool :=
  String.prefix needle hay ||
  match hay with
  | EmptyString => false
  | String _ hay' => contains needle hay'
  end.

(** [s.endswith(suffix)] *)
Definition endswith (s suffix : string) : bool :=
  String.prefix (String.rev suffix) (String.rev s).

(** [s.split()]: the maximal runs of non-blank characters, left to right.
    [cur] holds the run being read, last character first. *)
Definition flush_token (cur : string) : list string :=
  match cur with
  | EmptyString => []
  | _ => [String.rev cur]
  end.

Fixpoint split_from (cur : string) (s : string) : list string :=
  match s with
  | EmptyString => flush_token cur
  | String a s' =>
      if is_space a then flush_token cur ++ split_from EmptyString s'
      else split_from (String a cur) s'
  end.

Definition split (s : string) : list string := split_from EmptyString s.

(** [sep.join(parts)] *)
Fixpoint join (sep : string) (parts : list string) : string :=
  match parts with
  | [] => EmptyString
  | [p] => p
  | p :: rest => p +:+ sep +:+ join sep rest
  end.

(** [sorted(tokens)]: code-point order, by insertion. *)
Fixpoint insert_sorted (t : string) (ts : list string) : list string :=
  match ts with
  | [] => [t]
  | u :: ts' => if String.leb t u then t :: ts else u :: insert_sorted t ts'
  end.

Definition sorted (ts : list string) : list string :=
  foldr insert_sorted [] ts.

(** [str(n)] for a counter. *)
Definition str_of_nat (n : nat) : string :=
  NilZero.string_of_uint (Nat.to_uint n).

(** ** Exceptions *)

Inductive exn : Type :=
  | KeyError (label : string)
  | TypeError
  | ValueError (msg : string)
  | AttributeError
  | ZeroDivisionError
  | OperationalError
  | PermissionError
  | OSError.

Inductive result (A : Type) : Type :=
  | Ok (a : A)
  | Raise (e : exn).
Arguments Ok {A} a.
Arguments Raise {A} e.

Definition bind {A B : Type} (r : result A) (k : A -> result B) : result B :=
  match r with
  | Ok a => k a
  | Raise e => Raise e
  end.

Notation "'try!' x := e 'in' k" := (bind e (fun x => k))
  (at level 10, x name, e at level 100, k at level 200,
   format "'[v' 'try!'  x  :=  e  'in' '/' k ']'").

(** A loop body run over a list, stopping at the first exception. *)
Fixpoint for_each {A S : Type} (body : S -> A -> result S) (xs : list A) (s : S)
  : result S :=
  match xs with
  | [] => Ok s
  | x :: xs' => try! s' := body s x in for_each body xs' s'
  end.

(** ** rapidfuzz: [fuzz.token_sort_ratio] and [process.extractOne]

    The repository imports both from the rapidfuzz package. They are
    modelled from the package's documented behaviour: the score is the
    normalised Indel similarity, on a 0-100 scale, of the two strings after
    their blank-separated tokens are sorted and joined by one blank. *)

(** One row of the longest-common-subsequence table: [prev] lists
    [lcs a' t] for every suffix [t] of [b], longest first; the result
    lists [lcs (x :: a') t] for the same suffixes. *)
Fixpoint lcs_row (x : ascii) (b : list ascii) (prev : list nat) : list nat :=
  match b, prev with
  | y :: b', p :: prev' =>
      let cur' := lcs_row x b' prev' in
      (if Ascii.eqb x y then S (hd 0%nat prev') else Nat.max p (hd 0%nat cur'))
        :: cur'
  | _, _ => [0%nat]
  end.

Definition lcs_table (a b : list ascii) : list nat :=
  foldr (fun x row => lcs_row x b row) (replicate (S (length b)) 0%nat) a.

Definition lcs (a b : list ascii) : nat := hd 0%nat (lcs_table a b).

(** [fuzz.ratio]: 100 * (1 - indel / (len a + len b)), where
    indel = len a + len b - 2 * lcs; two empty strings score 100. *)
Definition ratio (s1 s2 : string) : Q :=
  let a := String.list_ascii_of_string s1 in
  let b := String.list_ascii_of_string s2 in
  match (length a + length b)%nat with
  | O => 100
  | S n => Z.of_nat (200 * lcs a b) # Pos.of_succ_nat n
  end.

Definition sort_tokens (s : string) : string := join " " (sorted (split s)).

Definition token_sort_ratio (s1 s2 : string) : Q :=
  ratio (sort_tokens s1) (sort_tokens s2).

(** [process.extractOne(query, choices, scorer=...)] without a cutoff: the
    best-scoring choice, the first one among equals; [None] when there is
    no choice. *)
Fixpoint extract_from (scorer : string -> string -> Q) (query : string)
    (choices : list string) (best : option (string * Q)) : option (string * Q) :=
  match choices with
  | [] => best
  | c :: rest =>
      let s := scorer query c in
      match best with
      | Some (_, bs) =>
          if Qle_bool s bs then extract_from scorer query rest best
          else extract_from scorer query rest (Some (c, s))
      | None => extract_from scorer query rest (Some (c, s))
      end
  end.

Definition extractOne (scorer : string -> string -> Q) (query : string)
    (choices : list string) : option (string * Q) :=
  extract_from scorer query choices None.

(** ** pandas frames *)

Inductive cell : Type :=
  | CNull                (* NaN, NaT, None, pd.NA *)
  | CNum (q : Q)         (* a finite number *)
  | CStr (s : string)    (* a text *)
  | CDate (ns : Z).      (* a timestamp, in nanoseconds *)

Record DataFrame : Type := mkFrame {
  columns : list string;
  rows : list (list cell)
}.

(** [len(df)] *)
Definition nrows (df : DataFrame) : nat := length (rows df).

(** Every row has one cell per column label. *)
Definition wf (df : DataFrame) : Prop :=
  Forall (fun r => length r = length (columns df)) (rows df).

(** The cell of a row under position [j]. *)
Definition at_pos (j : nat) (r : list cell) : cell := default CNull (r !! j).

(** The positions that carry the label [name], counted from [k]. *)
Fixpoint positions_from (k : nat) (name : string) (cols : list string) : list nat :=
  match cols with
  | [] => []
  | c :: cs =>
      if decide (c = name) then k :: positions_from (S k) name cs
      else positions_from (S k) name cs
  end.

Definition positions (name : string) (cols : list string) : list nat :=
  positions_from 0 name cols.

(** [name in df.columns] *)
Definition has_column (df : DataFrame) (name : string) : bool :=
  bool_decide (name ∈ columns df).

(** [df[name]] read as one Series. An absent label is a [KeyError]. With a
    repeated label pandas hands back a frame, on which the Series
    operation that follows in this program fails: [TypeError]. *)
Definition getitem (df : DataFrame) (name : string) : result (list cell) :=
  match positions name (columns df) with
  | [] => Raise (KeyError name)
  | [j] => Ok (map (at_pos j) (rows df))
  | _ => Raise TypeError
  end.

(** [df[name] = values]: every column labelled [name] takes the values; a
    new label is appended as the last column. *)
Definition setitem (df : DataFrame) (name : string) (values : list cell) : DataFrame :=
  if has_column df name
  then mkFrame (columns df)
         (zip_with (fun r v =>
                      zip_with (fun c x => if decide (c = name) then v else x)
                               (columns df) r)
                   (rows df) values)
  else mkFrame (columns df ++ [name])
         (zip_with (fun r v => r ++ [v]) (rows df) values).

(** [df[name] = scalar]: the scalar is broadcast to every row. *)
Definition setitem_scalar (df : DataFrame) (name : string) (v : cell) : DataFrame :=
  setitem df name (replicate (nrows df) v).

(** The entries of [xs] whose mask bit is set. *)
Fixpoint select {A : Type} (mask : list bool) (xs : list A) : list A :=
  match mask, xs with
  | m :: ms, x :: xs' => if m then x :: select ms xs' else select ms xs'
  | _, _ => []
  end.

(** [df.drop(columns=labels)] for labels taken from [df.columns]. *)
Definition drop (df : DataFrame) (labels : list string) : DataFrame :=
  let keep := map (fun c => negb (bool_decide (c ∈ labels))) (columns df) in
  mkFrame (select keep (columns df)) (map (select keep) (rows df)).

(** Two join keys match when they hold the same value; like pandas, a null
    key matches a null key. *)
Definition cell_eqb (a b : cell) : bool :=
  match a, b with
  | CNull, CNull => true
  | CNum x, CNum y => Qeq_bool x y
  | CStr s, CStr t => String.eqb s t
  | CDate x, CDate y => Z.eqb x y
  | _, _ => false
  end.

(** The rows of the right table whose key matches that of the left row. *)
Definition matching_rows (li ri : nat) (l : list cell) (right_rows : list (list cell))
  : list (list cell) :=
  List.filter (fun r => cell_eqb (at_pos li l) (at_pos ri r)) right_rows.

(** What one left row contributes to a left join: itself once per matching
    right row, or once with nulls when nothing matches. *)
Definition join_row (li ri width : nat) (right_rows : list (list cell)) (l : list cell)
  : list (list cell) :=
  match matching_rows li ri l right_rows with
  | [] => [l ++ replicate width CNull]
  | ms => map (fun r => l ++ delete ri r) ms
  end.

(** [left.merge(right, on=on, how="left")]. The key column appears once,
    with the left values; the order of the left rows is kept; a label other
    than the key that both tables carry gets the suffixes [_x] and [_y]. *)
Definition merge_left (left right : DataFrame) (on : string) : result DataFrame :=
  match positions on (columns left), positions on (columns right) with
  | [], _ | _, [] => Raise (KeyError on)
  | [li], [ri] =>
      let overlap c :=
        bool_decide (c ≠ on) && bool_decide (c ∈ columns left)
                             && bool_decide (c ∈ columns right) in
      let lcols := map (fun c => if overlap c then c +:+ "_x" else c) (columns left) in
      let rcols := map (fun c => if overlap c then c +:+ "_y" else c)
                       (delete ri (columns right)) in
      Ok (mkFrame (lcols ++ rcols)
            (concat (map (join_row li ri (length rcols) (rows right)) (rows left))))
  | _, _ => Raise (ValueError "The column label is not unique.")
  end.

(** A workbook: its sheets in file order. [xl.sheet_names] and
    [xl.parse(sheet)]. *)
Record Workbook : Type := mkWorkbook {
  sheets : list (string * DataFrame)
}.

Definition sheet_names (xl : Workbook) : list string := map fst (sheets xl).

Fixpoint assoc {V : Type} (k : string) (kvs : list (string * V)) : option V :=
  match kvs with
  | [] => None
  | (k', v) :: rest => if decide (k' = k) then Some v else assoc k rest
  end.

Definition parse (xl : Workbook) (sheet : string) : result DataFrame :=
  match assoc sheet (sheets xl) with
  | Some df => Ok df
  | None => Raise (ValueError "Worksheet not found")
  end.

(** ** Files, the SQLite store and the log *)

(** A file of the intake folder: its workbook ([None] when it cannot be
    read as one) and how many coming attempts to move it fail because
    another process still holds it open. *)
Record File : Type := mkFile {
  content : option Workbook;
  held_open : nat
}.

Inductive event : Type :=
  | Slept (milliseconds : nat)
  | MoveTried (name : string)
  | Logged (level : string) (name : string).

Record World : Type := mkWorld {
  input_dir : list (string * File);      (* in [os.listdir] order *)
  archive_dir : gmap string File;
  output_dir : gmap string DataFrame;    (* the CSV exports, by file name *)
  database : gmap string DataFrame;      (* the tables, by table name *)
  events : list event                    (* oldest first *)
}.

Definition record_event (e : event) (w : World) : World :=
  mkWorld (input_dir w) (archive_dir w) (output_dir w) (database w) (events w ++ [e]).

(** [time.sleep(seconds)] *)
Definition sleep (milliseconds : nat) (w : World) : World :=
  record_event (Slept milliseconds) w.

Definition remove_file (name : string) (dir : list (string * File)) : list (string * File) :=
  List.filter (fun '(n, _) => negb (bool_decide (n = name))) dir.

Definition hold_less (name : string) (dir : list (string * File)) : list (string * File) :=
  map (fun '(n, f) => if decide (n = name)
                      then (n, mkFile (content f) (pred (held_open f))) else (n, f)) dir.

(** [shutil.move(INPUT_DIR/name, ARCHIVE_DIR/name)] *)
Definition shutil_move (name : string) (w : World) : World * result unit :=
  let w := record_event (MoveTried name) w in
  match assoc name (input_dir w) with
  | None => (w, Raise OSError)
  | Some f =>
      match held_open f with
      | O => (mkWorld (remove_file name (input_dir w)) (<[name := f]> (archive_dir w))
                      (output_dir w) (database w) (events w), Ok tt)
      | S _ => (mkWorld (hold_less name (input_dir w)) (archive_dir w)
                        (output_dir w) (database w) (events w), Raise PermissionError)
      end
  end.

(** [df.to_csv(path, index=False)] *)
Definition to_csv (path : string) (df : DataFrame) (w : World) : World :=
  mkWorld (input_dir w) (archive_dir w) (<[path := df]> (output_dir w))
          (database w) (events w).

(** [df.to_sql(table, conn, if_exists="replace", index=False)]: an existing
    table of that name is dropped, then the table is created from the
    frame. SQLite refuses a table with two equal column names; the old
    table is gone by then. *)
Definition to_sql (table : string) (df : DataFrame) (w : World) : World * result unit :=
  if decide (NoDup (columns df))
  then (mkWorld (input_dir w) (archive_dir w) (output_dir w)
                (<[table := df]> (database w)) (events w), Ok tt)
  else (mkWorld (input_dir w) (archive_dir w) (output_dir w)
                (delete table (database w)) (events w), Raise OperationalError).

(** [os.path.splitext(name)[0]]: the name without its last extension; dots
    that open the name do not start an extension. *)
Fixpoint cut_at_dot (r : string) : option string :=
  match r with
  | EmptyString => None
  | String a r' => if Ascii.eqb a "." then Some r' else cut_at_dot r'
  end.

Fixpoint only_dots (s : string) : bool :=
  match s with
  | EmptyString => true
  | String a s' => Ascii.eqb a "." && only_dots s'
  end.

Definition splitext_root (name : string) : string :=
  match cut_at_dot (String.rev name) with
  | Some r => if only_dots r then name else String.rev r
  | None => name
  end.

(** ** mapping.py *)

Module Mapping.

Definition sheet_mappings : list (string * list (string * string)) :=
  [ ("Charges Jul'25",
      [ ("Account Num", "Claim No"); ("Svc Date", "DOS");
        ("Batch Date", "Charge Entry Date"); ("Amount", "Billed Amount");
        ("Performing Provider", "Provider Name"); ("Insurance", "Payer/Insurance");
        ("Group", "Facility Name"); ("FC", "Financial Class") ]);
    ("Payment Jul'25",
      [ ("Account Num", "Claim No"); ("Svc Date", "DOS"); ("Amount", "Paid Amount");
        ("Insurance", "Payer/Insurance"); ("Performing Provider", "Provider Name");
        ("Batch Date", "Payment Entry Date"); ("Group", "Facility Name");
        ("FC", "Financial Class") ]);
    ("Adjustment Jul'25",
      [ ("Account Num", "Claim No"); ("Svc Date", "DOS");
        ("Amount", "Adjustment Amount"); ("Description", "Adjustment Description");
        ("Insurance", "Payer/Insurance"); ("Performing Provider", "Provider Name");
        ("Batch Date", "Adjustment Entry Date"); ("Group", "Facility Name");
        ("FC", "Financial Class") ]);
    ("Pending AR jul'25",
      [ ("Account Num", "Claim No"); ("Reg Date", "Charge Entry Date");
        ("Amount", "AR Balance"); ("Aging Bucket", "Aging Range");
        ("Rcvbl Status", "Financial Status"); ("Insurance", "Payer/Insurance");
        ("Performing Provider", "Provider Name"); ("Group", "Facility Name");
        ("FC", "Financial Class") ]) ].

(** [fuzzy_match_header(col_name, mapping_keys, score_cutoff=85)]. Unpacking
    the [None] that [extractOne] gives for no choice is a [TypeError]. *)
Definition fuzzy_match_header (col_name : string) (mapping_keys : list string)
    (score_cutoff : Q) : result (option string) :=
  if bool_decide (col_name ∈ mapping_keys) then Ok (Some col_name)
  else match extractOne token_sort_ratio col_name mapping_keys with
       | None => Raise TypeError
       | Some (match_, score) =>
           if Qle_bool score_cutoff score then Ok (Some match_) else Ok None
       end.

(** The body of the loop of [normalize_sheet_headers]: the new name of one
    column. *)
Definition new_name (mapping : list (string * string)) (col : string) : result string :=
  try! matched_key := fuzzy_match_header col (map fst mapping) 85 in
  match matched_key with
  | Some k =>
      if negb (String.eqb k EmptyString) && bool_decide (k ∈ map fst mapping)
      then match assoc k mapping with
           | Some canonical => Ok canonical
           | None => Raise (KeyError k)
           end
      else Ok col
  | None => Ok col
  end.

(** [normalize_sheet_headers(df, mapping)] *)
Definition normalize_sheet_headers (df : DataFrame) (mapping : list (string * string))
  : result DataFrame :=
  try! new_columns :=
    for_each (fun (new_columns : gmap string string) col =>
                try! name := new_name mapping col in
                Ok (<[col := name]> new_columns))
             (columns df) ∅ in
  Ok (mkFrame (map (fun c => default c (new_columns !! c)) (columns df)) (rows df)).

End Mapping.

(** ** final_2.py *)

Module Final2.

(** [find_sheet(sheets, keyword)]:
    "Find first sheet containing keyword (case-insensitive)". *)
Fixpoint find_sheet (sheets : list string) (keyword : string) : option string :=
  match sheets with
  | [] => None
  | sheet :: rest =>
      if contains (lower keyword) (lower sheet) then Some sheet
      else find_sheet rest keyword
  end.

(** The archive loop, [for attempt in range(3): ... else: ...]. The result
    tells whether the file was moved; an exception other than
    [PermissionError] leaves the loop. *)
Fixpoint archive_attempts (attempts : list nat) (file : string) (w : World)
  : World * result bool :=
  match attempts with
  | [] => (record_event (Logged "error" file) w, Ok false)
  | attempt :: rest =>
      match shutil_move file w with
      | (w', Ok _) => (record_event (Logged "info" file) w', Ok true)
      | (w', Raise PermissionError) =>
          archive_attempts rest file (sleep 1000 (record_event (Logged "warning" file) w'))
      | (w', Raise e) => (w', Raise e)
      end
  end.

Definition archive (file : string) (w : World) : World * result bool :=
  archive_attempts (seq 0 3) file w.

(** The end of the per-file body, once the CSV and the table are written:
    archive, log the summary, count the file. An exception is logged by
    the enclosing [except] and the file is not counted. *)
Definition archive_and_count (file : string) (w : World) (files_processed : nat)
  : World * nat :=
  match archive file w with
  | (w', Ok _) => (record_event (Logged "info" file) w', S files_processed)
  | (w', Raise _) => (record_event (Logged "exception" file) w', files_processed)
  end.

End Final2.

(** ** pandas conversions and float Series *)

(** What pandas reads out of a cell that is not already of the wanted
    kind: [pd.to_numeric] and [pd.to_datetime] on a text (or any cell that
    is neither null nor of the target kind), and [str(x)] on a cell that is
    not a text. The pipeline is parametric in them. *)
Class Conversions : Type := {
  parse_numeric : cell -> option Q;
  parse_datetime : cell -> option Z;
  repr : cell -> string
}.

(** [str(x)] *)
Definition cell_str `{Conversions} (c : cell) : string :=
  match c with
  | CStr s => s
  | _ => repr c
  end.

(** A float: [None] is NaN (or [pd.NA]). *)
Definition float : Type := option Q.

(** [pd.to_numeric(series, errors="coerce")], cell by cell. *)
Definition to_numeric `{Conversions} (c : cell) : float :=
  match c with
  | CNum q => Some q
  | CNull => None
  | _ => parse_numeric c
  end.

(** [pd.to_datetime(series, errors="coerce")], cell by cell. *)
Definition to_datetime `{Conversions} (c : cell) : cell :=
  match c with
  | CDate ns => CDate ns
  | CNull => CNull
  | _ => match parse_datetime c with
         | Some ns => CDate ns
         | None => CNull
         end
  end.

(** [series.fillna(v)] *)
Definition fillna (v : Q) (x : float) : float :=
  match x with
  | None => Some v
  | _ => x
  end.

(** [series.replace(0, pd.NA)] *)
Definition replace_zero_na (x : float) : float :=
  match x with
  | Some q => if Qeq_bool q 0 then None else Some q
  | None => None
  end.

(** [x / y] on floats. A null operand gives null. pandas would store an
    infinity or NaN for a zero divisor; the embedding has no infinities and
    reports a zero divisor as [ZeroDivisionError], so that the absence of
    this exception means that no division ever meets a zero divisor. *)
Definition float_div (x y : float) : result float :=
  match x, y with
  | Some a, Some b =>
      if Qeq_bool b 0 then Raise ZeroDivisionError else Ok (Some (a / b)%Q)
  | _, _ => Ok None
  end.

Definition float_mul (x : float) (k : Q) : float :=
  match x with
  | Some a => Some (a * k)%Q
  | None => None
  end.

Definition float_sub (x y : float) : float :=
  match x, y with
  | Some a, Some b => Some (a - b)%Q
  | _, _ => None
  end.

(** [numpy.rint]: the nearest integer, the even one of two equally near. *)
Definition rint (q : Q) : Z :=
  let f := Qfloor q in
  match ((q - inject_Z f) ?= (1 # 2))%Q with
  | Lt => f
  | Gt => (f + 1)%Z
  | Eq => if Z.even f then f else (f + 1)%Z
  end.

(** [round(q, decimals)], as numpy computes it: scale, [rint], scale back. *)
Definition round_to (decimals : nat) (q : Q) : Q :=
  let scale := inject_Z (10 ^ Z.of_nat decimals) in
  Qred (inject_Z (rint (q * scale)) / scale).

(** [series.round(decimals)] *)
Definition float_round (decimals : nat) (x : float) : float :=
  match x with
  | Some q => Some (round_to decimals q)
  | None => None
  end.

(** A float stored in a frame. *)
Definition num_cell (x : float) : cell :=
  match x with
  | Some q => CNum q
  | None => CNull
  end.

(** A cell of a numeric column read as a float. *)
Definition as_float (c : cell) : float :=
  match c with
  | CNum q => Some q
  | _ => None
  end.

(** [a / b] on two Series of one length. *)
Fixpoint series_div (a b : list float) : result (list float) :=
  match a, b with
  | x :: a', y :: b' =>
      try! z := float_div x y in
      try! zs := series_div a' b' in
      Ok (z :: zs)
  | _, _ => Ok []
  end.

(** [series.sum()]: nulls are skipped. *)
Definition series_sum (s : list float) : Q :=
  foldr (fun x acc => match x with Some q => (q + acc)%Q | None => acc end) 0%Q s.

(** A column of timestamps and nulls. *)
Definition is_datetime_like (s : list cell) : bool :=
  forallb (fun c => match c with CDate _ | CNull => true | _ => false end) s.

(** [(a - b).dt.days] on two cells: whole days, rounded down. *)
Definition days_between (a b : cell) : cell :=
  match a, b with
  | CDate x, CDate y => CNum (inject_Z ((x - y) / 86400000000000))
  | _, _ => CNull
  end.

(** [(a - b).dt.days] on two columns; anything but timestamps is a
    [TypeError]. *)
Definition date_diff_days (a b : list cell) : result (list cell) :=
  if is_datetime_like a && is_datetime_like b
  then Ok (zip_with days_between a b)
  else Raise TypeError.

(** ** ETL.py *)

Module ETL.

Definition sheet_mappings : list (string * list (string * string)) :=
  [ ("Charges",
      [ ("Account Num", "Claim No"); ("Svc Date", "DOS");
        ("Batch Date", "Charge Entry Date"); ("Amount", "Billed Amount");
        ("Responsible Provider", "Provider Name"); ("Insurance", "Payer/Insurance");
        ("Group", "Facility Name"); ("FC", "Financial Class") ]);
    ("Payment",
      [ ("Account Num", "Claim No"); ("Svc Date", "DOS"); ("Amount", "Paid Amount");
        ("Insurance", "Payer/Insurance"); ("Responsible Provider", "Provider Name");
        ("Batch Date", "Payment Entry Date"); ("Group", "Facility Name");
        ("FC", "Financial Class") ]);
    ("Adjustment",
      [ ("Account Num", "Claim No"); ("Svc Date", "DOS");
        ("Amount", "Adjustment Amount"); ("Description", "Adjustment Description");
        ("Insurance", "Payer/Insurance"); ("Responsible Provider", "Provider Name");
        ("Batch Date", "Adjustment Entry Date"); ("Group", "Facility Name");
        ("FC", "Financial Class") ]);
    ("Pending AR",
      [ ("Account Num", "Claim No"); ("Reg Date", "Charge Entry Date");
        ("Amount", "AR Balance"); ("Aging Bucket", "Aging Range");
        ("Rcvbl Status", "Financial Status"); ("Insurance", "Payer/Insurance");
        ("Responsible Provider", "Provider Name"); ("Group", "Facility Name");
        ("FC", "Financial Class") ]) ].

(** [fuzzy_match_header(col_name, mapping_keys, score_cutoff=85)] *)
Definition fuzzy_match_header (col_name : string) (mapping_keys : list string)
    (score_cutoff : Q) : result (option string) :=
  match extractOne token_sort_ratio col_name mapping_keys with
  | None => Raise TypeError
  | Some (match_, score) =>
      if Qle_bool score_cutoff score then Ok (Some match_) else Ok None
  end.

(** [x or col]: the empty string is as false as [None]. *)
Definition or_else (x : option string) (col : string) : string :=
  match x with
  | Some s => if String.eqb s EmptyString then col else s
  | None => col
  end.

(** [mapping.get(matched or col, col)] *)
Definition header_target (mapping : list (string * string)) (matched : option string)
    (col : string) : string :=
  default col (assoc (or_else matched col) mapping).

(** The body of the loop of [normalize_headers]: the new name of one
    column. *)
Definition new_name (mapping : list (string * string)) (col : string) : result string :=
  try! matched := fuzzy_match_header col (map fst mapping) 85 in
  Ok (header_target mapping matched col).

(** [normalize_headers(df, mapping)] *)
Definition normalize_headers (df : DataFrame) (mapping : list (string * string))
  : result DataFrame :=
  try! new_cols :=
    for_each (fun (new_cols : gmap string string) col =>
                try! name := new_name mapping col in
                Ok (<[col := name]> new_cols))
             (columns df) ∅ in
  Ok (mkFrame (map (fun c => default c (new_cols !! c)) (columns df)) (rows df)).

(** [safe_merge(left_df, right_df, on_col)] *)
Definition safe_merge (left_df right_df : DataFrame) (on_col : string) : result DataFrame :=
  let dup_cols :=
    List.filter (fun c => bool_decide (c ∈ columns left_df) && bool_decide (c ≠ on_col))
                (columns right_df) in
  let right_df := match dup_cols with
                  | [] => right_df
                  | _ => drop right_df dup_cols
                  end in
  merge_left left_df right_df on_col.

(** [make_unique_columns(columns)]; [seen] is the dictionary of the loop,
    the result is [out]. *)
Fixpoint unique_from (seen : gmap string nat) (columns : list string) : list string :=
  match columns with
  | [] => []
  | c :: rest =>
      match seen !! c with
      | None => c :: unique_from (<[c := 0%nat]> seen) rest
      | Some n =>
          (c +:+ "_" +:+ str_of_nat (S n)) :: unique_from (<[c := S n]> seen) rest
      end
  end.

Definition make_unique_columns (columns : list string) : list string :=
  unique_from ∅ columns.

Section Pipeline.
Context `{Conversions}.

(** [pd.to_numeric(df[col], errors="coerce").fillna(0)] *)
Definition amount (df : DataFrame) (col : string) : result (list float) :=
  try! s := getitem df col in
  Ok (map (fun c => fillna 0 (to_numeric c)) s).

(** One turn of the coercion loop that opens [calculate_kpis]. *)
Definition coerce_amount (df : DataFrame) (col : string) : result DataFrame :=
  if has_column df col
  then try! s := amount df col in Ok (setitem df col (map num_cell s))
  else Ok df.

Definition kpi_charge_lag (df : DataFrame) : result DataFrame :=
  if has_column df "DOS" && has_column df "Charge Entry Date"
  then try! entry := getitem df "Charge Entry Date" in
       try! dos := getitem df "DOS" in
       try! lag := date_diff_days entry dos in
       Ok (setitem df "Charge Lag (days)" lag)
  else Ok df.

Definition kpi_billing_lag (df : DataFrame) : result DataFrame :=
  if has_column df "Charge Entry Date" && has_column df "Payment Entry Date"
  then try! payment := getitem df "Payment Entry Date" in
       try! entry := getitem df "Charge Entry Date" in
       try! lag := date_diff_days payment entry in
       Ok (setitem df "Billing Lag (days)" lag)
  else Ok df.

(** [((paid / denominator) * 100).fillna(0).round(2)] *)
Definition percent_of (paid denominator : list float) : result (list cell) :=
  try! quotient := series_div paid denominator in
  Ok (map (fun x => num_cell (float_round 2 (fillna 0 (float_mul x 100)))) quotient).

Definition kpi_gcr (df : DataFrame) : result DataFrame :=
  if has_column df "Paid Amount" && has_column df "Billed Amount"
  then try! billed := amount df "Billed Amount" in
       try! paid := amount df "Paid Amount" in
       try! gcr := percent_of paid (map replace_zero_na billed) in
       Ok (setitem df "GCR (%)" gcr)
  else Ok df.

Definition kpi_ncr (df : DataFrame) : result DataFrame :=
  if has_column df "Paid Amount" && has_column df "Billed Amount"
     && has_column df "Adjustment Amount"
  then try! billed := amount df "Billed Amount" in
       try! adj := amount df "Adjustment Amount" in
       try! paid := amount df "Paid Amount" in
       let collectible := map replace_zero_na (zip_with float_sub billed adj) in
       try! ncr := percent_of paid collectible in
       let df := setitem df "NCR (%)" ncr in
       try! ccr := percent_of paid collectible in
       Ok (setitem df "CCR (%)" ccr)
  else Ok df.

Definition kpi_ar_days (df : DataFrame) : result DataFrame :=
  if has_column df "AR Balance" && has_column df "Billed Amount"
  then try! billed := getitem df "Billed Amount" in
       let billed_sum := series_sum (map as_float billed) in
       let avg_daily_charges : float :=
         if Qeq_bool billed_sum 0 then None else Some (billed_sum / 30)%Q in
       match avg_daily_charges with
       | Some avg =>
           if Qeq_bool avg 0 then Ok (setitem_scalar df "AR Days" CNull)
           else try! balance := getitem df "AR Balance" in
                try! days := series_div (map as_float balance)
                                        (replicate (length balance) (Some avg)) in
                Ok (setitem df "AR Days" (map (fun x => num_cell (float_round 1 x)) days))
       | None => Ok (setitem_scalar df "AR Days" CNull)
       end
  else Ok df.

Definition kpi_aged_90 (df : DataFrame) : result DataFrame :=
  if has_column df "Aging Range" && has_column df "AR Balance"
  then try! aging := getitem df "Aging Range" in
       try! balance := getitem df "AR Balance" in
       Ok (setitem df "90+ AR Days (%)"
             (zip_with (fun range b => if contains "90" (cell_str range) then b else CNum 0)
                       aging balance))
  else Ok df.

Definition kpi_denial_rate (df : DataFrame) : result DataFrame :=
  if has_column df "Financial Status"
  then try! status := getitem df "Financial Status" in
       let total_claims := nrows df in
       let denied_claims :=
         length (List.filter (fun c => contains "denied" (lower (cell_str c))) status) in
       match total_claims with
       | O => Ok (setitem_scalar df "Denial Rate (%)" CNull)
       | S _ =>
           Ok (setitem_scalar df "Denial Rate (%)"
                 (CNum (round_to 2 (inject_Z (Z.of_nat denied_claims)
                                    / inject_Z (Z.of_nat total_claims) * 100))))
       end
  else Ok df.

(** [calculate_kpis(df)] *)
Definition calculate_kpis (df : DataFrame) : result DataFrame :=
  try! df := for_each coerce_amount
               ["Paid Amount"; "Billed Amount"; "Adjustment Amount"; "AR Balance"] df in
  try! df := kpi_charge_lag df in
  try! df := kpi_billing_lag df in
  try! df := kpi_gcr df in
  try! df := kpi_ncr df in
  try! df := kpi_ar_days df in
  try! df := kpi_aged_90 df in
  kpi_denial_rate df.

(** The first entry of [sheet_mappings] whose key is in the sheet name:
    the inner loop of [process_single_file], up to its [break]. *)
Definition match_role (sheet : string) : option (string * list (string * string)) :=
  List.find (fun km => contains (lower (fst km)) (lower sheet)) sheet_mappings.

(** The columns with "date" in their name become timestamps. *)
Definition parse_date_columns (df : DataFrame) : result DataFrame :=
  for_each (fun df col =>
              if contains "date" (lower col)
              then try! s := getitem df col in Ok (setitem df col (map to_datetime s))
              else Ok df)
           (columns df) df.

(** The loop over [xl.sheet_names] that fills [processed]. *)
Definition load_sheets (xl : Workbook) : result (gmap string DataFrame) :=
  for_each (fun (processed : gmap string DataFrame) sheet =>
              match match_role sheet with
              | Some (key, mapping) =>
                  try! df := parse xl sheet in
                  try! df := normalize_headers df mapping in
                  try! df := parse_date_columns df in
                  Ok (<[key := df]> processed)
              | None => Ok processed
              end)
           (sheet_names xl) ∅.

Definition required : list string := ["Charges"; "Payment"; "Adjustment"; "Pending AR"].

Definition role (processed : gmap string DataFrame) (key : string) : result DataFrame :=
  match processed !! key with
  | Some df => Ok df
  | None => Raise (KeyError key)
  end.

(** The three joins on the claim identifier. *)
Definition merge_claims (charges payment adjustment pending_ar : DataFrame)
  : result DataFrame :=
  try! merged := safe_merge charges payment "Claim No" in
  try! merged := safe_merge merged adjustment "Claim No" in
  safe_merge merged pending_ar "Claim No".

(** The final renaming of the columns. *)
Definition final_columns (cols : list string) : list string :=
  make_unique_columns (map (fun c => strip (lower c)) cols).

(** [process_single_file], from the opened workbook to the frame that is
    written out. *)
Definition transform (xl : Workbook) : result DataFrame :=
  try! processed := load_sheets xl in
  if forallb (fun key => bool_decide (is_Some (processed !! key))) required
  then try! charges := role processed "Charges" in
       try! payment := role processed "Payment" in
       try! adjustment := role processed "Adjustment" in
       try! pending_ar := role processed "Pending AR" in
       try! merged := merge_claims charges payment adjustment pending_ar in
       try! merged := calculate_kpis merged in
       Ok (mkFrame (final_columns (columns merged)) (rows merged))
  else Raise (ValueError "Missing required sheets").

(** [pd.ExcelFile(file_path)] *)
Definition open_workbook (file : string) (w : World) : result Workbook :=
  match assoc file (input_dir w) with
  | None => Raise OSError
  | Some f =>
      match content f with
      | Some xl => Ok xl
      | None => Raise (ValueError "File is not a workbook")
      end
  end.

(** What [process_single_file] returns (the elapsed time left out). *)
Inductive FileResult : Type :=
  | Success (rows : nat) (output : string)
  | Failure (error : exn).

Definition table_name (run_id : string) : string := "claims_with_kpis_" +:+ run_id.

(** [process_single_file(file_path, run_id)]; the whole body sits in one
    [try], and any exception becomes a [Failure]. *)
Definition process_single_file (file : string) (run_id : string) (w : World)
  : World * FileResult :=
  match (try! xl := open_workbook file w in transform xl) with
  | Raise e => (w, Failure e)
  | Ok merged =>
      let out_csv := splitext_root file +:+ "_with_kpis.csv" in
      let w := to_csv out_csv merged w in
      match to_sql (table_name run_id) merged w with
      | (w, Raise e) => (w, Failure e)
      | (w, Ok _) =>
          let w := sleep 200 w in
          match shutil_move file w with
          | (w, Raise e) => (w, Failure e)
          | (w, Ok _) => (w, Success (nrows merged) out_csv)
          end
      end
  end.

(** The loop of [process_files] over the directory listing. *)
Fixpoint process_listing (listing : list string) (run_id : string) (w : World)
    (files_processed : nat) : World * nat :=
  match listing with
  | [] => (w, files_processed)
  | f :: rest =>
      if endswith (lower f) ".xlsx"
      then match process_single_file f run_id w with
           | (w', Success _ _) => process_listing rest run_id w' (S files_processed)
           | (w', Failure _) => process_listing rest run_id w' files_processed
           end
      else process_listing rest run_id w files_processed
  end.

(** [process_files], for the run identifier read off the clock. *)
Definition process_files (run_id : string) (w : World) : World * nat :=
  process_listing (map fst (input_dir w)) run_id w 0.

End Pipeline.

End ETL.

(** ** rbac.py *)

Module RBAC.

Inductive Permission : Type :=
  | READ | WRITE | DELETE | ADMIN | PROCESS_FILES | VIEW_REPORTS | MANAGE_ETL.

(** The value of an enumeration member. *)
Definition value (p : Permission) : string :=
  match p with
  | READ => "read"
  | WRITE => "write"
  | DELETE => "delete"
  | ADMIN => "admin"
  | PROCESS_FILES => "process_files"
  | VIEW_REPORTS => "view_reports"
  | MANAGE_ETL => "manage_etl"
  end.

#[global] Instance Permission_eq_dec : EqDecision Permission := ltac:(solve_decision).

#[global] Instance Permission_countable : Countable Permission :=
  inj_countable'
    (fun p => match p with
              | READ => 0 | WRITE => 1 | DELETE => 2 | ADMIN => 3
              | PROCESS_FILES => 4 | VIEW_REPORTS => 5 | MANAGE_ETL => 6
              end)%nat
    (fun n => match n with
              | 0 => READ | 1 => WRITE | 2 => DELETE | 3 => ADMIN
              | 4 => PROCESS_FILES | 5 => VIEW_REPORTS | _ => MANAGE_ETL
              end)%nat
    ltac:(by intros []).

Record Role : Type := mkRole {
  name : string;
  permissions : gset Permission
}.

(** [Role.has_permission] *)
Definition Role_has_permission (self : Role) (permission : Permission) : bool :=
  bool_decide (permission ∈ permissions self).

Record User : Type := mkUser {
  user_id : string;
  username : string;
  role : Role;
  is_active : bool
}.

(** [User.has_permission] *)
Definition User_has_permission (self : User) (permission : Permission) : bool :=
  is_active self && Role_has_permission (role self) permission.

Record ETL_RBAC : Type := mkETL_RBAC {
  users : gmap string User;
  roles : gmap string Role
}.

(** The roles that [_setup_roles] installs. *)
Definition _setup_roles : gmap string Role :=
  let admin_role :=
    mkRole "admin" {[ READ; WRITE; DELETE; ADMIN; PROCESS_FILES; VIEW_REPORTS; MANAGE_ETL ]} in
  let manager_role := mkRole "manager" {[ READ; WRITE; PROCESS_FILES; VIEW_REPORTS ]} in
  let user_role := mkRole "user" {[ READ; VIEW_REPORTS ]} in
  <["admin" := admin_role]> (<["manager" := manager_role]> (<["user" := user_role]> ∅)).

(** [ETL_RBAC()] *)
Definition __init__ : ETL_RBAC := mkETL_RBAC ∅ _setup_roles.

(** [create_user]: the new registry and the user handed back. *)
Definition create_user (self : ETL_RBAC) (user_id username role_name : string)
  : result (ETL_RBAC * User) :=
  match roles self !! role_name with
  | None => Raise (ValueError ("Invalid role: " +:+ role_name))
  | Some r =>
      let user := mkUser user_id username r true in
      Ok (mkETL_RBAC (<[user_id := user]> (users self)) (roles self), user)
  end.

Definition check_permission (self : ETL_RBAC) (user_id : string) (permission : Permission)
  : bool :=
  match users self !! user_id with
  | Some user => User_has_permission user permission
  | None => false
  end.

End RBAC.

(** ** ETL.py: tokens, roles and the endpoints *)

(** [str.split(sep)] for a one-character separator: the pieces between
    the separators, empty ones included; never an empty list. *)
Fixpoint split_on (sep : ascii) (s : string) : list string :=
  match s with
  | EmptyString => [EmptyString]
  | String c rest =>
      if Ascii.eqb c sep then EmptyString :: split_on sep rest
      else match split_on sep rest with
           | seg :: segs => String c seg :: segs
           | [] => [String c EmptyString]
           end
  end.


(** [jwt.decode(token, SECRET_KEY, algorithms=[ALGORITHM])] of the jose
    package: the claims of a token that is well signed and not expired,
    [None] where the package raises [JWTError]. The claims are texts, as
    [create_access_token] issues them. The endpoints are parametric in
    it. *)
Class TokenCodec : Type := {
  jwt_decode : string -> option (gmap string string)
}.

Module App.

(** What an endpoint answers: a body, or an [HTTPException]. *)
Inductive response (A : Type) : Type :=
  | Respond (body : A)
  | HTTPException (status_code : nat) (detail : string).
Arguments Respond {A} body.
Arguments HTTPException {A} status_code detail.

(** The dictionary [get_current_user] returns; [payload.get] gives [None]
    for a claim the token does not carry. *)
Record Caller : Type := mkCaller {
  user_id : option string;
  username : option string;
  role : option string
}.

Definition decode_token `{TokenCodec} (token : string) : option (gmap string string) :=
  jwt_decode token.

(** [get_current_user]; an empty payload is as good as none. *)
Definition get_current_user `{TokenCodec} (credentials : string) : response Caller :=
  match decode_token credentials with
  | None => HTTPException 401 "Invalid or expired token"
  | Some payload =>
      if decide (payload = ∅) then HTTPException 401 "Invalid or expired token"
      else Respond (mkCaller (payload !! "sub") (payload !! "username") (payload !! "role"))
  end.

Definition ROLE_PERMS : gmap string (gset RBAC.Permission) :=
  <["user" := {[ RBAC.READ; RBAC.VIEW_REPORTS ]}]>
  (<["manager" := {[ RBAC.READ; RBAC.VIEW_REPORTS; RBAC.WRITE; RBAC.PROCESS_FILES ]}]>
  (<["admin" := {[ RBAC.READ; RBAC.VIEW_REPORTS; RBAC.WRITE; RBAC.DELETE; RBAC.ADMIN;
                   RBAC.PROCESS_FILES; RBAC.MANAGE_ETL ]}]> ∅)).

(** [require_permissions] for the permissions [perms]: the dependency [_dep]
    it returns. *)
Definition require_permissions (perms : list RBAC.Permission) (user : Caller)
  : response Caller :=
  let allowed := default ∅ (ROLE_PERMS !! lower (default EmptyString (role user))) in
  if bool_decide (list_to_set perms ⊆ allowed) then Respond user
  else HTTPException 403 "Not enough permissions".

(** [Depends(require_permissions(...))]: the caller is read off the token
    first, then checked. *)
Definition Depends `{TokenCodec} (dep : Caller -> response Caller) (credentials : string)
  : response Caller :=
  match get_current_user credentials with
  | Respond user => dep user
  | HTTPException status_code detail => HTTPException status_code detail
  end.

(** The body of [ProcessingStatus], the processing time left out. *)
Record ProcessingStatus : Type := mkProcessingStatus {
  success : bool;
  message : string;
  files_processed : nat;
  run_id : string
}.

(** [POST /api/process-files], for the run identifier read off the clock. *)
Definition process_files `{Conversions} `{TokenCodec} (run_id : string)
    (credentials : string) (w : World) : World * response ProcessingStatus :=
  match Depends (require_permissions [RBAC.PROCESS_FILES]) credentials with
  | HTTPException status_code detail => (w, HTTPException status_code detail)
  | Respond _ =>
      let '(w', files_processed) := ETL.process_files run_id w in
      (w', Respond (mkProcessingStatus true
                      ("Processed " +:+ str_of_nat files_processed +:+ " file(s)")
                      files_processed run_id))
  end.

Record ETLStats : Type := mkETLStats {
  total_files : nat;
  processed_files : nat;
  failed_files : nat;
  last_run_id : string;
  available_files : list string
}.

(** The names of the tables, as [sqlite_master] lists them. *)
Definition table_names (w : World) : list string := map fst (map_to_list (database w)).

(** [GET /api/etl-stats] *)
Definition get_etl_stats `{TokenCodec} (credentials : string) (w : World)
  : response ETLStats :=
  match Depends (require_permissions [RBAC.READ]) credentials with
  | HTTPException status_code detail => HTTPException status_code detail
  | Respond _ =>
      let input_files :=
        List.filter (fun f => endswith (lower f) ".xlsx") (map fst (input_dir w)) in
      let output_files :=
        List.filter (fun f => endswith (lower f) ".csv")
                    (map fst (map_to_list (output_dir w))) in
      let names := table_names w in
      let run_ids :=
        map (fun n => default EmptyString (last (split_on "_" n)))
            (List.filter (String.prefix "claims_with_kpis_") names) in
      let last_run_id :=
        match run_ids with
        | [] => "No runs yet"
        | _ => default EmptyString (last (sorted run_ids))
        end in
      Respond (mkETLStats (length input_files) (length output_files) 0 last_run_id
                          input_files)
  end.


Record Report : Type := mkReport {
  table_name : string;
  row_count : nat;
  columns_of : list string;
  data : list (list (string * cell))
}.

(** [GET /api/reports/{table_name}]: [SELECT * FROM table LIMIT 1000], for
    a name that is a plain identifier, as the names written by this
    program are; a table that does not exist is an error of the query. *)
Definition get_report_data `{TokenCodec} (table_name : string) (credentials : string)
    (w : World) : response Report :=
  match Depends (require_permissions [RBAC.VIEW_REPORTS]) credentials with
  | HTTPException status_code detail => HTTPException status_code detail
  | Respond _ =>
      match database w !! table_name with
      | None => HTTPException 500 "Failed to get report data"
      | Some table =>
          let df := mkFrame (columns table) (take 1000 (rows table)) in
          Respond (mkReport table_name (nrows df) (columns df)
                            (map (fun r => zip (columns df) r) (rows df)))
      end
  end.


End App.

(** ** final_2.py: the body of the loop over the files *)

Module Final2Run.

(** [s.replace(old, new)] for one-character texts. *)
Fixpoint replace_char (old new : ascii) (s : string) : string :=
  match s with
  | EmptyString => EmptyString
  | String c rest => String (if Ascii.eqb c old then new else c) (replace_char old new rest)
  end.

(** [os.path.splitext(file)[0].replace(" ", "_").lower()] *)
Definition file_tag (file : string) : string :=
  lower (replace_char " " "_" (splitext_root file)).

(** [df.columns = df.columns.str.strip().str.lower()] *)
Definition standardize_columns (df : DataFrame) : DataFrame :=
  mkFrame (map (fun c => lower (strip c)) (columns df)) (rows df).

(** [parse_dates(df, date_cols)] *)
Definition parse_dates `{Conversions} (df : DataFrame) (date_cols : list string)
  : result DataFrame :=
  for_each (fun df col =>
              if has_column df col
              then try! s := getitem df col in Ok (setitem df col (map to_datetime s))
              else Ok df)
           date_cols df.

(** The renaming of the Payment and the Adjustment columns: every name but
    the key gets the tag. *)
Definition tag_columns (df : DataFrame) (tag : string) : DataFrame :=
  mkFrame (map (fun col => if bool_decide (col ≠ "account num")
                           then col +:+ "_" +:+ tag else col)
               (columns df))
          (rows df).

(** [df[labels]] for a list of labels: the columns under the first label,
    then those under the second, and so on. *)
Definition getitem_list (df : DataFrame) (labels : list string) : result DataFrame :=
  match List.find (fun l => negb (has_column df l)) labels with
  | Some missing => Raise (KeyError missing)
  | None =>
      let js := flat_map (fun l => positions l (columns df)) labels in
      Ok (mkFrame (map (fun j => default EmptyString (columns df !! j)) js)
                  (map (fun r => map (fun j => at_pos j r) js) (rows df)))
  end.

(** [columns.duplicated()]: the mask of the names met before; [seen] are
    the names met so far. *)
Fixpoint duplicated_from (seen : list string) (cols : list string) : list bool :=
  match cols with
  | [] => []
  | c :: rest => bool_decide (c ∈ seen) :: duplicated_from (c :: seen) rest
  end.

Definition duplicated (cols : list string) : list bool := duplicated_from [] cols.

(** [df.loc[:, ~df.columns.duplicated()]] *)
Definition drop_duplicated (df : DataFrame) : DataFrame :=
  let keep := map negb (duplicated (columns df)) in
  mkFrame (select keep (columns df)) (map (select keep) (rows df)).

(** From the sheet names to the frame that is written out; [None] when a
    sheet is missing and the file is skipped. *)
Definition transform `{Conversions} (xl : Workbook) : result (option DataFrame) :=
  let sheets := sheet_names xl in
  match Final2.find_sheet sheets "charges", Final2.find_sheet sheets "payment",
        Final2.find_sheet sheets "pending ar", Final2.find_sheet sheets "adjustment" with
  | Some charges_sheet, Some payments_sheet, Some pending_ar_sheet, Some adjustments_sheet =>
      try! charges := parse xl charges_sheet in
      try! payments := parse xl payments_sheet in
      try! pending_ar := parse xl pending_ar_sheet in
      try! adjustments := parse xl adjustments_sheet in
      let charges := standardize_columns charges in
      let payments := standardize_columns payments in
      let pending_ar := standardize_columns pending_ar in
      let adjustments := standardize_columns adjustments in
      try! charges := parse_dates charges ["claim date"; "service date"; "payment date"] in
      try! payments := parse_dates payments ["payment date"] in
      try! pending_ar := parse_dates pending_ar ["dis date"; "due date"] in
      let payments := tag_columns payments "payment" in
      let adjustments := tag_columns adjustments "adjust" in
      try! final_df := merge_left charges payments "account num" in
      try! final_df := merge_left final_df adjustments "account num" in
      try! final_df :=
        if has_column pending_ar "account num"
        then let cols_to_keep :=
               "account num" :: List.filter (has_column pending_ar)
                                  ["dis date"; "due date"; "denial age"; "ar_days"] in
             try! kept := getitem_list pending_ar cols_to_keep in
             merge_left final_df kept "account num"
        else Ok final_df in
      Ok (Some (drop_duplicated final_df))
  | _, _, _, _ => Ok None
  end.

Definition export_name (file : string) : string := file_tag file +:+ "_clean.csv".

Definition table_name (file : string) : string := "claims_clean_" +:+ file_tag file.

(** The body of the loop for one .xlsx file; every call of the logger is
    an event. *)
Definition process_file `{Conversions} (file : string) (w : World) (files_processed : nat)
  : World * nat :=
  let w := record_event (Logged "info" file) w in
  match ETL.open_workbook file w with
  | Raise _ => (record_event (Logged "exception" file) w, files_processed)
  | Ok xl =>
      let w := record_event (Logged "info" file) w in
      match transform xl with
      | Raise _ => (record_event (Logged "exception" file) w, files_processed)
      | Ok None => (record_event (Logged "error" file) w, files_processed)
      | Ok (Some final_df) =>
          let w := record_event (Logged "info" file) (to_csv (export_name file) final_df w) in
          match to_sql (table_name file) final_df w with
          | (w, Raise _) => (record_event (Logged "exception" file) w, files_processed)
          | (w, Ok _) =>
              Final2.archive_and_count file (record_event (Logged "info" file) w)
                                       files_processed
          end
      end
  end.

(** The loop over [os.listdir(INPUT_DIR)]. *)
Fixpoint process_listing `{Conversions} (listing : list string) (w : World)
    (files_processed : nat) : World * nat :=
  match listing with
  | [] => (w, files_processed)
  | file :: rest =>
      if endswith (lower file) ".xlsx"
      then let '(w', n) := process_file file w files_processed in process_listing rest w' n
      else process_listing rest w files_processed
  end.

(** The script, from the first log line to the last. *)
Definition run `{Conversions} (w : World) : World * nat :=
  process_listing (map fst (input_dir w)) w 0.

End Final2Run.

(** ** logger.py *)

Module LoggerPy.

Inductive Handler : Type :=
  | RotatingFileHandler (filename : string) (maxBytes : N) (backupCount : nat)
                        (fmt datefmt : string)
  | StreamHandler.

Record Logger : Type := mkLogger {
  level : nat;
  handlers : list Handler
}.

(** [logging.INFO], the level asked for by default. *)
Definition INFO : nat := 20.

(** [logging.getLogger(name)]: the logger registered under the name, a
    fresh one (level NOTSET, no handler) when there is none. *)
Definition getLogger (name : string) (registry : gmap string Logger) : Logger :=
  default (mkLogger 0 []) (registry !! name).

(** [get_logger(name, level)], on the registry of the logging module. The
    handler built by a call that does not attach it is dropped. *)
Definition get_logger (name : string) (level : nat) (registry : gmap string Logger)
  : gmap string Logger :=
  let logger := getLogger name registry in
  let logger := mkLogger level (handlers logger) in
  let handler :=
    RotatingFileHandler "logs/etl.log" (2 * 1024 * 1024)%N 5
                        "%(asctime)s - %(levelname)s - %(message)s" "%Y-%m-%d %H:%M:%S" in
  let logger :=
    match handlers logger with
    | [] => mkLogger level [handler; StreamHandler]
    | _ => logger
    end in
  <[name := logger]> registry.

End LoggerPy.

(** ** init_users.py *)

(** [CryptContext(schemes=["bcrypt"])] of the passlib package: [pwd.hash],
    for the salt it draws. *)
Class PasswordContext : Type := {
  pwd_hash : string -> string -> string
}.

Module InitUsers.

(** What SQLite raises here: a missing table, a broken constraint. *)
Inductive sqlite3_Error : Type :=
  | sqlite3_OperationalError
  | sqlite3_IntegrityError.

(** The columns of [CREATE TABLE users]. *)
Definition users_columns : list string :=
  ["id"; "username"; "email"; "password_hash"; "role"; "created_at"].

Definition with_database (database : gmap string DataFrame) (w : World) : World :=
  mkWorld (input_dir w) (archive_dir w) (output_dir w) database (events w).

(** [ensure_users_table()]: [CREATE TABLE IF NOT EXISTS users]. The table
    SQLite keeps for its own AUTOINCREMENT counters is left out. *)
Definition ensure_users_table (w : World) : World :=
  match database w !! "users" with
  | Some _ => w
  | None => with_database (<["users" := mkFrame users_columns []]> (database w)) w
  end.

(** The rows of the table that carry [value] under the position [j]. *)
Definition rows_where (j : nat) (value : string) (table : DataFrame) : list (list cell) :=
  List.filter (fun r => cell_eqb (at_pos j r) (CStr value)) (rows table).

(** What [seed_admin] prints. *)
Inductive seeded : Type :=
  | AlreadyExists
  | Seeded (username password : string).

(** [seed_admin(username, email, password)] on the table as
    [ensure_users_table] creates it; [rowid] is the identifier SQLite
    assigns, [now] its CURRENT_TIMESTAMP and [salt] the salt of the hash.
    The e-mail address is UNIQUE. *)
Definition seed_admin `{PasswordContext} (rowid : Z) (now salt : string)
    (username email password : string) (w : World)
  : World * (sqlite3_Error + seeded) :=
  match database w !! "users" with
  | None => (w, inl sqlite3_OperationalError)
  | Some table =>
      if negb (bool_decide (columns table = users_columns))
      then (w, inl sqlite3_OperationalError)
      else
        match rows_where 1 username table with
        | _ :: _ => (w, inr AlreadyExists)
        | [] =>
            match rows_where 2 email table with
            | _ :: _ => (w, inl sqlite3_IntegrityError)
            | [] =>
                let row := [CNum (inject_Z rowid); CStr username; CStr email;
                            CStr (pwd_hash salt password); CStr "admin"; CStr now] in
                (with_database
                   (<["users" := mkFrame (columns table) (rows table ++ [row])]> (database w))
                   w,
                 inr (Seeded username password))
            end
        end
  end.

End InitUsers.

(** * Notions used in the statements *)

(** The first cell of a row that sits under the label [name]. *)
Fixpoint lookup_label (name : string) (cols : list string) (r : list cell) : cell :=
  match cols, r with
  | c :: cs, x :: xs => if decide (c = name) then x else lookup_label name cs xs
  | _, _ => CNull
  end.

(** The cells of a table under position [j], row by row. *)
Definition column_at (j : nat) (df : DataFrame) : list cell := map (at_pos j) (rows df).





(** The right table as [safe_merge] hands it to the join. *)
Definition without_collisions (left_df right_df : DataFrame) (on_col : string) : DataFrame :=
  let dup_cols :=
    List.filter (fun c => bool_decide (c ∈ columns left_df) && bool_decide (c ≠ on_col))
                (columns right_df) in
  match dup_cols with
  | [] => right_df
  | _ => drop right_df dup_cols
  end.

(** [df'] comes from [df] by assignments to columns labelled in [labels]:
    same rows, every column of [df] still in place, the columns under the
    other labels unchanged, and no new column under another label. *)
Definition extends (labels : list string) (df df' : DataFrame) : Prop :=
  wf df' /\
  nrows df' = nrows df /\
  (forall j c, columns df !! j = Some c -> columns df' !! j = Some c) /\
  (forall j c, columns df' !! j = Some c -> c ∉ labels -> columns df !! j = Some c) /\
  (forall j c, columns df !! j = Some c -> c ∉ labels -> column_at j df' = column_at j df).

(** How often the name [c] occurs in a list of column names. *)
Definition occurrences (c : string) (cols : list string) : nat :=
  length (List.filter (fun x => bool_decide (x = c)) cols).

(** The length of a longest common subsequence, by its recurrence; the
    table of [lcs] is checked against it. *)
Fixpoint lcs_spec (a b : list ascii) : nat :=
  match a with
  | [] => 0%nat
  | x :: a' =>
      (fix against (b : list ascii) : nat :=
         match b with
         | [] => 0%nat
         | y :: b' =>
             if Ascii.eqb x y then S (lcs_spec a' b')
             else Nat.max (lcs_spec a' b) (against b')
         end) b
  end.

(** The suffixes of a list, longest first. *)
Fixpoint suffixes {A : Type} (l : list A) : list (list A) :=
  match l with
  | [] => [[]]
  | _ :: l' => l :: suffixes l'
  end.

(** Every key of the table is its own best match. *)
Definition keys_match_themselves (mapping : list (string * string)) : bool :=
  forallb (fun k => match extractOne token_sort_ratio k (map fst mapping) with
                    | Some (best, _) => String.eqb best k
                    | None => false
                    end)
          (map fst mapping).

(** What a cell counts for as an amount:
    [pd.to_numeric(..., errors="coerce").fillna(0)]. *)
Definition amount_of `{Conversions} (c : cell) : Q :=
  match to_numeric c with
  | Some q => q
  | None => 0
  end.


(** [x / y] on floats when [y] is not zero. *)
Definition quotient (x y : float) : float :=
  match x, y with
  | Some a, Some b => Some (a / b)%Q
  | _, _ => None
  end.

(** A float that is not a zero. *)
Definition nonzero (y : float) : Prop :=
  forall b, y = Some b -> Qeq_bool b 0 = false.

(** How many moves were tried, and how many one-second sleeps were taken. *)
Definition moves_tried (w : World) : nat :=
  length (List.filter (fun e => match e with MoveTried _ => true | _ => false end)
                      (events w)).

Definition backoffs (w : World) : nat :=
  length (List.filter (fun e => match e with Slept 1000 => true | _ => false end)
                      (events w)).




(** * Sample inputs *)

(** ** Tables *)

(** The Charges table of [ETL.sheet_mappings]. *)
Definition charges_mapping : list (string * string) :=
  [ ("Account Num", "Claim No"); ("Svc Date", "DOS");
    ("Batch Date", "Charge Entry Date"); ("Amount", "Billed Amount");
    ("Responsible Provider", "Provider Name"); ("Insurance", "Payer/Insurance");
    ("Group", "Facility Name"); ("FC", "Financial Class") ].

(** Vendor headers of a Charges sheet: one reworded, one unknown. *)
Definition reworded_charges : DataFrame :=
  mkFrame ["Date Svc"; "Account Number"; "Zip"; "Amount"]
          [[CDate 0; CNum 1; CStr "10001"; CNum 90]].

Definition sample_charges : DataFrame :=
  mkFrame ["Claim No"; "Billed Amount"; "insurance"]
          [[CNum 1; CNum 90; CStr "Aetna"]; [CNum 2; CNum 0; CStr "Cigna"]].

Definition sample_payment : DataFrame :=
  mkFrame ["Claim No"; "Paid Amount"; "insurance"]
          [[CNum 1; CNum 45; CStr "Medicare"]].


Definition sample_adjustment : DataFrame :=
  mkFrame ["Claim No"; "Adjustment Amount"] [[CNum 1; CNum 10]].

Definition sample_pending_ar : DataFrame :=
  mkFrame ["Claim No"; "AR Balance"; "Aging Range"; "Financial Status"]
          [[CNum 1; CNum 1; CStr "90+"; CStr "Denied"]].

(** A merged table of two claims; the second has nothing billed. *)
Definition sample_merged : DataFrame :=
  mkFrame ["Claim No"; "Billed Amount"; "Paid Amount"; "AR Balance"]
          [[CNum 1; CNum 90; CNum 45; CNum 1];
           [CNum 2; CNum 0; CNum 20; CNull]].

(** Conversions that read no text as a number or a date: enough for
    tables whose amounts are numbers already. *)
Definition plain_conversions : Conversions :=
  {| parse_numeric := fun _ => None;
     parse_datetime := fun _ => None;
     repr := fun _ => EmptyString |}.

(** ** Workbooks, as a vendor exports them *)

Definition raw_payment : DataFrame :=
  mkFrame ["Account Num"; "Amount"; "Batch Date"]
          [[CNum 1; CNum 45; CDate 172800000000000]].

Definition raw_adjustment : DataFrame :=
  mkFrame ["Account Num"; "Amount"] [[CNum 1; CNum 10]].

Definition raw_pending_ar : DataFrame :=
  mkFrame ["Account Num"; "Amount"; "Aging Bucket"; "Rcvbl Status"]
          [[CNum 1; CNum 1; CStr "90+"; CStr "Denied"]].

Definition charges_january : DataFrame :=
  mkFrame ["Account Num"; "Amount"] [[CNum 1; CNum 90]].

Definition charges_february : DataFrame :=
  mkFrame ["Account Num"; "Amount"] [[CNum 2; CNum 250]].

(** A workbook with two sheets for the Charges role. *)
Definition two_charges_workbook : Workbook :=
  mkWorkbook [ ("Charges Jan", charges_january); ("Charges Feb", charges_february);
               ("Payment", raw_payment); ("Adjustment", raw_adjustment);
               ("Pending AR", raw_pending_ar) ].

(** A Charges sheet whose headers differ by case only, next to a header
    that already ends in a counter. *)
Definition charges_with_status : DataFrame :=
  mkFrame ["Account Num"; "Amount"; "Status"; "status"; "status_1"]
          [[CNum 1; CNum 90; CStr "open"; CStr "billed"; CStr "paid"]].

Definition status_workbook : Workbook :=
  mkWorkbook [ ("Charges", charges_with_status); ("Payment", raw_payment);
               ("Adjustment", raw_adjustment); ("Pending AR", raw_pending_ar) ].

Definition january_workbook : Workbook :=
  mkWorkbook [ ("Charges", charges_january); ("Payment", raw_payment);
               ("Adjustment", raw_adjustment); ("Pending AR", raw_pending_ar) ].

Definition february_workbook : Workbook :=
  mkWorkbook [ ("Charges", charges_february); ("Payment", raw_payment);
               ("Adjustment", raw_adjustment); ("Pending AR", raw_pending_ar) ].

Definition march_workbook : Workbook :=
  mkWorkbook [ ("Charges", mkFrame ["Account Num"; "Amount"] [[CNum 3; CNum 70]]);
               ("Payment", raw_payment); ("Adjustment", raw_adjustment);
               ("Pending AR", raw_pending_ar) ].

(** ** Intake folders *)

(** One workbook in the intake folder, held open by another process for
    longer than any retry lasts. *)
Definition held_world : World :=
  mkWorld [("january.xlsx", mkFile (Some january_workbook) 5)] ∅ ∅ ∅ [].

(** Three workbooks; the last one is held open when its move is tried. *)
Definition three_file_world : World :=
  mkWorld [ ("january.xlsx", mkFile (Some january_workbook) 0);
            ("february.xlsx", mkFile (Some february_workbook) 0);
            ("march.xlsx", mkFile (Some march_workbook) 1) ] ∅ ∅ ∅ [].

(** Three workbooks, none held open. *)
Definition free_world : World :=
  mkWorld [ ("january.xlsx", mkFile (Some january_workbook) 0);
            ("february.xlsx", mkFile (Some february_workbook) 0);
            ("march.xlsx", mkFile (Some march_workbook) 0) ] ∅ ∅ ∅ [].

(** * Notions used in the further statements *)

(** The labels [calculate_kpis] may write to. *)
Definition kpi_labels : list string :=
  ["Paid Amount"; "Billed Amount"; "Adjustment Amount"; "AR Balance";
   "Charge Lag (days)"; "Billing Lag (days)"; "GCR (%)"; "NCR (%)"; "CCR (%)";
   "AR Days"; "90+ AR Days (%)"; "Denial Rate (%)"].

(** The rows whose status text contains "denied", whatever the case. *)
Definition denied_claims `{Conversions} (status : list cell) : nat :=
  length (List.filter (fun c => contains "denied" (lower (cell_str c))) status).

(** The file [name] is still there with the workbook [xl]: in the intake
    folder, or, once it has left it, in the archive. *)
Definition kept (name : string) (xl : option Workbook) (w : World) : Prop :=
  (exists f, assoc name (input_dir w) = Some f /\ content f = xl) \/
  (assoc name (input_dir w) = None /\
   exists f, archive_dir w !! name = Some f /\ content f = xl).

(** The name of the CSV export ETL.py writes for a workbook. *)
Definition export_of (name : string) : string := splitext_root name +:+ "_with_kpis.csv".

(** The names of a directory listing that end in .xlsx, in any case. *)
Definition xlsx_only (listing : list string) : list string :=
  List.filter (fun f => endswith (lower f) ".xlsx") listing.

(** What final_2.py writes out for a file of the intake folder, if it gets
    that far. *)
Definition clean_frame `{Conversions} (file : string) (w : World) : option DataFrame :=
  match (try! xl := ETL.open_workbook file w in Final2Run.transform xl) with
  | Ok (Some final_df) => Some final_df
  | _ => None
  end.

(** The role a caller is checked under: the role claim in lower case, the
    empty text for a caller without one. *)
Definition role_of (user : App.Caller) : string :=
  lower (default EmptyString (App.role user)).

(** The permissions [ROLE_PERMS] grants to a role name. *)
Definition granted (role_name : string) : gset RBAC.Permission :=
  default ∅ (App.ROLE_PERMS !! role_name).

(** * Further sample inputs *)

(** Two merged claims with every column the KPIs read. *)
Definition sample_claims : DataFrame :=
  mkFrame ["Claim No"; "DOS"; "Charge Entry Date"; "Billed Amount"; "Paid Amount";
           "Payment Entry Date"; "Adjustment Amount"; "AR Balance"; "Aging Range";
           "Financial Status"]
          [[CNum 1; CDate 0; CDate 172800000000000; CNum 90; CNum 45;
            CDate 432000000000000; CNum 10; CNum 35; CStr "90+"; CStr "Denied"];
           [CNum 2; CDate 0; CDate 129600000000000; CNum 60; CNum 60;
            CNull; CNum 60; CNull; CStr "0-30"; CStr "Paid"]].

(** [sample_claims] with the KPI columns [calculate_kpis] adds. *)
Definition sample_claims_kpis : DataFrame :=
  mkFrame ["Claim No"; "DOS"; "Charge Entry Date"; "Billed Amount"; "Paid Amount";
           "Payment Entry Date"; "Adjustment Amount"; "AR Balance"; "Aging Range";
           "Financial Status"; "Charge Lag (days)"; "Billing Lag (days)"; "GCR (%)";
           "NCR (%)"; "CCR (%)"; "AR Days"; "90+ AR Days (%)"; "Denial Rate (%)"]
          [[CNum 1; CDate 0; CDate 172800000000000; CNum 90; CNum 45;
            CDate 432000000000000; CNum 10; CNum 35; CStr "90+"; CStr "Denied";
            CNum 2; CNum 3; CNum 50; CNum (225 # 4); CNum (225 # 4); CNum 7; CNum 35;
            CNum 50];
           [CNum 2; CDate 0; CDate 129600000000000; CNum 60; CNum 60;
            CNull; CNum 60; CNum 0; CStr "0-30"; CStr "Paid";
            CNum 1; CNull; CNum 100; CNum 0; CNum 0; CNum 0; CNum 0; CNum 50]].


(** A normalised Charges sheet whose two dates came as text. *)
Definition sample_raw_dates : DataFrame :=
  mkFrame ["Claim No"; "DOS"; "Charge Entry Date"]
          [[CNum 1; CStr "2025-07-01"; CStr "2025-07-03"]].

(** A merged table in which a name occurs twice. *)
Definition sample_repeated : DataFrame :=
  mkFrame ["account num"; "amount"; "amount"] [[CNum 1; CNum 90; CNum 45]].

(** A codec for the examples: the token is the role it claims, the empty
    token is not accepted. *)
Definition role_tokens : TokenCodec :=
  {| jwt_decode := fun token =>
       if decide (token = EmptyString) then None
       else Some (<["sub" := "1"]> (<["role" := token]> ∅)) |}.

(** A password context for the examples: the hash is the salt, a dollar
    sign and the password. *)
Definition plain_passwords : PasswordContext :=
  {| pwd_hash := fun salt password => salt +:+ "$" +:+ password |}.

(** A store with the tables of two runs, the later one shortly after
    midnight. *)
Definition two_run_world : World :=
  mkWorld [] ∅ ∅
          (<["claims_with_kpis_20250101_235959" := sample_merged]>
             (<["claims_with_kpis_20250102_000001" := sample_merged]> ∅)) [].

(** * Properties *)

(** ** Lists, masks and label positions *)

Lemma select_map_filter {A : Type} (f : A -> bool) (xs : list A) :
  select (map f xs) xs = List.filter f xs.
Proof.
  induction xs as [|x xs IH]; simpl; [done|].
  destruct (f x); by rewrite IH.
Qed.

Lemma positions_from_shift k name cols :
  positions_from (S k) name cols = map S (positions_from k name cols).
Proof.
  revert k. induction cols as [|c cs IH]; intros k; simpl; [done|].
  destruct (decide (c = name)); simpl; by rewrite IH.
Qed.

Lemma positions_from_lookup k name cols j :
  j ∈ positions_from k name cols <-> (k <= j)%nat /\ cols !! (j - k)%nat = Some name.
Proof.
  revert k. induction cols as [|c cs IH]; intros k; simpl.
  - split; [by intros ?%elem_of_nil | by intros [_ ?]].
  - destruct (decide (c = name)) as [->|Hne].
    + rewrite elem_of_cons, IH. split.
      * intros [->|[Hle Hl]].
        -- split; [lia|]. by replace (k - k)%nat with 0%nat by lia.
        -- split; [lia|]. by replace (j - k)%nat with (S (j - S k)) by lia.
      * intros [Hle Hl]. destruct (decide (j = k)) as [->|]; [by left|right].
        split; [lia|]. by replace (j - k)%nat with (S (j - S k)) in Hl by lia.
    + rewrite IH. split.
      * intros [Hle Hl]. split; [lia|]. by replace (j - k)%nat with (S (j - S k)) by lia.
      * intros [Hle Hl]. destruct (decide (j = k)) as [->|].
        -- replace (k - k)%nat with 0%nat in Hl by lia. simpl in Hl. congruence.
        -- split; [lia|]. by replace (j - k)%nat with (S (j - S k)) in Hl by lia.
Qed.

Lemma positions_lookup name cols j :
  j ∈ positions name cols <-> cols !! j = Some name.
Proof.
  unfold positions. rewrite positions_from_lookup.
  replace (j - 0)%nat with j by lia. split; [by intros [_ ?] | intros; split; [lia|done]].
Qed.




Lemma positions_from_app k name l1 l2 :
  name ∉ l2 -> positions_from k name (l1 ++ l2) = positions_from k name l1.
Proof.
  intros Hnot. revert k. induction l1 as [|c cs IH]; intros k; simpl.
  - induction l2 as [|c cs IH] in k, Hnot |- *; simpl; [done|].
    rewrite not_elem_of_cons in Hnot. destruct Hnot as [Hne Hnot].
    destruct (decide (c = name)); [congruence|]. by apply IH.
  - destruct (decide (c = name)); by rewrite IH.
Qed.

Lemma positions_singleton name cols j :
  positions name cols = [j] ->
  cols !! j = Some name /\ forall j', cols !! j' = Some name -> j' = j.
Proof.
  intros E. split.
  - apply positions_lookup. rewrite E. by left.
  - intros j' Hj'. apply positions_lookup in Hj'. rewrite E in Hj'.
    by apply list_elem_of_singleton in Hj'.
Qed.

Lemma delete_unique_label_from k name cols i :
  positions_from k name cols = [(k + i)%nat] ->
  delete i cols = List.filter (fun c => negb (bool_decide (c = name))) cols.
Proof.
  revert k i. induction cols as [|c cs IH]; intros k i E; simpl in *; [done|].
  destruct (decide (c = name)) as [->|Hne].
  - rewrite bool_decide_eq_true_2 by done. simpl.
    injection E as Hk Hrest. assert (i = 0%nat) as -> by lia. simpl.
    clear Hk IH. revert Hrest. generalize (S k). intros k' Hrest.
    induction cs as [|c cs IH] in k', Hrest |- *; simpl in *; [done|].
    destruct (decide (c = name)); [done|].
    rewrite bool_decide_eq_false_2 by done. simpl. f_equal. by eapply IH.
  - rewrite bool_decide_eq_false_2 by done. simpl.
    destruct i as [|i].
    + assert (Hin : (k + 0)%nat ∈ positions_from (S k) name cs) by (rewrite E; by left).
      apply positions_from_lookup in Hin. lia.
    + simpl. f_equal. apply (IH (S k) i).
      by replace (S k + i)%nat with (k + S i)%nat by lia.
Qed.

Lemma delete_unique_label name cols j :
  positions name cols = [j] ->
  delete j cols = List.filter (fun c => negb (bool_decide (c = name))) cols.
Proof. intros E. by apply (delete_unique_label_from 0 name cols j). Qed.

Lemma lookup_label_nil name cols : lookup_label name cols [] = CNull.
Proof. by destruct cols. Qed.




Lemma drop_columns df labels :
  columns (drop df labels)
  = List.filter (fun c => negb (bool_decide (c ∈ labels))) (columns df).
Proof. unfold drop. simpl. apply select_map_filter. Qed.



(** ** The left join *)






Lemma join_row_prefix li ri width right_rows l row :
  row ∈ join_row li ri width right_rows l -> exists ext, row = l ++ ext.
Proof.
  unfold join_row. destruct (matching_rows li ri l right_rows) as [|m ms].
  - intros ->%list_elem_of_singleton. eauto.
  - intros (r & -> & _)%list_elem_of_fmap. eauto.
Qed.

Lemma join_row_nonempty li ri width right_rows l :
  exists row, row ∈ join_row li ri width right_rows l.
Proof.
  unfold join_row. destruct (matching_rows li ri l right_rows) as [|m ms].
  - eexists. by left.
  - eexists. simpl. by left.
Qed.

Lemma safe_merge_unfold left_df right_df on_col :
  ETL.safe_merge left_df right_df on_col
  = merge_left left_df (without_collisions left_df right_df on_col) on_col.
Proof. reflexivity. Qed.

Lemma filter_none_negb {A : Type} (g : A -> bool) (xs : list A) :
  List.filter g xs = [] -> List.filter (fun x => negb (g x)) xs = xs.
Proof.
  induction xs as [|x xs IH]; simpl; [done|].
  destruct (g x); simpl; [done|]. intros E. f_equal. by apply IH.
Qed.

Lemma without_collisions_columns left_df right_df on_col :
  columns (without_collisions left_df right_df on_col)
  = List.filter (fun c => negb (bool_decide (c ∈ columns left_df) && bool_decide (c ≠ on_col)))
                (columns right_df).
Proof.
  unfold without_collisions.
  set (g := fun c : string => bool_decide (c ∈ columns left_df) && bool_decide (c ≠ on_col)).
  destruct (List.filter g (columns right_df)) as [|d ds] eqn:E.
  - symmetry. by apply (filter_none_negb g).
  - rewrite drop_columns, <- E. apply List.filter_ext_in. intros c Hc.
    f_equal. apply eq_true_iff_eq. rewrite bool_decide_eq_true.
    rewrite list_elem_of_In, List.filter_In. tauto.
Qed.



Lemma safe_merge_spec left_df right_df on_col merged :
  ETL.safe_merge left_df right_df on_col = Ok merged ->
  exists li ri width,
    positions on_col (columns left_df) = [li] /\
    positions on_col (columns (without_collisions left_df right_df on_col)) = [ri] /\
    columns merged
    = columns left_df
      ++ List.filter (fun c => negb (bool_decide (c ∈ columns left_df))) (columns right_df) /\
    rows merged
    = concat (map (join_row li ri width
                     (rows (without_collisions left_df right_df on_col)))
                  (rows left_df)).
Proof.
  rewrite safe_merge_unfold. unfold merge_left.
  set (right' := without_collisions left_df right_df on_col).
  destruct (positions on_col (columns left_df)) as [|li [|]] eqn:El; [done| |];
    destruct (positions on_col (columns right')) as [|ri [|]] eqn:Er; try done.
  intros [= <-]. simpl. eexists li, ri, _.
  split; [done|]. split; [done|]. split; [|reflexivity].
  assert (Hon : on_col ∈ columns left_df).
  { apply list_elem_of_lookup. exists li. apply positions_lookup. rewrite El. by left. }
  assert (Hno : forall c, bool_decide (c ≠ on_col) && bool_decide (c ∈ columns left_df)
                          && bool_decide (c ∈ columns right') = false).
  { intros c. apply not_true_is_false.
    intros [[Hne Hl%bool_decide_eq_true]%andb_true_iff Hr%bool_decide_eq_true]%andb_true_iff.
    unfold right' in Hr. rewrite without_collisions_columns in Hr.
    rewrite list_elem_of_In, List.filter_In in Hr. destruct Hr as [_ Hr].
    rewrite (bool_decide_eq_true_2 _ Hl), Hne in Hr. done. }
  f_equal.
  - rewrite <- (map_id (columns left_df)) at 2. apply map_ext. intros c. by rewrite Hno.
  - erewrite map_ext; [rewrite map_id | intros c; by rewrite Hno].
    rewrite (delete_unique_label _ _ _ Er). unfold right'.
    rewrite without_collisions_columns.
    induction (columns right_df) as [|c cs IH]; simpl; [done|].
    destruct (decide (c ∈ columns left_df)) as [Hc|Hc].
    + rewrite (bool_decide_eq_true_2 _ Hc). simpl.
      destruct (decide (c = on_col)) as [->|Hne].
      * rewrite (bool_decide_eq_false_2 (on_col ≠ on_col)) by tauto. simpl.
        rewrite bool_decide_eq_true_2 by done. simpl. apply IH.
      * rewrite (bool_decide_eq_true_2 (c ≠ on_col)) by done. simpl. apply IH.
    + rewrite (bool_decide_eq_false_2 _ Hc). simpl.
      rewrite bool_decide_eq_false_2 by (intros ->; done). simpl. f_equal. apply IH.
Qed.






Lemma lookup_label_app name cols extra l ext :
  name ∈ cols -> length l = length cols ->
  lookup_label name (cols ++ extra) (l ++ ext) = lookup_label name cols l.
Proof.
  revert l. induction cols as [|c cs IH]; intros l Hin Hlen.
  - by apply elem_of_nil in Hin.
  - destruct l as [|x xs]; [done|]. simpl.
    destruct (decide (c = name)); [done|].
    apply IH; [|by injection Hlen].
    apply elem_of_cons in Hin as [->|]; [done|done].
Qed.

(** C8: when Charges and Payment both carry a column [c] other than the
    join key, the merged table has [c] only where Charges has it, and in
    every merged row the value under [c] is that of the Charges row the
    merged row starts with; every Charges row is there. *)
Theorem safe_merge_keeps_left_value left_df right_df on_col merged c :
  wf left_df ->
  ETL.safe_merge left_df right_df on_col = Ok merged ->
  c ∈ columns left_df -> c ∈ columns right_df -> c ≠ on_col ->
  positions c (columns merged) = positions c (columns left_df) /\
  (forall row, row ∈ rows merged ->
     exists l ext, l ∈ rows left_df /\ row = l ++ ext /\
       lookup_label c (columns merged) row = lookup_label c (columns left_df) l) /\
  (forall l, l ∈ rows left_df -> exists ext, l ++ ext ∈ rows merged).
Proof.
  intros Hwf E Hl Hr Hne.
  destruct (safe_merge_spec _ _ _ _ E) as (li & ri & width & _ & _ & Hcols & Hrows).
  rewrite Hcols, Hrows. split; [|split].
  - unfold positions. apply positions_from_app.
    rewrite list_elem_of_In, List.filter_In. intros [_ Hn].
    by rewrite bool_decide_eq_true_2 in Hn.
  - intros row Hrow. apply list_elem_of_In, in_concat in Hrow as (js & Hjs & Hin).
    apply in_map_iff in Hjs as (l & <- & Hlin).
    apply list_elem_of_In in Hin, Hlin.
    destruct (join_row_prefix _ _ _ _ _ _ Hin) as [ext ->].
    exists l, ext. split; [done|]. split; [done|].
    apply lookup_label_app; [done|].
    unfold wf in Hwf. rewrite Forall_forall in Hwf. by apply Hwf.
  - intros l Hlin.
    destruct (join_row_nonempty li ri width
                (rows (without_collisions left_df right_df on_col)) l) as [row Hrow].
    destruct (join_row_prefix _ _ _ _ _ _ Hrow) as [ext ->].
    exists ext. apply list_elem_of_In, in_concat. eexists. split.
    + apply in_map. by apply list_elem_of_In.
    + by apply list_elem_of_In.
Qed.

Lemma safe_merge_keeps_left_value_witness :
  exists merged,
    ETL.safe_merge sample_charges sample_payment "Claim No" = Ok merged /\
    positions "insurance" (columns merged) = [2%nat] /\
    (forall row, row ∈ rows merged ->
       lookup_label "insurance" (columns merged) row = CStr "Aetna" \/
       lookup_label "insurance" (columns merged) row = CStr "Cigna").
Proof.
  eexists. split; [vm_compute; reflexivity|].
  match goal with
  | |- positions _ (columns ?m) = _ /\ _ =>
      destruct (safe_merge_keeps_left_value sample_charges sample_payment "Claim No"
                  m "insurance") as (Hpos & Hval & _)
  end.
  - repeat constructor.
  - vm_compute; reflexivity.
  - apply list_elem_of_In. simpl. tauto.
  - apply list_elem_of_In. simpl. tauto.
  - discriminate.
  - split; [exact Hpos|]. intros row Hrow.
    destruct (Hval row Hrow) as (l & ext & Hl & _ & ->).
    apply list_elem_of_In in Hl. simpl in Hl.
    destruct Hl as [<-|[<-|[]]]; [left|right]; reflexivity.
Defined.

(** ** The sheet classifier *)

(** [find_sheet] of final_2.py answers with the first sheet, in list
    order, whose name contains the keyword. *)
Lemma find_sheet_first sheets keyword sheet :
  Final2.find_sheet sheets keyword = Some sheet <->
  exists before after,
    sheets = before ++ sheet :: after /\
    contains (lower keyword) (lower sheet) = true /\
    Forall (fun s => contains (lower keyword) (lower s) = false) before.
Proof.
  induction sheets as [|s rest IH]; simpl.
  - split; [done|]. intros (before & after & E & _). by destruct before.
  - destruct (contains (lower keyword) (lower s)) eqn:Hs.
    + split.
      * intros [= <-]. exists [], rest. by repeat split.
      * intros ([|b before] & after & E & Hm & Hb).
        -- by injection E as <- _.
        -- injection E as <- _. apply Forall_cons in Hb as [Hb _]. congruence.
    + rewrite IH. split.
      * intros (before & after & -> & Hm & Hb). exists (s :: before), after.
        repeat split; [done|]. by constructor.
      * intros ([|b before] & after & E & Hm & Hb).
        -- injection E as <- _. congruence.
        -- injection E as <- ->. apply Forall_cons in Hb as [_ Hb]. eauto.
Qed.

Lemma for_each_app {A S : Type} (body : S -> A -> result S) (xs ys : list A) (s : S) :
  for_each body (xs ++ ys) s = (try! s' := for_each body xs s in for_each body ys s').
Proof.
  revert s. induction xs as [|x xs IH]; intros s; simpl; [done|].
  destruct (body s x) as [s'|e]; simpl; [apply IH|done].
Qed.

(** The sheet loop of ETL.py keeps, for each role, the frame of the last
    sheet in the list that is matched to the role. *)
Lemma sheet_loop_keeps_last `{Conversions} xl processed key df :
  ETL.load_sheets xl = Ok processed -> processed !! key = Some df ->
  exists before sheet after mapping,
    sheet_names xl = before ++ sheet :: after /\
    ETL.match_role sheet = Some (key, mapping) /\
    Forall (fun s => fst <$> ETL.match_role s <> Some key) after /\
    (try! raw := parse xl sheet in
     try! renamed := ETL.normalize_headers raw mapping in
     ETL.parse_date_columns renamed) = Ok df.
Proof.
  unfold ETL.load_sheets. generalize (sheet_names xl) as names. intros names.
  revert processed. induction names as [|s names IH] using rev_ind; intros processed E Hkey.
  - injection E as <-. by rewrite lookup_empty in Hkey.
  - rewrite for_each_app in E.
    destruct (for_each _ names ∅) as [p|] eqn:Ep; simpl in E; [|done].
    destruct (ETL.match_role s) as [[k mapping]|] eqn:Hs.
    + destruct (parse xl s) as [raw|] eqn:Eraw; simpl in E; [|done].
      destruct (ETL.normalize_headers raw mapping) as [renamed|] eqn:Eren; simpl in E; [|done].
      destruct (ETL.parse_date_columns renamed) as [d|] eqn:Ed; simpl in E; [|done].
      injection E as <-. destruct (decide (k = key)) as [->|Hne].
      * rewrite lookup_insert_eq in Hkey. injection Hkey as ->.
        exists names, s, [], mapping. split; [done|]. split; [done|]. split; [done|].
        rewrite Eraw. simpl. rewrite Eren. simpl. done.
      * rewrite lookup_insert_ne in Hkey by done.
        destruct (IH p eq_refl Hkey) as (before & sheet & after & m & -> & Hm & Hafter & Hdf).
        exists before, sheet, (after ++ [s]), m. split; [by rewrite <- app_assoc|].
        split; [done|]. split; [|done].
        apply Forall_app. split; [done|]. constructor; [|done].
        rewrite Hs. simpl. congruence.
    + injection E as <-.
      destruct (IH p eq_refl Hkey) as (before & sheet & after & m & -> & Hm & Hafter & Hdf).
      exists before, sheet, (after ++ [s]), m. split; [by rewrite <- app_assoc|].
      split; [done|]. split; [|done].
      apply Forall_app. split; [done|]. constructor; [|done].
      by rewrite Hs.
Qed.

(** C4 on ETL.py: with the sheets "Charges Jan" and "Charges Feb", in this
    order, the frame kept for the Charges role is that of "Charges Feb",
    the last match, while [find_sheet] picks "Charges Jan". *)
Theorem load_sheets_keeps_last_match `{Conversions} :
  Final2.find_sheet (sheet_names two_charges_workbook) "charges" = Some "Charges Jan" /\
  (try! processed := ETL.load_sheets two_charges_workbook in
   ETL.role processed "Charges")
  = Ok (mkFrame ["Claim No"; "Billed Amount"] [[CNum 2; CNum 250]]).
Proof. split; vm_compute; reflexivity. Qed.

(** ** The final renaming *)

(** What [make_unique_columns] writes at each position: the name itself
    at its first occurrence, and the name with the count of its earlier
    occurrences after that. Whether the suffixed name is taken by another
    column is not looked at. *)
Lemma unique_from_lookup seen cols i c :
  cols !! i = Some c ->
  ETL.unique_from seen cols !! i
  = Some match seen !! c, occurrences c (take i cols) with
         | None, O => c
         | None, S k => c +:+ "_" +:+ str_of_nat (S k)
         | Some n, k => c +:+ "_" +:+ str_of_nat (S (n + k))
         end.
Proof.
  revert seen i. induction cols as [|c0 rest IH]; intros seen i Hc; [done|].
  destruct i as [|i]; simpl in Hc.
  - injection Hc as ->. simpl. unfold occurrences. simpl.
    destruct (seen !! c) as [n|]; simpl; [|done]. by rewrite Nat.add_0_r.
  - cbn [ETL.unique_from take]. unfold occurrences. cbn [List.filter].
    destruct (decide (c0 = c)) as [->|Hne].
    + rewrite bool_decide_eq_true_2 by done. cbn [length].
      fold (occurrences c (take i rest)).
      destruct (seen !! c) as [n|] eqn:Hs; cbn [lookup list_lookup];
        rewrite (IH _ i Hc), lookup_insert_eq.
      * do 4 f_equal. lia.
      * done.
    + rewrite bool_decide_eq_false_2 by done.
      fold (occurrences c (take i rest)).
      destruct (seen !! c0) as [n0|]; cbn [lookup list_lookup];
        rewrite (IH _ i Hc), lookup_insert_ne by done; done.
Qed.

Lemma make_unique_columns_lookup cols i c :
  cols !! i = Some c ->
  ETL.make_unique_columns cols !! i
  = Some match occurrences c (take i cols) with
         | O => c
         | S k => c +:+ "_" +:+ str_of_nat (S k)
         end.
Proof.
  intros Hc. unfold ETL.make_unique_columns.
  by rewrite (unique_from_lookup ∅ cols i c Hc), lookup_empty.
Qed.

(** C9 on ETL.py: the headers "Status", "status" and "status_1" of a
    Charges sheet come out as "status", "status_1" and "status_1": the
    counter suffix given to the second "status" is a name that is already
    there. The frame the pipeline builds has two columns of one name, and
    the table write is refused. *)
Theorem make_unique_columns_collision `{Conversions} :
  ETL.final_columns ["Status"; "status"; "status_1"] = ["status"; "status_1"; "status_1"] /\
  ~ NoDup (ETL.final_columns ["Status"; "status"; "status_1"]) /\
  (exists merged,
     ETL.transform status_workbook = Ok merged /\
     positions "status_1" (columns merged) = [3%nat; 4%nat]) /\
  (exists e,
     snd (ETL.process_single_file "claims.xlsx" "20250801_090000"
            (mkWorld [("claims.xlsx", mkFile (Some status_workbook) 0)] ∅ ∅ ∅ []))
     = ETL.Failure e).
Proof.
  split; [vm_compute; reflexivity|]. split.
  - intros Hnd. vm_compute in Hnd.
    apply NoDup_cons in Hnd as [_ Hnd]. apply NoDup_cons in Hnd as [Hnot _].
    apply Hnot. by left.
  - split; [eexists; split; vm_compute; reflexivity|].
    eexists. vm_compute. reflexivity.
Qed.

(** ** The similarity score and the best match *)

Lemma hd_map_suffixes (f : list ascii -> nat) (b : list ascii) :
  hd 0%nat (map f (suffixes b)) = f b.
Proof. by destruct b. Qed.

Lemma lcs_spec_nil_r a : lcs_spec a [] = 0%nat.
Proof. by destruct a. Qed.

Lemma lcs_row_spec x a b :
  lcs_row x b (map (lcs_spec a) (suffixes b)) = map (lcs_spec (x :: a)) (suffixes b).
Proof.
  induction b as [|y b IH]; [done|].
  cbn [suffixes map lcs_row]. rewrite IH, !hd_map_suffixes. done.
Qed.

Lemma lcs_table_spec a b : lcs_table a b = map (lcs_spec a) (suffixes b).
Proof.
  unfold lcs_table. induction a as [|x a IH]; cbn [foldr].
  - induction b as [|y b IHb]; [done|].
    cbn [length replicate suffixes map]. f_equal. exact IHb.
  - rewrite IH. apply lcs_row_spec.
Qed.

Lemma lcs_correct a b : lcs a b = lcs_spec a b.
Proof. unfold lcs. rewrite lcs_table_spec. apply hd_map_suffixes. Qed.

Lemma lcs_spec_refl a : lcs_spec a a = length a.
Proof.
  induction a as [|x a IH]; [done|]. simpl. rewrite Ascii.eqb_refl. by rewrite IH.
Qed.

(** A string scores 100 against itself. *)
Lemma ratio_refl s : (ratio s s == 100)%Q.
Proof.
  unfold ratio. rewrite lcs_correct, lcs_spec_refl.
  destruct (length (String.list_ascii_of_string s)) as [|n] eqn:E; simpl; [done|].
  unfold Qeq. simpl. lia.
Qed.

Lemma token_sort_ratio_refl s : (token_sort_ratio s s == 100)%Q.
Proof. apply ratio_refl. Qed.

(** [extractOne]: the answer is a choice with its score, no choice scores
    higher, and every choice before it scores lower. *)
Lemma extract_from_spec scorer query choices best0 best score :
  extract_from scorer query choices best0 = Some (best, score) ->
  (forall c, c ∈ choices -> (scorer query c <= score)%Q) /\
  (forall b0 s0, best0 = Some (b0, s0) -> (s0 <= score)%Q) /\
  ((best0 = Some (best, score)) \/
   (exists before after, choices = before ++ best :: after /\
      score = scorer query best /\
      (forall c, c ∈ before -> (scorer query c < score)%Q) /\
      (forall b0 s0, best0 = Some (b0, s0) -> (s0 < score)%Q))).
Proof.
  revert best0. induction choices as [|c rest IH]; intros best0 E; simpl in E.
  - subst best0. split; [by intros c ?%elem_of_nil|].
    split; [intros ? ? [= <- <-]; apply Qle_refl | by left].
  - destruct best0 as [[b0 s0]|].
    + destruct (Qle_bool (scorer query c) s0) eqn:Hle.
      * apply Qle_bool_iff in Hle.
        destruct (IH _ E) as (Hall & Hb0 & Hcase).
        split; [|split].
        -- intros c' [->|Hin]%elem_of_cons; [|by apply Hall].
           eapply Qle_trans; [exact Hle|]. by eapply Hb0.
        -- done.
        -- destruct Hcase as [Hsame|(before & after & -> & Hs & Hbefore & Hlt)]; [by left|].
           right. exists (c :: before), after. repeat split; [done| |done].
           intros c' [->|Hin]%elem_of_cons; [|by apply Hbefore].
           eapply Qle_lt_trans; [exact Hle|]. by eapply Hlt.
      * assert (Hlt : (s0 < scorer query c)%Q).
        { apply Qnot_le_lt. intros Hc%Qle_bool_iff. congruence. }
        destruct (IH _ E) as (Hall & Hb0 & Hcase).
        assert (Hc : (scorer query c <= score)%Q) by (by eapply Hb0).
        split; [|split].
        -- intros c' [->|Hin]%elem_of_cons; [done|by apply Hall].
        -- intros ? ? [= <- <-]. eapply Qle_trans; [apply Qlt_le_weak, Hlt|done].
        -- right. destruct Hcase as [[= <- <-]|(before & after & -> & Hs & Hbefore & Hlt')].
           ++ exists [], rest. repeat split; [by intros ? ?%elem_of_nil|].
              by intros ? ? [= <- <-].
           ++ exists (c :: before), after. repeat split; [done| |].
              ** intros c' [->|Hin]%elem_of_cons; [by eapply Hlt'|by apply Hbefore].
              ** intros ? ? [= <- <-]. eapply Qlt_trans; [exact Hlt|]. by eapply Hlt'.
    + destruct (IH _ E) as (Hall & Hb0 & Hcase).
      assert (Hc : (scorer query c <= score)%Q) by (by eapply Hb0).
      split; [|split].
      * intros c' [->|Hin]%elem_of_cons; [done|by apply Hall].
      * done.
      * right. destruct Hcase as [[= <- <-]|(before & after & -> & Hs & Hbefore & Hlt')].
        -- exists [], rest. repeat split; [by intros ? ?%elem_of_nil|done].
        -- exists (c :: before), after. repeat split; [done| |done].
           intros c' [->|Hin]%elem_of_cons; [by eapply Hlt'|by apply Hbefore].
Qed.

Lemma extractOne_spec scorer query choices best score :
  extractOne scorer query choices = Some (best, score) ->
  score = scorer query best /\
  (forall c, c ∈ choices -> (scorer query c <= score)%Q) /\
  exists before after, choices = before ++ best :: after /\
    forall c, c ∈ before -> (scorer query c < score)%Q.
Proof.
  intros E. destruct (extract_from_spec _ _ _ _ _ _ E) as (Hall & _ & Hcase).
  destruct Hcase as [|(before & after & -> & Hs & Hbefore & _)]; [done|].
  split; [done|]. split; [done|]. eauto.
Qed.

Lemma extract_from_some scorer query choices b :
  is_Some (extract_from scorer query choices (Some b)).
Proof.
  revert b. induction choices as [|c rest IH]; intros [b0 s0]; simpl; [eauto|].
  destruct (Qle_bool (scorer query c) s0); apply IH.
Qed.

Lemma extractOne_some scorer query choices :
  choices <> [] -> is_Some (extractOne scorer query choices).
Proof.
  destruct choices as [|c rest]; [done|]. intros _. apply extract_from_some.
Qed.

(** ** Header reconciliation *)

(** The renaming loop shared by [normalize_headers] and
    [normalize_sheet_headers]: once every column has a new name, the
    dictionary built by the loop holds it. *)
Lemma rename_loop (name_of : string -> result string) (f : string -> string)
    (cols : list string) (seen : gmap string string) :
  (forall c, c ∈ cols -> name_of c = Ok (f c)) ->
  exists new_cols,
    for_each (fun (new_cols : gmap string string) col =>
                try! name := name_of col in Ok (<[col := name]> new_cols))
             cols seen = Ok new_cols /\
    forall c, c ∈ cols -> new_cols !! c = Some (f c).
Proof.
  revert seen. induction cols as [|c0 cs IH]; intros seen Hall; simpl.
  - exists seen. split; [done|]. by intros c ?%elem_of_nil.
  - rewrite (Hall c0) by (by left). simpl.
    destruct (IH (<[c0 := f c0]> seen)) as (new_cols & E & Hlook).
    { intros c Hc. apply Hall. by right. }
    exists new_cols. split; [done|].
    intros c [->|Hc]%elem_of_cons; [|by apply Hlook].
    destruct (decide (c0 ∈ cs)) as [Hin|Hnot]; [by apply Hlook|].
    clear -E Hnot. revert seen E.
    induction cs as [|c1 cs IH]; intros seen E; simpl in E.
    + injection E as <-. apply lookup_insert_eq.
    + apply not_elem_of_cons in Hnot as [Hne Hnot].
      destruct (name_of c1) as [n1|e]; simpl in E; [|done].
      rewrite insert_insert_ne in E by done. by eapply IH.
Qed.

Lemma rename_columns (f : string -> string) (cols : list string)
    (new_cols : gmap string string) :
  (forall c, c ∈ cols -> new_cols !! c = Some (f c)) ->
  map (fun c => default c (new_cols !! c)) cols = map f cols.
Proof.
  intros Hlook. apply map_ext_in. intros c Hc%list_elem_of_In.
  by rewrite (Hlook c Hc).
Qed.

Lemma assoc_Some {V : Type} (k : string) (kvs : list (string * V)) :
  k ∈ map fst kvs -> exists v, assoc k kvs = Some v.
Proof.
  induction kvs as [|[k' v'] rest IH]; simpl.
  - by intros ?%elem_of_nil.
  - intros Hin. destruct (decide (k' = k)); [eauto|].
    apply IH. by apply elem_of_cons in Hin as [->|].
Qed.

Lemma assoc_None {V : Type} (k : string) (kvs : list (string * V)) :
  k ∉ map fst kvs -> assoc k kvs = None.
Proof.
  induction kvs as [|[k' v'] rest IH]; simpl; [done|].
  intros [Hne Hnot]%not_elem_of_cons. destruct (decide (k' = k)); [congruence|].
  by apply IH.
Qed.

(** What [new_name] answers, by the score of the best key. *)
Lemma new_name_spec mapping col :
  mapping <> [] -> EmptyString ∉ map fst mapping ->
  exists best score new,
    extractOne token_sort_ratio col (map fst mapping) = Some (best, score) /\
    ETL.new_name mapping col = Ok new /\
    ((85 <= score)%Q -> assoc best mapping = Some new) /\
    ((score < 85)%Q -> new = col).
Proof.
  intros Hne Hempty.
  destruct (extractOne_some token_sort_ratio col (map fst mapping)) as [[best score] E].
  { by destruct mapping. }
  destruct (extractOne_spec _ _ _ _ _ E) as (Hs & Hmax & before & after & Hkeys & _).
  assert (Hbest : best ∈ map fst mapping).
  { rewrite Hkeys. apply elem_of_app. right. by left. }
  unfold ETL.new_name, ETL.fuzzy_match_header. rewrite E.
  exists best, score. destruct (Qle_bool 85 score) eqn:Hcut; simpl.
  - destruct (assoc_Some best mapping Hbest) as [v Hv].
    exists v. split; [done|]. split.
    + unfold ETL.header_target, ETL.or_else.
      destruct (String.eqb best EmptyString) eqn:Hb.
      * apply String.eqb_eq in Hb. by subst best.
      * by rewrite Hv.
    + split; [done|]. intros Hlt. apply Qle_bool_iff in Hcut.
      exfalso. by apply (Qlt_not_le _ _ Hlt).
  - exists (ETL.header_target mapping None col). split; [done|]. split; [done|].
    split.
    + intros Hle%Qle_bool_iff. congruence.
    + intros Hlt. unfold ETL.header_target, ETL.or_else.
      rewrite assoc_None; [done|]. intros Hin.
      apply (Qlt_not_le _ _ Hlt). eapply Qle_trans; [|by apply Hmax].
      rewrite token_sort_ratio_refl. done.
Qed.

(** C5: [normalize_headers] renames every column whose best token-sort
    score against the mapping keys is at least 85 to the canonical name of
    the best key, and keeps every column whose best score is below 85
    under its own name; the rows are untouched. The mapping has at least
    one key and no empty key, as the four tables of the program do. *)
Theorem normalize_headers_cutoff df mapping :
  mapping <> [] -> EmptyString ∉ map fst mapping ->
  exists df',
    ETL.normalize_headers df mapping = Ok df' /\
    rows df' = rows df /\
    Forall2 (fun col new =>
               exists best score,
                 extractOne token_sort_ratio col (map fst mapping) = Some (best, score) /\
                 ((85 <= score)%Q -> assoc best mapping = Some new) /\
                 ((score < 85)%Q -> new = col))
            (columns df) (columns df').
Proof.
  intros Hne Hempty.
  set (f := fun c => match ETL.new_name mapping c with Ok n => n | Raise _ => c end).
  assert (Hf : forall c, ETL.new_name mapping c = Ok (f c)).
  { intros c. unfold f.
    destruct (new_name_spec mapping c Hne Hempty) as (? & ? & new & _ & -> & _). done. }
  destruct (rename_loop (ETL.new_name mapping) f (columns df) ∅) as (new_cols & E & Hlook).
  { intros c _. apply Hf. }
  unfold ETL.normalize_headers. rewrite E. simpl.
  eexists. split; [reflexivity|]. simpl. split; [done|].
  rewrite (rename_columns f) by done.
  apply Forall2_fmap_r, Forall_Forall2_diag, Forall_forall. intros c _.
  destruct (new_name_spec mapping c Hne Hempty) as (best & score & new & Ex & En & Hge & Hlt).
  exists best, score. rewrite Hf in En. injection En as ->. done.
Qed.

Lemma normalize_headers_cutoff_witness :
  exists df',
    ETL.normalize_headers reworded_charges charges_mapping = Ok df' /\
    rows df' = rows reworded_charges /\
    columns df' = ["DOS"; "Claim No"; "Zip"; "Billed Amount"].
Proof.
  destruct (normalize_headers_cutoff reworded_charges charges_mapping)
    as (df' & E & Hrows & _).
  - discriminate.
  - intros Hin. apply list_elem_of_In in Hin. simpl in Hin.
    repeat (destruct Hin as [Hin|Hin]; [discriminate Hin|]). exact Hin.
  - exists df'. split; [exact E|]. split; [exact Hrows|].
    assert (E' : ETL.normalize_headers reworded_charges charges_mapping
                 = Ok (mkFrame ["DOS"; "Claim No"; "Zip"; "Billed Amount"]
                               (rows reworded_charges)))
      by (vm_compute; reflexivity).
    rewrite E' in E. injection E as <-. reflexivity.
Defined.

(** Both sides of the cutoff: a header that scores exactly 85 against
    "Responsible Provider" is renamed, one that scores 80 is kept. *)
Example cutoff_boundary :
  extractOne token_sort_ratio "Provider Responsixxx" (map fst charges_mapping)
  = Some ("Responsible Provider", 3400 # 40) /\
  ETL.new_name charges_mapping "Provider Responsixxx" = Ok "Provider Name" /\
  extractOne token_sort_ratio "Provider Responsxxxx" (map fst charges_mapping)
  = Some ("Responsible Provider", 3200 # 40) /\
  ETL.new_name charges_mapping "Provider Responsxxxx" = Ok "Provider Responsxxxx".
Proof. repeat split; vm_compute; reflexivity. Qed.






(** ** Reading and writing columns *)

Lemma getitem_spec df name s :
  getitem df name = Ok s ->
  exists j, positions name (columns df) = [j] /\ s = column_at j df.
Proof.
  unfold getitem. destruct (positions name (columns df)) as [|j [|]]; try done.
  intros [= <-]. eauto.
Qed.

Lemma getitem_length df name s : getitem df name = Ok s -> length s = nrows df.
Proof.
  intros (j & _ & ->)%getitem_spec. unfold column_at, nrows. by rewrite length_map.
Qed.

Lemma has_column_true df name : has_column df name = true <-> name ∈ columns df.
Proof. unfold has_column. apply bool_decide_eq_true. Qed.

Lemma at_pos_relabel (name : string) (v : cell) (cols : list string) (r : list cell) j c :
  length r = length cols -> cols !! j = Some c ->
  at_pos j (zip_with (fun c x => if decide (c = name) then v else x) cols r)
  = if decide (c = name) then v else at_pos j r.
Proof.
  intros Hlen Hc. unfold at_pos. rewrite lookup_zip_with, Hc. simpl.
  destruct (r !! j) as [x|] eqn:Hr; simpl; [done|].
  apply lookup_ge_None in Hr. apply lookup_lt_Some in Hc. lia.
Qed.

Lemma setitem_extends df name values :
  wf df -> length values = nrows df ->
  extends [name] df (setitem df name values) /\
  name ∈ columns (setitem df name values) /\
  (forall j, columns (setitem df name values) !! j = Some name ->
     column_at j (setitem df name values) = values).
Proof.
  intros Hwf Hlen. unfold setitem, extends, column_at, nrows, wf in *.
  destruct (has_column df name) eqn:Hhas; simpl.
  - apply has_column_true in Hhas.
    assert (Hcell : forall j c, columns df !! j = Some c ->
              map (at_pos j)
                  (zip_with (fun r v =>
                     zip_with (fun c x => if decide (c = name) then v else x) (columns df) r)
                     (rows df) values)
              = if decide (c = name) then values else map (at_pos j) (rows df)).
    { intros j c Hc. revert values Hlen Hwf.
      induction (rows df) as [|r rs IH]; intros values Hlen Hwf.
      - destruct values; [|done]. by destruct (decide (c = name)).
      - destruct values as [|v vs]; [done|]. apply Forall_cons in Hwf as [Hr Hrs].
        simpl. rewrite (at_pos_relabel name v _ _ j c Hr Hc).
        rewrite (IH vs) by (simpl in Hlen; first [lia|done]).
        by destruct (decide (c = name)). }
    repeat split; try done.
    + clear Hcell. revert values Hlen.
      induction Hwf as [|r rs Hr Hrs IH]; intros [|v vs] Hlen; simpl; try done.
      constructor; [|apply IH; simpl in Hlen; lia].
      rewrite length_zip_with. lia.
    + rewrite length_zip_with. lia.
    + intros j c Hc Hnot. rewrite (Hcell j c Hc).
      destruct (decide (c = name)) as [->|]; [|done].
      exfalso. apply Hnot. by left.
    + intros j Hj. rewrite (Hcell j name Hj). by rewrite decide_True.
  - assert (Hnot : name ∉ columns df).
    { intros Hin%has_column_true. congruence. }
    assert (Hold : forall j, (j < length (columns df))%nat ->
              map (at_pos j) (zip_with (fun r v => r ++ [v]) (rows df) values)
              = map (at_pos j) (rows df)).
    { intros j Hj. revert values Hlen Hwf.
      induction (rows df) as [|r rs IH]; intros values Hlen Hwf.
      - by destruct values.
      - destruct values as [|v vs]; [done|]. apply Forall_cons in Hwf as [Hr Hrs].
        simpl. rewrite (IH vs) by (simpl in Hlen; first [lia|done]). f_equal.
        unfold at_pos. rewrite lookup_app_l by lia. done. }
    assert (Hnew : map (at_pos (length (columns df)))
                       (zip_with (fun r v => r ++ [v]) (rows df) values) = values).
    { clear Hold. revert values Hlen Hwf.
      induction (rows df) as [|r rs IH]; intros values Hlen Hwf.
      - by destruct values.
      - destruct values as [|v vs]; [done|]. apply Forall_cons in Hwf as [Hr Hrs].
        simpl. rewrite (IH vs) by (simpl in Hlen; first [lia|done]). f_equal.
        unfold at_pos. rewrite lookup_app_r by lia.
        by replace (length (columns df) - length r)%nat with 0%nat by lia. }
    repeat split.
    + clear Hold Hnew. revert values Hlen.
      induction Hwf as [|r rs Hr Hrs IH]; intros [|v vs] Hlen; simpl; try done.
      constructor; [|apply IH; simpl in Hlen; lia].
      rewrite !length_app. simpl. lia.
    + rewrite length_zip_with. lia.
    + intros j c Hc. by apply lookup_app_l_Some.
    + intros j c Hc Hn. apply lookup_app_Some in Hc as [Hc|[_ Hc]]; [done|].
      apply list_lookup_singleton_Some in Hc as [_ <-].
      exfalso. apply Hn. by left.
    + intros j c Hc _. apply Hold. by eapply lookup_lt_Some.
    + apply elem_of_app. right. by left.
    + intros j Hj. apply lookup_app_Some in Hj as [Hj|[Hge Hj]].
      * exfalso. apply Hnot. by eapply list_elem_of_lookup_2.
      * apply list_lookup_singleton_Some in Hj as [Hj _].
        replace j with (length (columns df)) by lia. apply Hnew.
Qed.

Lemma extends_refl labels df : wf df -> extends labels df df.
Proof. intros Hwf. by repeat split. Qed.

Lemma extends_trans l1 l2 df1 df2 df3 :
  extends l1 df1 df2 -> extends l2 df2 df3 -> extends (l1 ++ l2) df1 df3.
Proof.
  intros (Hwf2 & Hn2 & Hk2 & Hb2 & Hc2) (Hwf3 & Hn3 & Hk3 & Hb3 & Hc3).
  repeat split.
  - done.
  - congruence.
  - intros j c Hc. by apply Hk3, Hk2.
  - intros j c Hc Hn. apply not_elem_of_app in Hn as [Hn1 Hn2'].
    apply (Hb2 j c); [|done]. by apply (Hb3 j c).
  - intros j c Hc Hn. apply not_elem_of_app in Hn as [Hn1 Hn2'].
    rewrite (Hc3 j c (Hk2 j c Hc) Hn2'). by apply (Hc2 j c).
Qed.

Lemma extends_weaken l1 l2 df df' :
  (forall c, c ∈ l1 -> c ∈ l2) -> extends l1 df df' -> extends l2 df df'.
Proof.
  intros Hsub (Hwf & Hn & Hk & Hb & Hc). repeat split; try done.
  - intros j c Hj Hn2. apply (Hb j c Hj). intros ?. by apply Hn2, Hsub.
  - intros j c Hj Hn2. apply (Hc j c Hj). intros ?. by apply Hn2, Hsub.
Qed.

(** ** The KPI steps *)

Section KPI.
Context `{Conversions}.

Lemma series_div_nonzero a b :
  Forall nonzero b -> series_div a b = Ok (zip_with quotient a b).
Proof.
  intros Hb. revert a. induction Hb as [|y b Hy Hb IH]; intros [|x a]; simpl; try done.
  rewrite IH. unfold float_div, quotient.
  destruct x as [p|], y as [q|]; simpl; try done.
  by rewrite (Hy q eq_refl).
Qed.

Lemma replace_zero_na_nonzero (xs : list float) : Forall nonzero (map replace_zero_na xs).
Proof.
  apply Forall_forall. intros y (x & -> & _)%list_elem_of_fmap b Hb.
  destruct x as [q|]; simpl in Hb; [|done].
  destruct (Qeq_bool q 0) eqn:E; [done|]. by injection Hb as <-.
Qed.

Lemma percent_of_spec paid denominator :
  Forall nonzero denominator ->
  ETL.percent_of paid denominator
  = Ok (map (fun x => num_cell (float_round 2 (fillna 0 (float_mul x 100))))
            (zip_with quotient paid denominator)).
Proof. intros Hd. unfold ETL.percent_of. by rewrite series_div_nonzero. Qed.

Lemma amount_spec df col s :
  ETL.amount df col = Ok s ->
  exists j, positions col (columns df) = [j] /\
            s = map (fun c => Some (amount_of c)) (column_at j df).
Proof.
  unfold ETL.amount. destruct (getitem df col) as [cells|] eqn:E; simpl; [|done].
  intros [= <-]. apply getitem_spec in E as (j & Hj & ->).
  exists j. split; [done|]. apply map_ext. intros c. unfold amount_of.
  by destruct (to_numeric c).
Qed.


Lemma position_unique df name j j' :
  positions name (columns df) = [j] -> columns df !! j' = Some name -> j' = j.
Proof. intros E Hj'. by apply (positions_singleton _ _ _ E). Qed.

Lemma coerce_amount_spec df col df' :
  wf df -> ETL.coerce_amount df col = Ok df' ->
  extends [col] df df' /\
  (forall j, columns df !! j = Some col ->
     column_at j df' = map (fun c => CNum (amount_of c)) (column_at j df)).
Proof.
  intros Hwf. unfold ETL.coerce_amount.
  destruct (has_column df col) eqn:Hhas.
  - destruct (ETL.amount df col) as [s|] eqn:E; simpl; [|done].
    intros [= <-]. apply amount_spec in E as (j0 & Hj0 & ->).
    destruct (setitem_extends df col
                (map num_cell (map (fun c => Some (amount_of c)) (column_at j0 df))) Hwf)
      as (Hext & _ & Hval).
    { unfold column_at, nrows. by rewrite !length_map. }
    split; [done|]. intros j Hj.
    rewrite Hval by (destruct Hext as (_ & _ & Hk & _); by apply Hk).
    rewrite (position_unique df col j0 j Hj0 Hj), map_map. done.
  - intros [= <-]. split; [by apply extends_refl|].
    intros j Hj. exfalso.
    assert (Hin : col ∈ columns df) by (by eapply list_elem_of_lookup_2).
    apply has_column_true in Hin. congruence.
Qed.

Lemma date_diff_days_length a b d :
  date_diff_days a b = Ok d -> length d = Nat.min (length a) (length b).
Proof.
  unfold date_diff_days. destruct (_ && _); [|done].
  intros [= <-]. apply length_zip_with.
Qed.

Lemma kpi_charge_lag_extends df df' :
  wf df -> ETL.kpi_charge_lag df = Ok df' -> extends ["Charge Lag (days)"] df df'.
Proof.
  intros Hwf. unfold ETL.kpi_charge_lag.
  destruct (_ && _); [|intros [= <-]; by apply extends_refl].
  destruct (getitem df "Charge Entry Date") as [a|] eqn:Ea; simpl; [|done].
  destruct (getitem df "DOS") as [b|] eqn:Eb; simpl; [|done].
  destruct (date_diff_days a b) as [d|] eqn:Ed; simpl; [|done].
  intros [= <-]. apply setitem_extends; [done|].
  rewrite (date_diff_days_length _ _ _ Ed).
  rewrite (getitem_length _ _ _ Ea), (getitem_length _ _ _ Eb). lia.
Qed.

Lemma kpi_billing_lag_extends df df' :
  wf df -> ETL.kpi_billing_lag df = Ok df' -> extends ["Billing Lag (days)"] df df'.
Proof.
  intros Hwf. unfold ETL.kpi_billing_lag.
  destruct (_ && _); [|intros [= <-]; by apply extends_refl].
  destruct (getitem df "Payment Entry Date") as [a|] eqn:Ea; simpl; [|done].
  destruct (getitem df "Charge Entry Date") as [b|] eqn:Eb; simpl; [|done].
  destruct (date_diff_days a b) as [d|] eqn:Ed; simpl; [|done].
  intros [= <-]. apply setitem_extends; [done|].
  rewrite (date_diff_days_length _ _ _ Ed).
  rewrite (getitem_length _ _ _ Ea), (getitem_length _ _ _ Eb). lia.
Qed.

Lemma percent_of_length paid denominator cells :
  ETL.percent_of paid denominator = Ok cells ->
  Forall nonzero denominator ->
  length cells = Nat.min (length paid) (length denominator).
Proof.
  intros E Hd. rewrite percent_of_spec in E by done. injection E as <-.
  by rewrite length_map, length_zip_with.
Qed.

Lemma amount_length df col s : ETL.amount df col = Ok s -> length s = nrows df.
Proof.
  intros (j & _ & ->)%amount_spec. unfold column_at, nrows. by rewrite !length_map.
Qed.

(** The GCR cell of a row, from its two amounts. *)
Lemma gcr_cell paid billed :
  num_cell (float_round 2 (fillna 0
    (float_mul (quotient (Some paid) (replace_zero_na (Some billed))) 100)))
  = CNum (if Qeq_bool billed 0 then 0 else round_to 2 (paid / billed * 100)).
Proof.
  simpl. destruct (Qeq_bool billed 0); reflexivity.
Qed.


Lemma kpi_gcr_extends df df' :
  wf df -> ETL.kpi_gcr df = Ok df' -> extends ["GCR (%)"] df df'.
Proof.
  intros Hwf. unfold ETL.kpi_gcr.
  destruct (_ && _); [|intros [= <-]; by apply extends_refl].
  destruct (ETL.amount df "Billed Amount") as [billed|] eqn:Eb; simpl; [|done].
  destruct (ETL.amount df "Paid Amount") as [paid|] eqn:Ep; simpl; [|done].
  destruct (ETL.percent_of _ _) as [gcr|] eqn:Eg; simpl; [|done].
  intros [= <-]. apply setitem_extends; [done|].
  rewrite (percent_of_length _ _ _ Eg) by apply replace_zero_na_nonzero.
  rewrite length_map, (amount_length _ _ _ Eb), (amount_length _ _ _ Ep). lia.
Qed.

Lemma kpi_ncr_extends df df' :
  wf df -> ETL.kpi_ncr df = Ok df' -> extends ["NCR (%)"; "CCR (%)"] df df'.
Proof.
  intros Hwf. unfold ETL.kpi_ncr.
  destruct (_ && _); [|intros [= <-]; by apply extends_refl].
  destruct (ETL.amount df "Billed Amount") as [billed|] eqn:Eb; simpl; [|done].
  destruct (ETL.amount df "Adjustment Amount") as [adj|] eqn:Ea; simpl; [|done].
  destruct (ETL.amount df "Paid Amount") as [paid|] eqn:Ep; simpl; [|done].
  destruct (ETL.percent_of _ _) as [ncr|] eqn:En; simpl; [|done].
  intros [= <-].
  assert (Hlen : length ncr = nrows df).
  { rewrite (percent_of_length _ _ _ En) by apply replace_zero_na_nonzero.
    rewrite length_map, length_zip_with.
    rewrite (amount_length _ _ _ Eb), (amount_length _ _ _ Ea), (amount_length _ _ _ Ep).
    lia. }
  destruct (setitem_extends df "NCR (%)" ncr Hwf Hlen) as (Hext1 & _).
  apply (extends_trans ["NCR (%)"] ["CCR (%)"] _ _ _ Hext1).
  apply setitem_extends; [by destruct Hext1|].
  destruct Hext1 as (_ & -> & _). done.
Qed.

Lemma avg_nonzero (s : Q) : Qeq_bool s 0 = false -> Qeq_bool (s / 30) 0 = false.
Proof.
  intros Hs. apply not_true_is_false. intros Ha%Qeq_bool_iff.
  apply not_true_iff_false in Hs. apply Hs, Qeq_bool_iff.
  unfold Qdiv in Ha. apply Qmult_integral in Ha as [Ha|Ha]; [done|].
  discriminate Ha.
Qed.

Lemma replicate_nonzero n avg : Qeq_bool avg 0 = false -> Forall nonzero (replicate n (Some avg)).
Proof.
  intros Ha. apply Forall_replicate. intros b [= <-]. done.
Qed.

Lemma kpi_ar_days_extends df df' :
  wf df -> ETL.kpi_ar_days df = Ok df' -> extends ["AR Days"] df df'.
Proof.
  intros Hwf. unfold ETL.kpi_ar_days.
  destruct (_ && _); [|intros [= <-]; by apply extends_refl].
  destruct (getitem df "Billed Amount") as [billed|] eqn:Eb; simpl; [|done].
  destruct (Qeq_bool (series_sum (map as_float billed)) 0) eqn:Hs.
  { intros [= <-]. apply setitem_extends; [done|by rewrite length_replicate]. }
  rewrite (avg_nonzero _ Hs).
  destruct (getitem df "AR Balance") as [balance|] eqn:Ea; simpl; [|done].
  rewrite series_div_nonzero by (by apply replicate_nonzero, avg_nonzero).
  simpl. intros [= <-]. apply setitem_extends; [done|].
  rewrite length_map, length_zip_with, length_map, length_replicate.
  rewrite (getitem_length _ _ _ Ea). lia.
Qed.


Lemma kpi_aged_90_extends df df' :
  wf df -> ETL.kpi_aged_90 df = Ok df' -> extends ["90+ AR Days (%)"] df df'.
Proof.
  intros Hwf. unfold ETL.kpi_aged_90.
  destruct (_ && _); [|intros [= <-]; by apply extends_refl].
  destruct (getitem df "Aging Range") as [a|] eqn:Ea; simpl; [|done].
  destruct (getitem df "AR Balance") as [b|] eqn:Eb; simpl; [|done].
  intros [= <-]. apply setitem_extends; [done|].
  rewrite length_zip_with, (getitem_length _ _ _ Ea), (getitem_length _ _ _ Eb). lia.
Qed.

Lemma kpi_denial_rate_extends df df' :
  wf df -> ETL.kpi_denial_rate df = Ok df' -> extends ["Denial Rate (%)"] df df'.
Proof.
  intros Hwf. unfold ETL.kpi_denial_rate.
  destruct (has_column _ _); [|intros [= <-]; by apply extends_refl].
  destruct (getitem df "Financial Status") as [a|] eqn:Ea; simpl; [|done].
  destruct (nrows df) eqn:En; intros [= <-]; unfold setitem_scalar;
    (apply setitem_extends; [done|]); rewrite length_replicate; done.
Qed.

(** The coercion loop: the four amount columns become numbers. *)
Lemma coerce_loop_spec df df' :
  wf df ->
  for_each ETL.coerce_amount
    ["Paid Amount"; "Billed Amount"; "Adjustment Amount"; "AR Balance"] df = Ok df' ->
  extends ["Paid Amount"; "Billed Amount"; "Adjustment Amount"; "AR Balance"] df df' /\
  (forall j c, columns df !! j = Some c ->
     c ∈ ["Paid Amount"; "Billed Amount"; "Adjustment Amount"; "AR Balance"] ->
     column_at j df' = map (fun c => CNum (amount_of c)) (column_at j df)).
Proof.
  intros Hwf. simpl.
  destruct (ETL.coerce_amount df "Paid Amount") as [d1|] eqn:E1; simpl; [|done].
  destruct (coerce_amount_spec _ _ _ Hwf E1) as (X1 & V1).
  destruct (ETL.coerce_amount d1 "Billed Amount") as [d2|] eqn:E2; simpl; [|done].
  destruct (coerce_amount_spec _ _ _ (proj1 X1) E2) as (X2 & V2).
  destruct (ETL.coerce_amount d2 "Adjustment Amount") as [d3|] eqn:E3; simpl; [|done].
  destruct (coerce_amount_spec _ _ _ (proj1 X2) E3) as (X3 & V3).
  destruct (ETL.coerce_amount d3 "AR Balance") as [d4|] eqn:E4; simpl; [|done].
  destruct (coerce_amount_spec _ _ _ (proj1 X3) E4) as (X4 & V4).
  intros [= <-]. split.
  - apply (extends_trans ["Paid Amount"] _ _ _ _ X1).
    apply (extends_trans ["Billed Amount"] _ _ _ _ X2).
    apply (extends_trans ["Adjustment Amount"] ["AR Balance"] _ _ _ X3 X4).
  - intros j c Hc Hin.
    destruct X1 as (_ & _ & K1 & _ & C1), X2 as (_ & _ & K2 & _ & C2),
             X3 as (_ & _ & K3 & _ & C3), X4 as (_ & _ & K4 & _ & C4).
    pose proof (K1 _ _ Hc) as Hc1. pose proof (K2 _ _ Hc1) as Hc2.
    pose proof (K3 _ _ Hc2) as Hc3.
    repeat (apply elem_of_cons in Hin as [->|Hin]); [| | | |by apply elem_of_nil in Hin].
    + rewrite (C4 j _ Hc3), (C3 j _ Hc2), (C2 j _ Hc1) by (by intros ?%list_elem_of_singleton).
      by apply V1.
    + rewrite (C4 j _ Hc3), (C3 j _ Hc2) by (by intros ?%list_elem_of_singleton).
      rewrite (V2 j Hc1), (C1 j _ Hc) by (by intros ?%list_elem_of_singleton). done.
    + rewrite (C4 j _ Hc3) by (by intros ?%list_elem_of_singleton).
      rewrite (V3 j Hc2), (C2 j _ Hc1), (C1 j _ Hc) by (by intros ?%list_elem_of_singleton).
      done.
    + rewrite (V4 j Hc3), (C3 j _ Hc2), (C2 j _ Hc1), (C1 j _ Hc)
        by (by intros ?%list_elem_of_singleton).
      done.
Qed.

Lemma calculate_kpis_chain df df' :
  ETL.calculate_kpis df = Ok df' ->
  exists d1 d2 d3 d4 d5 d6 d7,
    for_each ETL.coerce_amount
      ["Paid Amount"; "Billed Amount"; "Adjustment Amount"; "AR Balance"] df = Ok d1 /\
    ETL.kpi_charge_lag d1 = Ok d2 /\ ETL.kpi_billing_lag d2 = Ok d3 /\
    ETL.kpi_gcr d3 = Ok d4 /\ ETL.kpi_ncr d4 = Ok d5 /\ ETL.kpi_ar_days d5 = Ok d6 /\
    ETL.kpi_aged_90 d6 = Ok d7 /\ ETL.kpi_denial_rate d7 = Ok df'.
Proof.
  unfold ETL.calculate_kpis.
  destruct (for_each _ _ df) as [d1|] eqn:E1; simpl; [|done].
  destruct (ETL.kpi_charge_lag d1) as [d2|] eqn:E2; simpl; [|done].
  destruct (ETL.kpi_billing_lag d2) as [d3|] eqn:E3; simpl; [|done].
  destruct (ETL.kpi_gcr d3) as [d4|] eqn:E4; simpl; [|done].
  destruct (ETL.kpi_ncr d4) as [d5|] eqn:E5; simpl; [|done].
  destruct (ETL.kpi_ar_days d5) as [d6|] eqn:E6; simpl; [|done].
  destruct (ETL.kpi_aged_90 d6) as [d7|] eqn:E7; simpl; [|done].
  intros E. exists d1, d2, d3, d4, d5, d6, d7. repeat split; done.
Qed.















End KPI.




(** ** Archiving *)

Lemma assoc_hold_less name dir f :
  assoc name dir = Some f ->
  assoc name (hold_less name dir) = Some (mkFile (content f) (pred (held_open f))).
Proof.
  induction dir as [|[n g] rest IH]; simpl; [done|].
  destruct (decide (n = name)) as [->|Hne]; simpl.
  - intros [= ->]. by rewrite decide_True.
  - intros E. rewrite decide_False by done. by apply IH.
Qed.

(** The archive loop of final_2.py: a file held open for [k] more moves
    is tried [k + 1] times, at most as often as there are attempts, with a
    one-second sleep after every failed try; the loop never raises, and it
    reports whether the file was moved. *)
Lemma archive_attempts_spec attempts file w f :
  assoc file (input_dir w) = Some f ->
  exists w',
    Final2.archive_attempts attempts file w
    = (w', Ok (bool_decide (held_open f < length attempts)%nat)) /\
    moves_tried w' = (moves_tried w + Nat.min (S (held_open f)) (length attempts))%nat /\
    backoffs w' = (backoffs w + Nat.min (held_open f) (length attempts))%nat /\
    database w' = database w /\ output_dir w' = output_dir w.
Proof.
  revert w f. induction attempts as [|a rest IH]; intros w f Hf; simpl.
  - eexists. split; [reflexivity|]. unfold moves_tried, backoffs. simpl.
    rewrite !List.filter_app, !length_app. simpl. repeat split; lia.
  - unfold shutil_move. simpl. rewrite Hf.
    destruct (held_open f) as [|k] eqn:Hk.
    + eexists. split; [reflexivity|]. unfold moves_tried, backoffs. simpl.
      rewrite !List.filter_app, !length_app. simpl. repeat split; lia.
    + match goal with |- context [Final2.archive_attempts rest file ?w1] =>
        destruct (IH w1 (mkFile (content f) (pred (held_open f)))) as (w' & E & Hm & Hb & Hd & Ho)
      end.
      { simpl. by apply assoc_hold_less. }
      rewrite Hk in E, Hm, Hb. simpl in E, Hm, Hb.
      exists w'. rewrite E. split.
      * do 2 f_equal. apply bool_decide_ext. lia.
      * rewrite Hm, Hb, Hd, Ho. unfold moves_tried, backoffs. simpl.
        rewrite !List.filter_app, !length_app. simpl. repeat split; lia.
Qed.

(** In final_2.py a file that cannot be moved is still counted. *)
Lemma archive_and_count_counts file w f n :
  assoc file (input_dir w) = Some f ->
  snd (Final2.archive_and_count file w n) = S n.
Proof.
  intros Hf. unfold Final2.archive_and_count, Final2.archive.
  destruct (archive_attempts_spec (seq 0 3) file w f Hf) as (w' & -> & _). done.
Qed.

(** C2 on ETL.py: a workbook still held open when its move is tried. The
    frame is written to the CSV export and to the run's table, the move is
    tried once after a sleep of 0.2 s, its [PermissionError] ends
    [process_single_file] as a failure, and the batch counts no file. The
    archive loop of final_2.py, on the same file, tries three times with
    three sleeps of one second and still counts the file. *)
Theorem held_open_file_fails `{Conversions} :
  (exists w' merged,
     ETL.process_single_file "january.xlsx" "20250801_090000" held_world
     = (w', ETL.Failure PermissionError) /\
     ETL.transform january_workbook = Ok merged /\
     database w' !! ETL.table_name "20250801_090000" = Some merged /\
     output_dir w' !! "january_with_kpis.csv" = Some merged /\
     events w' = [Slept 200; MoveTried "january.xlsx"]) /\
  snd (ETL.process_files "20250801_090000" held_world) = 0%nat /\
  (exists w', Final2.archive "january.xlsx" held_world = (w', Ok false) /\
              moves_tried w' = 3%nat /\ backoffs w' = 3%nat) /\
  snd (Final2.archive_and_count "january.xlsx" held_world 0) = 1%nat.
Proof.
  split; [|split; [|split]].
  - eexists _, _. split; [vm_compute; reflexivity|].
    split; [vm_compute; reflexivity|]. repeat split; vm_compute; reflexivity.
  - vm_compute. reflexivity.
  - eexists. split; [vm_compute; reflexivity|]. split; reflexivity.
  - vm_compute. reflexivity.
Qed.

(** ** The batch *)

Section Batch.
Context `{Conversions}.

Lemma assoc_remove_file name other dir :
  name <> other -> assoc name (remove_file other dir) = assoc name dir.
Proof.
  intros Hne. induction dir as [|[n g] rest IH]; simpl; [done|].
  destruct (decide (n = other)) as [->|Hno].
  - rewrite bool_decide_eq_true_2 by done. simpl.
    rewrite decide_False by done. exact IH.
  - rewrite bool_decide_eq_false_2 by done. simpl. by rewrite IH.
Qed.








End Batch.



(** * Further properties of the code *)

(** ** final_2.py: sheet lookup and archive loop *)

(** [find_sheet] answers [None] exactly when no sheet name contains the
    keyword, both lower-cased; otherwise it answers the first such sheet
    of the list. *)
Theorem find_sheet_first_or_none sheets keyword :
  (Final2.find_sheet sheets keyword = None <->
   Forall (fun s => contains (lower keyword) (lower s) = false) sheets) /\
  (forall sheet,
     Final2.find_sheet sheets keyword = Some sheet <->
     exists before after,
       sheets = before ++ sheet :: after /\
       contains (lower keyword) (lower sheet) = true /\
       Forall (fun s => contains (lower keyword) (lower s) = false) before).
Proof.
  split; [|intros sheet; apply find_sheet_first].
  induction sheets as [|s rest IH]; simpl; [by split|].
  destruct (contains (lower keyword) (lower s)) eqn:Hs.
  - split; [done|]. intros [Hbad _]%Forall_cons. congruence.
  - rewrite IH. split; [by constructor|]. by intros [_ ?]%Forall_cons.
Qed.

Lemma assoc_remove_same name dir : assoc name (remove_file name dir) = None.
Proof.
  induction dir as [|[n g] rest IH]; simpl; [done|].
  destruct (decide (n = name)) as [->|Hne].
  - by rewrite bool_decide_eq_true_2.
  - rewrite bool_decide_eq_false_2 by done. simpl. by rewrite decide_False.
Qed.

(** Where the archive loop leaves the file. *)
Lemma archive_attempts_place attempts file w f :
  assoc file (input_dir w) = Some f ->
  exists w',
    fst (Final2.archive_attempts attempts file w) = w' /\
    if bool_decide (held_open f < length attempts)%nat
    then assoc file (input_dir w') = None /\
         archive_dir w' !! file = Some (mkFile (content f) 0)
    else assoc file (input_dir w')
         = Some (mkFile (content f) (held_open f - length attempts)) /\
         archive_dir w' = archive_dir w.
Proof.
  revert w f. induction attempts as [|a rest IH]; intros w f Hf; simpl.
  - eexists. split; [reflexivity|]. simpl. split; [|done].
    rewrite Hf. destruct f as [c h]. simpl. by rewrite Nat.sub_0_r.
  - unfold shutil_move. simpl. rewrite Hf.
    destruct (held_open f) as [|k] eqn:Hk.
    + eexists. split; [reflexivity|]. simpl. split; [apply assoc_remove_same|].
      rewrite lookup_insert_eq. destruct f as [c h]. simpl in *. by subst.
    + match goal with |- context [Final2.archive_attempts rest file ?w1] =>
        destruct (IH w1 (mkFile (content f) (pred (held_open f)))) as (w' & E & Hplace)
      end.
      { simpl. by apply assoc_hold_less. }
      exists w'. split; [done|]. rewrite Hk in Hplace. simpl in Hplace.
      destruct (bool_decide (k < length rest)%nat) eqn:Hb.
      * apply bool_decide_eq_true in Hb. by rewrite bool_decide_eq_true_2 by lia.
      * apply bool_decide_eq_false in Hb. by rewrite bool_decide_eq_false_2 by lia.
Qed.

(** The archive loop of final_2.py on a file of the intake folder that is
    held open for [k] more moves: it never raises; it tries the move
    [min (k + 1) 3] times and sleeps one second after each failed try;
    the file ends in the archive when [k < 3] and stays in the intake
    folder otherwise; the tables and exports are untouched; and the file
    is counted as processed either way. *)
Theorem archive_retry_bounded file w f n :
  assoc file (input_dir w) = Some f ->
  exists w',
    Final2.archive file w = (w', Ok (bool_decide (held_open f < 3)%nat)) /\
    moves_tried w' = (moves_tried w + Nat.min (S (held_open f)) 3)%nat /\
    backoffs w' = (backoffs w + Nat.min (held_open f) 3)%nat /\
    database w' = database w /\ output_dir w' = output_dir w /\
    (if bool_decide (held_open f < 3)%nat
     then assoc file (input_dir w') = None /\
          archive_dir w' !! file = Some (mkFile (content f) 0)
     else assoc file (input_dir w') = Some (mkFile (content f) (held_open f - 3)) /\
          archive_dir w' = archive_dir w) /\
    snd (Final2.archive_and_count file w n) = S n.
Proof.
  intros Hf. unfold Final2.archive_and_count, Final2.archive.
  destruct (archive_attempts_spec (seq 0 3) file w f Hf) as (w' & E & Hm & Hb & Hd & Ho).
  destruct (archive_attempts_place (seq 0 3) file w f Hf) as (w'' & E' & Hplace).
  rewrite E in E' |- *. simpl in E'. subst w''.
  exists w'. repeat split; done.
Qed.

Lemma archive_retry_bounded_witness :
  exists w',
    Final2.archive "january.xlsx" held_world = (w', Ok false) /\
    moves_tried w' = 3%nat /\ backoffs w' = 3%nat /\
    assoc "january.xlsx" (input_dir w') = Some (mkFile (Some january_workbook) 2).
Proof.
  destruct (archive_retry_bounded "january.xlsx" held_world
              (mkFile (Some january_workbook) 5) 0 eq_refl)
    as (w' & E & Hm & Hb & _ & _ & Hplace & _).
  exists w'. split; [exact E|]. split; [exact Hm|]. split; [exact Hb|].
  exact (proj1 Hplace).
Defined.

(** A file that is no longer in the intake folder when the loop starts:
    the first move raises an error that is not a [PermissionError], the
    loop is left at once and the file is not counted. *)
Theorem archive_missing_file file w n :
  assoc file (input_dir w) = None ->
  snd (Final2.archive file w) = Raise OSError /\
  moves_tried (fst (Final2.archive file w)) = S (moves_tried w) /\
  backoffs (fst (Final2.archive file w)) = backoffs w /\
  snd (Final2.archive_and_count file w n) = n.
Proof.
  intros Hf. unfold Final2.archive_and_count, Final2.archive. simpl.
  unfold shutil_move. simpl. rewrite Hf. simpl.
  unfold moves_tried, backoffs. simpl.
  rewrite !List.filter_app, !length_app. simpl. repeat split; lia.
Qed.

Lemma archive_missing_file_witness :
  snd (Final2.archive "missing.xlsx" held_world) = Raise OSError.
Proof.
  exact (proj1 (archive_missing_file "missing.xlsx" held_world 0 eq_refl)).
Defined.

(** ** ETL.py: the sheet loop, the joins and the renaming, in general *)

(** The sheet loop of [process_single_file]: a role is left without a
    frame exactly when no sheet is matched to it, and otherwise it holds
    the normalised frame of the last sheet of the workbook that is matched
    to it; earlier matches are overwritten. *)
Theorem sheet_loop_last_match_wins `{Conversions} xl processed key :
  ETL.load_sheets xl = Ok processed ->
  (processed !! key = None <->
   Forall (fun s => fst <$> ETL.match_role s <> Some key) (sheet_names xl)) /\
  (forall df, processed !! key = Some df ->
     exists before sheet after mapping,
       sheet_names xl = before ++ sheet :: after /\
       ETL.match_role sheet = Some (key, mapping) /\
       Forall (fun s => fst <$> ETL.match_role s <> Some key) after /\
       (try! raw := parse xl sheet in
        try! renamed := ETL.normalize_headers raw mapping in
        ETL.parse_date_columns renamed) = Ok df).
Proof.
  intros E. split; [|intros df Hdf; by eapply sheet_loop_keeps_last].
  revert E. unfold ETL.load_sheets. generalize (sheet_names xl) as names. intros names.
  revert processed. induction names as [|s names IH] using rev_ind; intros processed E.
  - injection E as <-. by rewrite lookup_empty.
  - rewrite for_each_app in E.
    destruct (for_each _ names ∅) as [p|] eqn:Ep; simpl in E; [|done].
    rewrite Forall_app, Forall_singleton, <- (IH p eq_refl).
    destruct (ETL.match_role s) as [[k mapping]|] eqn:Hs.
    + destruct (parse xl s) as [raw|]; simpl in E; [|done].
      destruct (ETL.normalize_headers raw mapping) as [renamed|]; simpl in E; [|done].
      destruct (ETL.parse_date_columns renamed) as [d|]; simpl in E; [|done].
      injection E as <-. simpl. destruct (decide (k = key)) as [->|Hne].
      * rewrite lookup_insert_eq. split; [done|]. by intros [_ ?].
      * rewrite lookup_insert_ne by done. split; [|by intros [? _]].
        intros Hp. split; [done|]. congruence.
    + injection E as <-. simpl. split; [|by intros [? _]]. by intros Hp.
Qed.

Lemma sheet_loop_last_match_wins_witness :
  exists processed,
    @ETL.load_sheets plain_conversions two_charges_workbook = Ok processed /\
    processed !! "Charges"
    = Some (mkFrame ["Claim No"; "Billed Amount"] [[CNum 2; CNum 250]]) /\
    processed !! "Invoices" = None.
Proof.
  destruct (@ETL.load_sheets plain_conversions two_charges_workbook)
    as [processed|] eqn:E; [|vm_compute in E; discriminate E].
  exists processed. split; [reflexivity|].
  destruct (@sheet_loop_last_match_wins plain_conversions two_charges_workbook
              processed "Invoices" E) as [Hnone _].
  split; [|apply Hnone; repeat constructor; vm_compute; discriminate].
  assert (E' : @ETL.load_sheets plain_conversions two_charges_workbook
               = Ok processed) by exact E.
  vm_compute in E'. injection E' as <-. vm_compute. reflexivity.
Defined.

Lemma occurrences_take_NoDup (cols : list string) i c :
  NoDup cols -> cols !! i = Some c -> occurrences c (take i cols) = 0%nat.
Proof.
  intros Hnd Hc. unfold occurrences.
  destruct (List.filter _ (take i cols)) as [|x xs] eqn:E; [done|].
  assert (Hx : In x (List.filter (fun x => bool_decide (x = c)) (take i cols)))
    by (rewrite E; by left).
  apply List.filter_In in Hx as [Hin Hxc]. apply bool_decide_eq_true in Hxc as ->.
  apply list_elem_of_In, list_elem_of_lookup in Hin as [j Hj].
  apply lookup_take_Some in Hj as [Hj Hlt].
  pose proof (NoDup_lookup _ _ _ _ Hnd Hj Hc). lia.
Qed.

(** [make_unique_columns] in general: the list keeps its length; a name
    keeps its spelling where it occurs first and gets the suffix [_k]
    where it occurs for the [k+1]-st time; a list without repeated names
    comes back unchanged. *)
Theorem make_unique_columns_scheme (cols : list string) :
  length (ETL.make_unique_columns cols) = length cols /\
  (forall i c, cols !! i = Some c ->
     ETL.make_unique_columns cols !! i
     = Some match occurrences c (take i cols) with
            | O => c
            | S k => c +:+ "_" +:+ str_of_nat (S k)
            end) /\
  (NoDup cols -> ETL.make_unique_columns cols = cols).
Proof.
  assert (Hlen : forall seen, length (ETL.unique_from seen cols) = length cols).
  { induction cols as [|c rest IH]; intros seen; simpl; [done|].
    destruct (seen !! c); simpl; by rewrite IH. }
  split; [apply Hlen|]. split; [apply make_unique_columns_lookup|].
  intros Hnd. apply list_eq. intros i.
  destruct (cols !! i) as [c|] eqn:Hc.
  - by rewrite (make_unique_columns_lookup _ _ _ Hc), (occurrences_take_NoDup _ _ _ Hnd Hc).
  - apply lookup_ge_None. apply lookup_ge_None in Hc.
    unfold ETL.make_unique_columns. rewrite Hlen. done.
Qed.

Lemma make_unique_columns_scheme_witness :
  ETL.make_unique_columns ["dos"; "amount"; "dos"; "dos"] !! 3%nat = Some "dos_2" /\
  ETL.make_unique_columns ["dos"; "amount"] = ["dos"; "amount"].
Proof.
  destruct (make_unique_columns_scheme ["dos"; "amount"; "dos"; "dos"]) as (_ & Hat & _).
  destruct (make_unique_columns_scheme ["dos"; "amount"]) as (_ & _ & Hsame).
  split.
  - rewrite (Hat 3%nat "dos" eq_refl). reflexivity.
  - apply Hsame. apply (bool_decide_unpack _). vm_compute. exact I.
Defined.

Lemma select_length {A B : Type} (mask : list bool) (xs : list A) (ys : list B) :
  length xs = length ys -> length (select mask xs) = length (select mask ys).
Proof.
  revert xs ys. induction mask as [|m ms IH]; intros [|x xs] [|y ys] Hlen;
    simpl in *; try done.
  destruct m; simpl; [f_equal|]; apply IH; lia.
Qed.

Lemma delete_length {A B : Type} (i : nat) (xs : list A) (ys : list B) :
  length xs = length ys -> length (delete i xs) = length (delete i ys).
Proof.
  revert xs ys. induction i as [|i IH]; intros [|x xs] [|y ys] Hlen;
    simpl in *; try done; [lia|].
  f_equal. apply IH. lia.
Qed.

Lemma without_collisions_wf left_df right_df on_col :
  wf right_df -> wf (without_collisions left_df right_df on_col).
Proof.
  intros Hwf. unfold without_collisions.
  destruct (List.filter _ (columns right_df)) as [|d ds]; [done|].
  unfold wf, drop in *. simpl. apply Forall_forall.
  intros r (r0 & -> & Hr0)%list_elem_of_fmap. apply select_length.
  rewrite Forall_forall in Hwf. by apply Hwf.
Qed.

Lemma safe_merge_wf left_df right_df on_col merged :
  wf left_df -> wf right_df ->
  ETL.safe_merge left_df right_df on_col = Ok merged -> wf merged.
Proof.
  intros Hl Hr. rewrite safe_merge_unfold. unfold merge_left.
  pose proof (without_collisions_wf left_df right_df on_col Hr) as Hr'.
  set (right' := without_collisions left_df right_df on_col) in *.
  destruct (positions on_col (columns left_df)) as [|li [|]]; [done| |];
    destruct (positions on_col (columns right')) as [|ri [|]]; try done.
  intros [= <-]. unfold wf in *. simpl.
  rewrite Forall_forall in Hl, Hr'.
  apply Forall_forall. intros row Hrow.
  apply list_elem_of_In, in_concat in Hrow as (js & Hjs & Hin).
  apply in_map_iff in Hjs as (l & <- & Hlin).
  apply list_elem_of_In in Hlin. specialize (Hl l Hlin).
  unfold join_row in Hin.
  destruct (matching_rows li ri l (rows right')) as [|m ms] eqn:Em.
  - destruct Hin as [<-|[]]. rewrite !length_app, length_replicate, !length_map. lia.
  - apply in_map_iff in Hin as (r & <- & Hrin).
    assert (Hr0 : r ∈ rows right').
    { apply list_elem_of_In. rewrite <- Em in Hrin. unfold matching_rows in Hrin.
      by apply List.filter_In in Hrin as [? _]. }
    rewrite !length_app, !length_map. rewrite (delete_length ri r (columns right')); [lia|].
    by apply Hr'.
Qed.

Lemma NoDup_filter_list (f : string -> bool) (l : list string) :
  NoDup l -> NoDup (List.filter f l).
Proof.
  induction 1 as [|x l Hx Hnd IH]; simpl; [constructor|].
  destruct (f x); [|done]. constructor; [|done].
  rewrite list_elem_of_In, List.filter_In. intros [Hin _]. by apply Hx, list_elem_of_In.
Qed.

Lemma safe_merge_NoDup left_df right_df on_col merged :
  NoDup (columns left_df) -> NoDup (columns right_df) ->
  ETL.safe_merge left_df right_df on_col = Ok merged ->
  NoDup (columns merged) /\
  take (length (columns left_df)) (columns merged) = columns left_df.
Proof.
  intros Hl Hr E.
  destruct (safe_merge_spec _ _ _ _ E) as (li & ri & width & _ & _ & -> & _).
  split; [|by rewrite take_app_length].
  apply NoDup_app. split; [done|]. split; [|by apply NoDup_filter_list].
  intros c Hc. rewrite list_elem_of_In, List.filter_In. intros [_ Hn].
  by rewrite bool_decide_eq_true_2 in Hn.
Qed.

(** The three joins keep tables in shape: when every row of the four
    tables has one cell per column, so has every row of the merged table;
    when no table repeats a column name, neither does the merged table;
    and the merged table starts with the columns of Charges, in their
    order. *)
Theorem merge_claims_keeps_shape charges payment adjustment pending_ar merged :
  wf charges -> wf payment -> wf adjustment -> wf pending_ar ->
  ETL.merge_claims charges payment adjustment pending_ar = Ok merged ->
  wf merged /\
  (NoDup (columns charges) -> NoDup (columns payment) ->
   NoDup (columns adjustment) -> NoDup (columns pending_ar) ->
   NoDup (columns merged) /\
   take (length (columns charges)) (columns merged) = columns charges).
Proof.
  intros Wc Wp Wa Wr. unfold ETL.merge_claims.
  destruct (ETL.safe_merge charges payment "Claim No") as [m1|] eqn:E1; simpl; [|done].
  destruct (ETL.safe_merge m1 adjustment "Claim No") as [m2|] eqn:E2; simpl; [|done].
  intros E3.
  pose proof (safe_merge_wf _ _ _ _ Wc Wp E1) as W1.
  pose proof (safe_merge_wf _ _ _ _ W1 Wa E2) as W2.
  split; [by apply (safe_merge_wf _ _ _ _ W2 Wr E3)|].
  intros Nc Np Na Nr.
  destruct (safe_merge_NoDup _ _ _ _ Nc Np E1) as [N1 T1].
  destruct (safe_merge_NoDup _ _ _ _ N1 Na E2) as [N2 T2].
  destruct (safe_merge_NoDup _ _ _ _ N2 Nr E3) as [N3 T3].
  split; [done|].
  assert (L1 : (length (columns charges) <= length (columns m1))%nat).
  { rewrite <- T1 at 1. rewrite length_take. lia. }
  assert (L2 : (length (columns m1) <= length (columns m2))%nat).
  { rewrite <- T2 at 1. rewrite length_take. lia. }
  etransitivity; [|exact T1].
  rewrite <- T2, <- T3, !take_take. f_equal. lia.
Qed.

Lemma merge_claims_keeps_shape_witness :
  exists merged,
    ETL.merge_claims sample_charges sample_payment sample_adjustment sample_pending_ar
    = Ok merged /\
    wf merged /\ NoDup (columns merged) /\
    take 3 (columns merged) = ["Claim No"; "Billed Amount"; "insurance"].
Proof.
  destruct (ETL.merge_claims sample_charges sample_payment sample_adjustment
              sample_pending_ar) as [merged|] eqn:E; [|vm_compute in E; discriminate E].
  exists merged. split; [reflexivity|].
  destruct (merge_claims_keeps_shape sample_charges sample_payment sample_adjustment
              sample_pending_ar merged) as [Hwf Hnd];
    [repeat constructor | repeat constructor | repeat constructor | repeat constructor
    | exact E |].
  split; [exact Hwf|].
  destruct Hnd as [Hnd Htake];
    [apply (bool_decide_unpack _); vm_compute; exact I
    | apply (bool_decide_unpack _); vm_compute; exact I
    | apply (bool_decide_unpack _); vm_compute; exact I
    | apply (bool_decide_unpack _); vm_compute; exact I |].
  split; [exact Hnd|exact Htake].
Defined.

(** ** ETL.py: the other KPIs *)

Ltac label_absent :=
  let Hin := fresh "Hin" in
  intros Hin; simpl in Hin;
  repeat (apply elem_of_cons in Hin as [Hin|Hin]; [discriminate Hin|]);
  by apply elem_of_nil in Hin.

Ltac label_present := solve [repeat first [by left | right]].

Section MoreKPI.
Context `{Conversions}.

(** Every intermediate table of [calculate_kpis], with what each step may
    have touched. *)
Lemma calculate_kpis_steps df df' :
  wf df -> ETL.calculate_kpis df = Ok df' ->
  exists d1 d2 d3 d4 d5 d6 d7,
    (ETL.kpi_charge_lag d1 = Ok d2 /\ ETL.kpi_billing_lag d2 = Ok d3 /\
     ETL.kpi_ncr d4 = Ok d5 /\ ETL.kpi_aged_90 d6 = Ok d7 /\
     ETL.kpi_denial_rate d7 = Ok df') /\
    (extends ["Paid Amount"; "Billed Amount"; "Adjustment Amount"; "AR Balance"] df d1 /\
     (forall j c, columns df !! j = Some c ->
        c ∈ ["Paid Amount"; "Billed Amount"; "Adjustment Amount"; "AR Balance"] ->
        column_at j d1 = map (fun c => CNum (amount_of c)) (column_at j df))) /\
    extends ["Charge Lag (days)"] d1 d2 /\ extends ["Billing Lag (days)"] d2 d3 /\
    extends ["GCR (%)"] d3 d4 /\ extends ["NCR (%)"; "CCR (%)"] d4 d5 /\
    extends ["AR Days"] d5 d6 /\ extends ["90+ AR Days (%)"] d6 d7 /\
    extends ["Denial Rate (%)"] d7 df'.
Proof.
  intros Hwf (d1 & d2 & d3 & d4 & d5 & d6 & d7 & E1 & E2 & E3 & E4 & E5 & E6 & E7 & E8)
    %calculate_kpis_chain.
  destruct (coerce_loop_spec _ _ Hwf E1) as (X1 & V1).
  pose proof (kpi_charge_lag_extends _ _ (proj1 X1) E2) as X2.
  pose proof (kpi_billing_lag_extends _ _ (proj1 X2) E3) as X3.
  pose proof (kpi_gcr_extends _ _ (proj1 X3) E4) as X4.
  pose proof (kpi_ncr_extends _ _ (proj1 X4) E5) as X5.
  pose proof (kpi_ar_days_extends _ _ (proj1 X5) E6) as X6.
  pose proof (kpi_aged_90_extends _ _ (proj1 X6) E7) as X7.
  pose proof (kpi_denial_rate_extends _ _ (proj1 X7) E8) as X8.
  exists d1, d2, d3, d4, d5, d6, d7.
  split; [by repeat (split; [done|])|]. split; [by split|].
  by repeat (split; [assumption|]).
Qed.


(** [calculate_kpis] only writes to its own columns: the table keeps its
    rows and every column its place and name; a column under another
    label than the four amounts and the KPI names keeps its cells; every
    new column carries a KPI name; and an amount column holds numbers
    afterwards, 0 where the cell was null or no number. *)
Theorem calculate_kpis_writes_kpi_columns_only df df' :
  wf df -> ETL.calculate_kpis df = Ok df' ->
  extends kpi_labels df df' /\
  (forall j c, columns df !! j = Some c ->
     c ∈ ["Paid Amount"; "Billed Amount"; "Adjustment Amount"; "AR Balance"] ->
     column_at j df' = map (fun c => CNum (amount_of c)) (column_at j df)).
Proof.
  intros Hwf E.
  destruct (calculate_kpis_steps _ _ Hwf E)
    as (d1 & d2 & d3 & d4 & d5 & d6 & d7 & _ & (X1 & V1) & X2 & X3 & X4 & X5 & X6 & X7 & X8).
  pose proof (extends_trans _ _ _ _ _ X7 X8) as X78.
  pose proof (extends_trans _ _ _ _ _ X6 X78) as X68.
  pose proof (extends_trans _ _ _ _ _ X5 X68) as X58.
  pose proof (extends_trans _ _ _ _ _ X4 X58) as X48.
  pose proof (extends_trans _ _ _ _ _ X3 X48) as X38.
  pose proof (extends_trans _ _ _ _ _ X2 X38) as X28.
  split; [exact (extends_trans _ _ _ _ _ X1 X28)|].
  intros j c Hc Hin. rewrite <- (V1 j c Hc Hin).
  destruct X1 as (_ & _ & K1 & _), X28 as (_ & _ & _ & _ & C28).
  apply (C28 j c (K1 j c Hc)). clear -Hin. intros Hbad.
  repeat (apply elem_of_cons in Hin as [->|Hin]); try (by apply elem_of_nil in Hin);
    revert Hbad; label_absent.
Qed.





Lemma kpi_charge_lag_spec df df' jE jD :
  wf df -> ETL.kpi_charge_lag df = Ok df' ->
  columns df !! jE = Some "Charge Entry Date" -> columns df !! jD = Some "DOS" ->
  is_datetime_like (column_at jE df) = true /\
  is_datetime_like (column_at jD df) = true /\
  "Charge Lag (days)" ∈ columns df' /\
  forall j, columns df' !! j = Some "Charge Lag (days)" ->
    column_at j df' = zip_with days_between (column_at jE df) (column_at jD df).
Proof.
  intros Hwf E HE HD. unfold ETL.kpi_charge_lag in E.
  rewrite (proj2 (has_column_true df "DOS")) in E by (by eapply list_elem_of_lookup_2).
  rewrite (proj2 (has_column_true df "Charge Entry Date")) in E
    by (by eapply list_elem_of_lookup_2).
  simpl in E.
  destruct (getitem df "Charge Entry Date") as [entry|] eqn:Ee; simpl in E; [|done].
  destruct (getitem df "DOS") as [dos|] eqn:Ed; simpl in E; [|done].
  apply getitem_spec in Ee as (je & Hje & ->). apply getitem_spec in Ed as (jd & Hjd & ->).
  pose proof (position_unique df _ je jE Hje HE) as <-.
  pose proof (position_unique df _ jd jD Hjd HD) as <-.
  unfold date_diff_days in E.
  destruct (is_datetime_like (column_at jE df)) eqn:H1; simpl in E; [|done].
  destruct (is_datetime_like (column_at jD df)) eqn:H2; simpl in E; [|done].
  injection E as <-. split; [done|]. split; [done|].
  match goal with |- _ ∈ columns (setitem _ _ ?v) /\ _ =>
    destruct (setitem_extends df "Charge Lag (days)" v Hwf) as (_ & Hin & Hval) end.
  { unfold column_at, nrows. rewrite length_zip_with, !length_map. lia. }
  done.
Qed.

(** The charge lag: when the KPIs are computed for a table with a Charge
    Entry Date and a DOS column, both columns hold timestamps and nulls
    only, and the lag of a row is the number of whole days (rounded down)
    from DOS to Charge Entry Date, null when either is null. *)
Theorem charge_lag_in_whole_days df df' jE jD :
  wf df ->
  columns df !! jE = Some "Charge Entry Date" -> columns df !! jD = Some "DOS" ->
  ETL.calculate_kpis df = Ok df' ->
  is_datetime_like (column_at jE df) = true /\
  is_datetime_like (column_at jD df) = true /\
  "Charge Lag (days)" ∈ columns df' /\
  forall j, columns df' !! j = Some "Charge Lag (days)" ->
    column_at j df' = zip_with days_between (column_at jE df) (column_at jD df).
Proof.
  intros Hwf HE HD E.
  destruct (calculate_kpis_steps _ _ Hwf E)
    as (d1 & d2 & d3 & d4 & d5 & d6 & d7 & (E2 & _) & (X1 & _)
        & X2 & X3 & X4 & X5 & X6 & X7 & X8).
  pose proof (extends_trans _ _ _ _ _ X7 X8) as X78.
  pose proof (extends_trans _ _ _ _ _ X6 X78) as X68.
  pose proof (extends_trans _ _ _ _ _ X5 X68) as X58.
  pose proof (extends_trans _ _ _ _ _ X4 X58) as X48.
  pose proof (extends_trans _ _ _ _ _ X3 X48) as (_ & _ & K & B & C).
  destruct X1 as (Hwf1 & _ & K1 & _ & C1).
  destruct (kpi_charge_lag_spec d1 d2 jE jD Hwf1 E2 (K1 _ _ HE) (K1 _ _ HD))
    as (H1 & H2 & Hin & Hval).
  rewrite (C1 jE _ HE) in H1, Hval by label_absent.
  rewrite (C1 jD _ HD) in H2, Hval by label_absent.
  split; [done|]. split; [done|]. split.
  - apply list_elem_of_lookup in Hin as [j0 Hj0].
    eapply list_elem_of_lookup_2. by apply K.
  - intros j Hj.
    assert (Hj2 : columns d2 !! j = Some "Charge Lag (days)")
      by (apply (B j _ Hj); label_absent).
    rewrite (C j _ Hj2) by label_absent. by apply Hval.
Qed.

Lemma kpi_aged_90_spec df df' jR jB :
  wf df -> ETL.kpi_aged_90 df = Ok df' ->
  columns df !! jR = Some "Aging Range" -> columns df !! jB = Some "AR Balance" ->
  "90+ AR Days (%)" ∈ columns df' /\
  forall j, columns df' !! j = Some "90+ AR Days (%)" ->
    column_at j df'
    = zip_with (fun range b => if contains "90" (cell_str range) then b else CNum 0)
               (column_at jR df) (column_at jB df).
Proof.
  intros Hwf E HR HB. unfold ETL.kpi_aged_90 in E.
  rewrite (proj2 (has_column_true df "Aging Range")) in E
    by (by eapply list_elem_of_lookup_2).
  rewrite (proj2 (has_column_true df "AR Balance")) in E
    by (by eapply list_elem_of_lookup_2).
  simpl in E.
  destruct (getitem df "Aging Range") as [aging|] eqn:Ea; simpl in E; [|done].
  destruct (getitem df "AR Balance") as [balance|] eqn:Eb; simpl in E; [|done].
  apply getitem_spec in Ea as (jr & Hjr & ->). apply getitem_spec in Eb as (jb & Hjb & ->).
  pose proof (position_unique df _ jr jR Hjr HR) as <-.
  pose proof (position_unique df _ jb jB Hjb HB) as <-.
  injection E as <-.
  match goal with |- _ ∈ columns (setitem _ _ ?v) /\ _ =>
    destruct (setitem_extends df "90+ AR Days (%)" v Hwf) as (_ & Hin & Hval) end.
  { unfold column_at, nrows. rewrite length_zip_with, !length_map. lia. }
  done.
Qed.

(** The column named 90+ AR Days (%) holds a balance, not a number of days
    and not a percentage: in a table with an Aging Range and an AR Balance
    column, the cell of a row is the row's AR Balance (0 when that is null
    or no number) when the text of its Aging Range contains "90", and 0
    otherwise. *)
Theorem aged_90_is_the_balance df df' jR jB :
  wf df ->
  columns df !! jR = Some "Aging Range" -> columns df !! jB = Some "AR Balance" ->
  ETL.calculate_kpis df = Ok df' ->
  "90+ AR Days (%)" ∈ columns df' /\
  forall j i range balance,
    columns df' !! j = Some "90+ AR Days (%)" ->
    column_at jR df !! i = Some range -> column_at jB df !! i = Some balance ->
    column_at j df' !! i
    = Some (CNum (if contains "90" (cell_str range) then amount_of balance else 0)).
Proof.
  intros Hwf HR HB E.
  destruct (calculate_kpis_steps _ _ Hwf E)
    as (d1 & d2 & d3 & d4 & d5 & d6 & d7 & (_ & _ & _ & E7 & _) & (X1 & V1)
        & X2 & X3 & X4 & X5 & X6 & X7 & X8).
  pose proof (extends_trans _ _ _ _ _ X5 X6) as X56.
  pose proof (extends_trans _ _ _ _ _ X4 X56) as X46.
  pose proof (extends_trans _ _ _ _ _ X3 X46) as X36.
  pose proof (extends_trans _ _ _ _ _ X2 X36) as X26.
  pose proof (extends_trans _ _ _ _ _ X1 X26) as X16.
  assert (VB : column_at jB d6 = map (fun c => CNum (amount_of c)) (column_at jB df)).
  { rewrite <- (V1 jB _ HB) by label_present.
    destruct X1 as (_ & _ & K1 & _), X26 as (_ & _ & _ & _ & C26).
    apply (C26 jB _ (K1 _ _ HB)). label_absent. }
  destruct X16 as (Hwf6 & _ & K16 & _ & C16).
  destruct (kpi_aged_90_spec d6 d7 jR jB Hwf6 E7 (K16 _ _ HR) (K16 _ _ HB)) as (Hin & Hval).
  rewrite (C16 jR _ HR), VB in Hval by label_absent.
  destruct X8 as (_ & _ & K & B & C).
  split.
  { apply list_elem_of_lookup in Hin as [j0 Hj0]. eapply list_elem_of_lookup_2. by apply K. }
  intros j i range balance Hj Hr Hb.
  assert (Hj7 : columns d7 !! j = Some "90+ AR Days (%)") by (apply (B j _ Hj); label_absent).
  rewrite (C j _ Hj7) by label_absent. rewrite (Hval j Hj7).
  rewrite lookup_zip_with, list_lookup_fmap, Hr, Hb. simpl.
  by destruct (contains "90" (cell_str range)).
Qed.




End MoreKPI.

Lemma sample_claims_wf : wf sample_claims.
Proof. repeat constructor. Qed.

Lemma sample_claims_run :
  @ETL.calculate_kpis plain_conversions sample_claims = Ok sample_claims_kpis.
Proof. vm_compute. reflexivity. Qed.

Lemma calculate_kpis_writes_kpi_columns_only_witness :
  column_at 9 sample_claims_kpis = column_at 9 sample_claims /\
  column_at 7 sample_claims_kpis = [CNum 35; CNum 0].
Proof.
  destruct (@calculate_kpis_writes_kpi_columns_only plain_conversions
              sample_claims sample_claims_kpis sample_claims_wf sample_claims_run)
    as ((_ & _ & _ & _ & C) & V).
  split.
  - apply (C 9%nat "Financial Status"); [reflexivity | label_absent].
  - rewrite (V 7%nat "AR Balance"); [reflexivity | reflexivity | label_present].
Defined.



Lemma charge_lag_in_whole_days_witness :
  column_at 10 sample_claims_kpis = [CNum 2; CNum 1].
Proof.
  destruct (@charge_lag_in_whole_days plain_conversions sample_claims sample_claims_kpis
              2%nat 1%nat sample_claims_wf eq_refl eq_refl sample_claims_run)
    as (_ & _ & _ & Hcol).
  rewrite (Hcol 10%nat); reflexivity.
Defined.

Lemma aged_90_is_the_balance_witness :
  column_at 16 sample_claims_kpis !! 0%nat = Some (CNum 35) /\
  column_at 16 sample_claims_kpis !! 1%nat = Some (CNum 0).
Proof.
  destruct (@aged_90_is_the_balance plain_conversions sample_claims sample_claims_kpis
              8%nat 7%nat sample_claims_wf eq_refl eq_refl sample_claims_run)
    as (_ & Hcell).
  split.
  - rewrite (Hcell 16%nat 0%nat (CStr "90+") (CNum 35)); reflexivity.
  - rewrite (Hcell 16%nat 1%nat (CStr "0-30") CNull); reflexivity.
Defined.


(** ** ETL.py: what a batch leaves alone *)

Section BatchInvariants.
Context `{Conversions}.

Lemma assoc_hold_less_other name other dir :
  name <> other -> assoc name (hold_less other dir) = assoc name dir.
Proof.
  intros Hne. induction dir as [|[n g] rest IH]; simpl; [done|].
  destruct (decide (n = other)) as [->|Hno]; simpl.
  - rewrite !decide_False by done. exact IH.
  - destruct (decide (n = name)); [done|exact IH].
Qed.

Lemma assoc_hold_less_None name other dir :
  assoc name dir = None -> assoc name (hold_less other dir) = None.
Proof.
  induction dir as [|[n g] rest IH]; simpl; [done|].
  destruct (decide (n = other)) as [->|Hno]; simpl;
    destruct (decide (_ = name)); try done; by apply IH.
Qed.

Lemma assoc_remove_file_None name other dir :
  assoc name dir = None -> assoc name (remove_file other dir) = None.
Proof.
  induction dir as [|[n g] rest IH]; simpl; [done|].
  destruct (decide (n = name)) as [->|Hne]; [done|]. intros E.
  destruct (negb (bool_decide (n = other))); simpl; [|by apply IH].
  rewrite decide_False by done. by apply IH.
Qed.

(** What one call of [process_single_file] may change. *)
Lemma process_single_file_effect name run_id w :
  let w' := fst (ETL.process_single_file name run_id w) in
  let res := snd (ETL.process_single_file name run_id w) in
  (forall t, t <> ETL.table_name run_id -> database w' !! t = database w !! t) /\
  (forall p, p <> export_of name -> output_dir w' !! p = output_dir w !! p) /\
  (((exists e, res = ETL.Failure e) /\ archive_dir w' = archive_dir w /\
    (input_dir w' = input_dir w \/
     exists f, assoc name (input_dir w) = Some f /\
               input_dir w' = hold_less name (input_dir w))) \/
   (exists f merged,
      res = ETL.Success (nrows merged) (export_of name) /\
      assoc name (input_dir w) = Some f /\
      input_dir w' = remove_file name (input_dir w) /\
      archive_dir w' = <[name := f]> (archive_dir w) /\
      database w' !! ETL.table_name run_id = Some merged /\
      output_dir w' !! export_of name = Some merged)).
Proof.
  unfold ETL.process_single_file, ETL.open_workbook, export_of.
  destruct (assoc name (input_dir w)) as [f|] eqn:Hf; simpl; [|by eauto 10].
  destruct (content f) as [xl|]; simpl; [|by eauto 10].
  destruct (ETL.transform xl) as [merged|e]; simpl; [|by eauto 10].
  unfold to_sql. destruct (decide (NoDup (columns merged))) as [Hnd|Hnd]; simpl.
  - unfold shutil_move. simpl. rewrite Hf.
    destruct (held_open f) as [|k] eqn:Hk; simpl.
    + split; [intros t Ht; by rewrite lookup_insert_ne|].
      split; [intros p Hp; by rewrite lookup_insert_ne|].
      right. exists f, merged. by rewrite !lookup_insert_eq.
    + split; [intros t Ht; by rewrite lookup_insert_ne|].
      split; [intros p Hp; by rewrite lookup_insert_ne|].
      left. split; [eauto|]. split; [done|]. right. eauto.
  - split; [intros t Ht; by rewrite lookup_delete_ne|].
    split; [intros p Hp; by rewrite lookup_insert_ne|].
    left. split; [eauto|]. split; [done|]. by left.
Qed.

Lemma process_single_file_keeps name run_id w file xl :
  kept file xl w -> kept file xl (fst (ETL.process_single_file name run_id w)).
Proof.
  intros Hkept.
  destruct (process_single_file_effect name run_id w)
    as (_ & _ & [(_ & Ha & [Hi|(f & Hf & Hi)])|(f & merged & _ & Hf & Hi & Ha & _)]).
  - unfold kept. by rewrite Hi, Ha.
  - unfold kept. rewrite Hi, Ha. destruct Hkept as [(g & Hg & Hc)|(Hnone & Harch)].
    + left. destruct (decide (file = name)) as [->|Hne].
      * rewrite (assoc_hold_less _ _ _ Hg). eexists. split; [done|]. done.
      * rewrite assoc_hold_less_other by done. eauto.
    + right. split; [by apply assoc_hold_less_None|done].
  - unfold kept. rewrite Hi, Ha. destruct Hkept as [(g & Hg & Hc)|(Hnone & Harch)].
    + destruct (decide (file = name)) as [->|Hne].
      * right. split; [apply assoc_remove_same|]. exists f.
        rewrite lookup_insert_eq. split; [done|]. congruence.
      * left. rewrite assoc_remove_file by done. eauto.
    + right. split; [by apply assoc_remove_file_None|].
      destruct (decide (file = name)) as [->|Hne]; [congruence|].
      by rewrite lookup_insert_ne.
Qed.

Lemma process_listing_keeps listing run_id w n file xl :
  kept file xl w -> kept file xl (fst (ETL.process_listing listing run_id w n)).
Proof.
  revert w n. induction listing as [|name rest IH]; intros w n Hkept; simpl; [done|].
  destruct (endswith (lower name) ".xlsx"); [|by apply IH].
  pose proof (process_single_file_keeps name run_id w file xl Hkept) as Hstep.
  destruct (ETL.process_single_file name run_id w) as [w1 [rows out|e]]; by apply IH.
Qed.

(** A batch never loses a workbook: whatever happens to a file of the
    intake folder (processed, failed, skipped), after the batch it is
    still in the intake folder, or it has left it and is in the archive,
    with the content it had. *)
Theorem batch_never_loses_a_workbook run_id w name f :
  assoc name (input_dir w) = Some f ->
  kept name (content f) (fst (ETL.process_files run_id w)).
Proof.
  intros Hf. unfold ETL.process_files. apply process_listing_keeps. left. eauto.
Qed.

Lemma process_listing_effect listing run_id w n :
  let w' := fst (ETL.process_listing listing run_id w n) in
  let n' := snd (ETL.process_listing listing run_id w n) in
  (forall t, t <> ETL.table_name run_id -> database w' !! t = database w !! t) /\
  (forall p, (forall name, name ∈ listing -> p <> export_of name) ->
     output_dir w' !! p = output_dir w !! p) /\
  (forall name, name ∉ listing -> archive_dir w' !! name = archive_dir w !! name) /\
  (n <= n' <= n + length (List.filter (fun f => endswith (lower f) ".xlsx") listing))%nat.
Proof.
  revert w n. induction listing as [|name rest IH]; intros w n; simpl.
  { repeat split; try done; lia. }
  destruct (endswith (lower name) ".xlsx") eqn:Hx.
  - pose proof (process_single_file_effect name run_id w) as (Hdb & Hout & Hmove).
    destruct (ETL.process_single_file name run_id w) as [w1 res] eqn:E1. simpl in *.
    assert (Harch : forall file, file <> name ->
                      archive_dir w1 !! file = archive_dir w !! file).
    { intros file Hne.
      destruct Hmove as [(_ & -> & _)|(f & merged & _ & _ & _ & -> & _)]; [done|].
      by rewrite lookup_insert_ne. }
    destruct res as [rows out|e].
    + destruct (IH w1 (S n)) as (Hdb' & Hout' & Harch' & Hn').
      split; [intros t Ht; by rewrite Hdb', Hdb|].
      split.
      { intros p Hp. rewrite Hout'.
        - apply Hout, Hp. by left.
        - intros file Hin. apply Hp. by right. }
      split.
      { intros file [Hne Hnot]%not_elem_of_cons. by rewrite Harch', Harch. }
      lia.
    + destruct (IH w1 n) as (Hdb' & Hout' & Harch' & Hn').
      split; [intros t Ht; by rewrite Hdb', Hdb|].
      split.
      { intros p Hp. rewrite Hout'.
        - apply Hout, Hp. by left.
        - intros file Hin. apply Hp. by right. }
      split.
      { intros file [Hne Hnot]%not_elem_of_cons. by rewrite Harch', Harch. }
      lia.
  - destruct (IH w n) as (Hdb' & Hout' & Harch' & Hn').
    split; [done|]. split.
    { intros p Hp. apply Hout'. intros file Hin. apply Hp. by right. }
    split.
    { intros file [Hne Hnot]%not_elem_of_cons. by apply Harch'. }
    lia.
Qed.

(** A batch writes to one table only, the one named after its run
    identifier: every other table, that of an earlier run included, is as
    it was. It writes no export but those named after the files of the
    intake folder, archives no other file, and it counts at most as many
    files as the folder has .xlsx files. *)
Theorem batch_touches_only_its_table run_id w :
  let w' := fst (ETL.process_files run_id w) in
  (forall t, t <> ETL.table_name run_id -> database w' !! t = database w !! t) /\
  (forall p, (forall name, name ∈ map fst (input_dir w) -> p <> export_of name) ->
     output_dir w' !! p = output_dir w !! p) /\
  (forall name, name ∉ map fst (input_dir w) ->
     archive_dir w' !! name = archive_dir w !! name) /\
  (snd (ETL.process_files run_id w)
   <= length (List.filter (fun f => endswith (lower f) ".xlsx") (map fst (input_dir w))))%nat.
Proof.
  unfold ETL.process_files.
  destruct (process_listing_effect (map fst (input_dir w)) run_id w 0)
    as (Hdb & Hout & Harch & Hn).
  repeat split; try done. lia.
Qed.

(** A file is archived exactly when it is reported as processed: after a
    successful call the file has left the intake folder and is in the
    archive, and the export and the table of the run hold the same frame,
    with as many rows as reported; after a failed call the archive is as
    it was and the intake folder still lists the same files. *)
Theorem archived_iff_success name run_id w :
  let w' := fst (ETL.process_single_file name run_id w) in
  match snd (ETL.process_single_file name run_id w) with
  | ETL.Success rows output =>
      output = export_of name /\
      assoc name (input_dir w') = None /\
      (exists f, assoc name (input_dir w) = Some f /\ archive_dir w' !! name = Some f) /\
      exists merged,
        nrows merged = rows /\
        database w' !! ETL.table_name run_id = Some merged /\
        output_dir w' !! output = Some merged
  | ETL.Failure _ =>
      archive_dir w' = archive_dir w /\
      map fst (input_dir w') = map fst (input_dir w)
  end.
Proof.
  destruct (process_single_file_effect name run_id w)
    as (_ & _ & [([e He] & Ha & Hi)|(f & merged & Hres & Hf & Hi & Ha & Hdb & Hout)]);
    simpl in *.
  - rewrite He. split; [done|]. destruct Hi as [->|(f & _ & ->)]; [done|].
    unfold hold_less. rewrite map_map. apply map_ext. intros [n g]. simpl.
    by destruct (decide (n = name)).
  - rewrite Hres. split; [done|]. split; [rewrite Hi; apply assoc_remove_same|].
    split; [exists f; by rewrite Ha, lookup_insert_eq|]. by exists merged.
Qed.

End BatchInvariants.

Lemma batch_never_loses_a_workbook_witness :
  kept "march.xlsx" (Some march_workbook)
       (fst (@ETL.process_files plain_conversions "20250801_090000" three_file_world)).
Proof.
  apply (@batch_never_loses_a_workbook plain_conversions "20250801_090000" three_file_world
           "march.xlsx" (mkFile (Some march_workbook) 1)).
  reflexivity.
Defined.

(** ** rbac.py: the registry of users *)

(** [create_user] and [check_permission] round trip: a user created with a
    known role holds exactly the permissions of that role, whether or not
    the identifier was taken before (an existing user is replaced without
    a word); every other user's permissions and the roles are as they
    were. *)
Theorem create_user_then_check self user_id username role_name self' user :
  RBAC.create_user self user_id username role_name = Ok (self', user) ->
  (exists r, RBAC.roles self !! role_name = Some r /\
             user = RBAC.mkUser user_id username r true /\
             forall p, RBAC.check_permission self' user_id p = RBAC.Role_has_permission r p) /\
  (forall other p, other <> user_id ->
     RBAC.check_permission self' other p = RBAC.check_permission self other p) /\
  RBAC.roles self' = RBAC.roles self.
Proof.
  unfold RBAC.create_user.
  destruct (RBAC.roles self !! role_name) as [r|] eqn:Hr; [|done].
  intros [= <- <-]. split; [|split; [|done]].
  - exists r. split; [done|]. split; [done|]. intros p.
    unfold RBAC.check_permission. simpl. by rewrite lookup_insert_eq.
  - intros other p Hne. unfold RBAC.check_permission. simpl.
    by rewrite lookup_insert_ne.
Qed.

Lemma setup_roles_lookup role_name :
  RBAC._setup_roles !! role_name
  = if decide (role_name = "admin")
    then Some (RBAC.mkRole "admin"
                 {[ RBAC.READ; RBAC.WRITE; RBAC.DELETE; RBAC.ADMIN; RBAC.PROCESS_FILES;
                    RBAC.VIEW_REPORTS; RBAC.MANAGE_ETL ]})
    else if decide (role_name = "manager")
    then Some (RBAC.mkRole "manager"
                 {[ RBAC.READ; RBAC.WRITE; RBAC.PROCESS_FILES; RBAC.VIEW_REPORTS ]})
    else if decide (role_name = "user")
    then Some (RBAC.mkRole "user" {[ RBAC.READ; RBAC.VIEW_REPORTS ]})
    else None.
Proof.
  unfold RBAC._setup_roles. cbv zeta.
  destruct (decide (role_name = "admin")) as [->|H1]; [by rewrite lookup_insert_eq|].
  rewrite lookup_insert_ne by done.
  destruct (decide (role_name = "manager")) as [->|H2]; [by rewrite lookup_insert_eq|].
  rewrite lookup_insert_ne by done.
  destruct (decide (role_name = "user")) as [->|H3]; [by rewrite lookup_insert_eq|].
  by rewrite lookup_insert_ne.
Qed.

Lemma create_user_then_check_witness :
  exists self' user,
    RBAC.create_user RBAC.__init__ "u1" "ann" "manager" = Ok (self', user) /\
    RBAC.check_permission self' "u1" RBAC.PROCESS_FILES = true /\
    RBAC.check_permission self' "u1" RBAC.DELETE = false.
Proof.
  destruct (RBAC.create_user RBAC.__init__ "u1" "ann" "manager") as [[self' user]|e] eqn:E;
    [|discriminate E].
  exists self', user. split; [reflexivity|].
  destruct (create_user_then_check _ _ _ _ _ _ E) as ((r & Hr & _ & Hp) & _).
  rewrite !Hp. change (RBAC.roles RBAC.__init__) with RBAC._setup_roles in Hr.
  rewrite setup_roles_lookup in Hr.
  rewrite decide_False in Hr by discriminate. rewrite decide_True in Hr by reflexivity.
  injection Hr as <-. split; reflexivity.
Defined.

(** In a registry that holds the three roles of [_setup_roles], a user can
    be created exactly under the names admin, manager and user, spelled
    in lower case; any other role name is a [ValueError] that names it,
    and the roles stay the three of [_setup_roles]. *)
Theorem create_user_needs_known_role self user_id username role_name :
  RBAC.roles self = RBAC._setup_roles ->
  match RBAC.create_user self user_id username role_name with
  | Ok (self', user) =>
      role_name ∈ ["admin"; "manager"; "user"] /\
      RBAC.name (RBAC.role user) = role_name /\
      RBAC.roles self' = RBAC._setup_roles
  | Raise e =>
      (role_name ∉ ["admin"; "manager"; "user"]) /\
      e = ValueError ("Invalid role: " +:+ role_name)
  end.
Proof.
  intros Hroles. unfold RBAC.create_user. rewrite Hroles, setup_roles_lookup.
  destruct (decide (role_name = "admin")) as [->|H1];
    [split; [label_present|done]|].
  destruct (decide (role_name = "manager")) as [->|H2];
    [split; [label_present|done]|].
  destruct (decide (role_name = "user")) as [->|H3];
    [split; [label_present|done]|].
  split; [|done]. intros Hin.
  repeat (apply elem_of_cons in Hin as [Hin|Hin]; [done|]).
  by apply elem_of_nil in Hin.
Qed.

Lemma create_user_needs_known_role_witness :
  RBAC.create_user RBAC.__init__ "u1" "ann" "Admin"
  = Raise (ValueError "Invalid role: Admin").
Proof.
  pose proof (create_user_needs_known_role RBAC.__init__ "u1" "ann" "Admin" eq_refl) as Hc.
  destruct (RBAC.create_user RBAC.__init__ "u1" "ann" "Admin") as [[self' user]|e].
  - destruct Hc as (Hin & _). exfalso. revert Hin. label_absent.
  - destruct Hc as (_ & ->). reflexivity.
Defined.

(** ** ETL.py: roles and guarded endpoints *)

Ltac decide_closed := apply (bool_decide_unpack _); vm_compute; exact I.

Lemma granted_cases role_name :
  granted role_name
  = if decide (role_name = "user") then granted "user"
    else if decide (role_name = "manager") then granted "manager"
    else if decide (role_name = "admin") then granted "admin"
    else ∅.
Proof.
  destruct (decide (role_name = "user")) as [->|H1]; [done|].
  destruct (decide (role_name = "manager")) as [->|H2]; [done|].
  destruct (decide (role_name = "admin")) as [->|H3]; [done|].
  unfold granted, App.ROLE_PERMS. by rewrite !lookup_insert_ne, lookup_empty.
Qed.

(** The two role tables of the repository agree: under every role name,
    [ROLE_PERMS] of ETL.py grants exactly the permissions that the role
    of that name holds in rbac.py, and none under a name rbac.py does not
    know. The roles are nested: what a user may do a manager may do, what
    a manager may do an admin may do, and an admin holds every
    permission. *)
Theorem role_tables_agree :
  (forall role_name,
     granted role_name
     = from_option RBAC.permissions ∅ (RBAC._setup_roles !! role_name)) /\
  granted "user" ⊆ granted "manager" /\
  granted "manager" ⊆ granted "admin" /\
  (forall p, p ∈ granted "admin").
Proof.
  split; [|split; [|split]].
  - intros role_name. rewrite granted_cases, setup_roles_lookup.
    destruct (decide (role_name = "user")) as [->|H1]; [decide_closed|].
    destruct (decide (role_name = "manager")) as [->|H2]; [decide_closed|].
    destruct (decide (role_name = "admin")) as [->|H3]; [decide_closed|].
    done.
  - decide_closed.
  - decide_closed.
  - intros []; decide_closed.
Qed.

Lemma require_permissions_unfold perms user :
  App.require_permissions perms user
  = if bool_decide (list_to_set perms ⊆ granted (role_of user)) then App.Respond user
    else App.HTTPException 403 "Not enough permissions".
Proof. reflexivity. Qed.

Lemma require_one p user :
  App.require_permissions [p] user = App.Respond user <-> p ∈ granted (role_of user).
Proof.
  rewrite require_permissions_unfold.
  rewrite list_to_set_cons, list_to_set_nil, (right_id_L ∅ (∪)).
  case_bool_decide as Hsub; rewrite singleton_subseteq_l in Hsub; by split.
Qed.

Lemma granted_to p role_name (names : list string) :
  (forall r, r ∈ ["user"; "manager"; "admin"] -> p ∈ granted r -> r ∈ names) ->
  (forall r, r ∈ names -> p ∈ granted r) ->
  p ∈ granted role_name <-> role_name ∈ names.
Proof.
  intros Honly Hall. split; [|apply Hall].
  rewrite granted_cases.
  destruct (decide (role_name = "user")) as [->|H1]; [apply Honly; label_present|].
  destruct (decide (role_name = "manager")) as [->|H2]; [apply Honly; label_present|].
  destruct (decide (role_name = "admin")) as [->|H3]; [apply Honly; label_present|].
  by intros ?%not_elem_of_empty.
Qed.

Ltac role_cases :=
  let r := fresh "r" in
  let Hin := fresh "Hin" in
  intros r Hin;
  repeat (apply elem_of_cons in Hin as [->|Hin]); [..|by apply elem_of_nil in Hin].

(** Who may call what. The role of the token is compared in lower case.
    Reading statistics and reports is open to the roles user, manager and
    admin; starting a batch to manager and admin; deleting a file to
    admin alone. A caller with another role, or with none, is refused
    with status 403 wherever a permission is required. *)
Theorem who_may_call user :
  (App.require_permissions [RBAC.READ] user = App.Respond user <->
   role_of user ∈ ["user"; "manager"; "admin"]) /\
  (App.require_permissions [RBAC.VIEW_REPORTS] user = App.Respond user <->
   role_of user ∈ ["user"; "manager"; "admin"]) /\
  (App.require_permissions [RBAC.PROCESS_FILES] user = App.Respond user <->
   role_of user ∈ ["manager"; "admin"]) /\
  (App.require_permissions [RBAC.DELETE] user = App.Respond user <->
   role_of user ∈ ["admin"]) /\
  (forall perms,
     App.require_permissions perms user = App.Respond user \/
     App.require_permissions perms user = App.HTTPException 403 "Not enough permissions") /\
  (forall perms, perms <> [] -> role_of user ∉ ["user"; "manager"; "admin"] ->
     App.require_permissions perms user = App.HTTPException 403 "Not enough permissions").
Proof.
  split; [|split; [|split; [|split; [|split]]]].
  - rewrite require_one. apply granted_to.
    + by intros r Hin _.
    + role_cases; decide_closed.
  - rewrite require_one. apply granted_to.
    + by intros r Hin _.
    + role_cases; decide_closed.
  - rewrite require_one. apply granted_to.
    + role_cases; intros Hp; first [label_present | exfalso; revert Hp; decide_closed].
    + role_cases; decide_closed.
  - rewrite require_one. apply granted_to.
    + role_cases; intros Hp; first [label_present | exfalso; revert Hp; decide_closed].
    + role_cases; decide_closed.
  - intros perms. rewrite require_permissions_unfold. case_bool_decide; eauto.
  - intros perms Hperms Hrole. rewrite require_permissions_unfold, granted_cases.
    rewrite !decide_False by (intros E; apply Hrole; rewrite E; label_present).
    case_bool_decide as Hsub; [|done].
    destruct perms as [|p perms]; [done|]. exfalso.
    apply (not_elem_of_empty (C := gset RBAC.Permission) p), Hsub.
    rewrite list_to_set_cons. apply elem_of_union_l. by apply elem_of_singleton.
Qed.

(** ** ETL.py: the endpoints *)

Section Endpoints.
Context `{TokenCodec}.

(** How a guarded endpoint lets a caller in. *)
Lemma Depends_require p credentials :
  match App.Depends (App.require_permissions [p]) credentials with
  | App.Respond user =>
      App.get_current_user credentials = App.Respond user /\ p ∈ granted (role_of user)
  | App.HTTPException status_code _ =>
      (status_code = 401%nat /\
       (jwt_decode credentials = None \/ jwt_decode credentials = Some ∅)) \/
      (status_code = 403%nat /\
       exists user, App.get_current_user credentials = App.Respond user /\
                    p ∉ granted (role_of user))
  end.
Proof.
  unfold App.Depends, App.get_current_user, App.decode_token.
  destruct (jwt_decode credentials) as [payload|]; [|left; eauto].
  destruct (decide (payload = ∅)) as [->|Hne]; [left; eauto|].
  match goal with |- context [App.require_permissions _ ?u] => set (user := u) end.
  pose proof (require_one p user) as Hone.
  rewrite require_permissions_unfold in Hone |- *.
  case_bool_decide as Hsub.
  - split; [done|]. by apply Hone.
  - right. split; [done|]. exists user. split; [done|]. intros Hin.
    by apply Hone in Hin.
Qed.



Lemma granted_process role_name :
  RBAC.PROCESS_FILES ∈ granted role_name <-> role_name ∈ ["manager"; "admin"].
Proof.
  apply granted_to.
  - role_cases; intros Hp; first [label_present | exfalso; revert Hp; decide_closed].
  - role_cases; decide_closed.
Qed.

(** Starting a batch. A caller who is not let in (401, 403) changes
    nothing. A manager or an admin runs the batch of [process_files]; the
    answer then says success whatever happened to the files: a batch in
    which every file failed differs from a clean one in the count of
    processed files only. *)
Theorem process_files_always_succeeds `{Conversions} run_id credentials w :
  match snd (App.process_files run_id credentials w) with
  | App.Respond status =>
      (exists user, App.get_current_user credentials = App.Respond user /\
                    role_of user ∈ ["manager"; "admin"]) /\
      App.success status = true /\
      App.run_id status = run_id /\
      App.files_processed status = snd (ETL.process_files run_id w) /\
      App.message status
      = "Processed " +:+ str_of_nat (snd (ETL.process_files run_id w)) +:+ " file(s)" /\
      fst (App.process_files run_id credentials w) = fst (ETL.process_files run_id w)
  | App.HTTPException status_code _ =>
      (status_code = 401%nat \/ status_code = 403%nat) /\
      fst (App.process_files run_id credentials w) = w
  end.
Proof.
  unfold App.process_files.
  pose proof (Depends_require RBAC.PROCESS_FILES credentials) as Hdep.
  destruct (App.Depends _ credentials) as [user|status_code detail]; simpl.
  - destruct Hdep as [Huser Hrole%granted_process].
    destruct (ETL.process_files run_id w) as [w' n]. simpl. eauto 10.
  - split; [|done]. destruct Hdep as [[-> _]|[-> _]]; eauto.
Qed.

End Endpoints.

(** ** ETL.py: the statistics *)

Lemma leb_refl s : String.leb s s = true.
Proof. by destruct (String.leb_total s s). Qed.

Lemma leb_trans a b c :
  String.leb a b = true -> String.leb b c = true -> String.leb a c = true.
Proof.
  unfold String.leb. revert b c.
  induction a as [|c1 a IH]; intros [|c2 b] [|c3 c]; simpl; try done.
  destruct (Ascii.compare c1 c2) eqn:E12; try done;
    destruct (Ascii.compare c2 c3) eqn:E23; try done.
  - apply Ascii.compare_eq_iff in E12, E23. subst c1 c2.
    unfold Ascii.compare. rewrite N.compare_refl. apply IH.
  - apply Ascii.compare_eq_iff in E12. subst c1. by rewrite E23.
  - apply Ascii.compare_eq_iff in E23. subst c2. by rewrite E12.
  - unfold Ascii.compare in *. rewrite N.compare_lt_iff in E12, E23.
    assert (E13 : (N_of_ascii c1 ?= N_of_ascii c3)%N = Lt)
      by (apply N.compare_lt_iff; lia).
    by rewrite E13.
Qed.

Lemma insert_sorted_elem x t ts : x ∈ insert_sorted t ts <-> x = t \/ x ∈ ts.
Proof.
  induction ts as [|u ts IH]; simpl.
  - rewrite list_elem_of_singleton. split; [by left|]. intros [?|?%elem_of_nil]; done.
  - destruct (String.leb t u); [by rewrite elem_of_cons|].
    rewrite !elem_of_cons, IH. tauto.
Qed.

Lemma sorted_elem x ts : x ∈ sorted ts <-> x ∈ ts.
Proof.
  induction ts as [|t ts IH]; [done|].
  change (sorted (t :: ts)) with (insert_sorted t (sorted ts)).
  by rewrite insert_sorted_elem, elem_of_cons, IH.
Qed.

Lemma last_cons_ne {A : Type} (x : A) (l : list A) : l <> [] -> last (x :: l) = last l.
Proof. by destruct l. Qed.

(** Insertion keeps the greatest element last. *)
Lemma insert_sorted_last_max t ts :
  (forall m, last ts = Some m -> forall x, x ∈ ts -> String.leb x m = true) ->
  forall m, last (insert_sorted t ts) = Some m ->
  forall x, x ∈ insert_sorted t ts -> String.leb x m = true.
Proof.
  induction ts as [|u ts IH]; intros Hmax m Hm x Hx.
  - simpl in *. injection Hm as <-. apply list_elem_of_singleton in Hx as ->.
    apply leb_refl.
  - simpl in Hm, Hx. destruct (String.leb t u) eqn:Htu.
    + change (last (t :: u :: ts)) with (last (u :: ts)) in Hm.
      apply elem_of_cons in Hx as [->|Hx]; [|by apply (Hmax m)].
      apply (leb_trans _ u); [done|]. apply (Hmax m Hm). by left.
    + assert (Hne : insert_sorted t ts <> []).
      { intros E. assert (Hin : t ∈ insert_sorted t ts) by (apply insert_sorted_elem; by left).
        rewrite E in Hin. by apply elem_of_nil in Hin. }
      rewrite last_cons_ne in Hm by done.
      assert (Hmax' : forall m0, last ts = Some m0 ->
                        forall y, y ∈ ts -> String.leb y m0 = true).
      { intros m0 Hm0 y Hy. apply (Hmax m0); [|by right].
        rewrite last_cons_ne; [done|]. intros ->. by apply elem_of_nil in Hy. }
      pose proof (IH Hmax' m Hm) as Hall.
      apply elem_of_cons in Hx as [->|Hx]; [|by apply Hall].
      pose proof (last_Some_elem_of _ _ Hm) as Hmin.
      apply insert_sorted_elem in Hmin as [->|Hmin].
      * destruct (String.leb_total t u) as [E|E]; [congruence|done].
      * destruct (last (u :: ts)) as [m0|] eqn:Hm0; [|by apply last_None in Hm0].
        assert (Hm0in : m0 ∈ ts).
        { rewrite last_cons_ne in Hm0 by (intros ->; by apply elem_of_nil in Hmin).
          by apply last_Some_elem_of. }
        assert (m = m0) as ->.
        { apply String.leb_antisym.
          - apply (Hmax m0 eq_refl). by right.
          - apply Hall. apply insert_sorted_elem. by right. }
        apply (Hmax m0 eq_refl). by left.
Qed.

Lemma sorted_last_max ts m :
  last (sorted ts) = Some m -> m ∈ ts /\ forall x, x ∈ ts -> String.leb x m = true.
Proof.
  intros Hm. split; [by apply sorted_elem, last_Some_elem_of|].
  intros x Hx. apply sorted_elem in Hx. revert m Hm x Hx.
  induction ts as [|t ts IH]; [done|].
  change (sorted (t :: ts)) with (insert_sorted t (sorted ts)).
  by apply insert_sorted_last_max.
Qed.

Lemma contains_char sep c s :
  contains (String sep EmptyString) (String c s)
  = Ascii.eqb c sep || contains (String sep EmptyString) s.
Proof.
  simpl. destruct (Ascii.eqb c sep) eqn:E.
  - apply Ascii.eqb_eq in E as ->. destruct (ascii_dec sep sep); [|done].
    by destruct s.
  - apply Ascii.eqb_neq in E. destruct (ascii_dec sep c); [congruence|done].
Qed.

Lemma split_on_cons sep s : exists seg segs, split_on sep s = seg :: segs.
Proof.
  destruct s as [|c rest]; simpl; [eauto|].
  destruct (Ascii.eqb c sep); [eauto|]. destruct (split_on sep rest); eauto.
Qed.

Lemma split_on_pieces sep s :
  Forall (fun seg => contains (String sep EmptyString) seg = false) (split_on sep s).
Proof.
  induction s as [|c rest IH]; simpl.
  - by repeat constructor.
  - destruct (Ascii.eqb c sep) eqn:E; [by constructor|].
    destruct (split_on sep rest) as [|seg segs].
    + constructor; [|done]. by rewrite contains_char, E.
    + apply Forall_cons in IH as [Hseg Hsegs]. constructor; [|done].
      by rewrite contains_char, E.
Qed.

Lemma split_on_whole sep s :
  contains (String sep EmptyString) s = false -> split_on sep s = [s].
Proof.
  induction s as [|c rest IH]; [done|].
  rewrite contains_char. intros [E Hrest]%orb_false_iff.
  simpl. rewrite E, (IH Hrest). done.
Qed.

Lemma append_nil (b : string) : EmptyString +:+ b = b.
Proof. reflexivity. Qed.

Lemma append_cons (x : ascii) (a b : string) : String x a +:+ b = String x (a +:+ b).
Proof. reflexivity. Qed.

Lemma split_on_app sep a b :
  split_on sep (a +:+ String sep b) = split_on sep a ++ split_on sep b.
Proof.
  induction a as [|c a IH].
  - rewrite append_nil. simpl. by rewrite Ascii.eqb_refl.
  - rewrite append_cons. simpl. destruct (Ascii.eqb c sep); [by rewrite IH|].
    rewrite IH. destruct (split_on_cons sep a) as (seg & segs & ->). done.
Qed.

Lemma prefix_append s r : String.prefix s (s +:+ r) = true.
Proof.
  induction s as [|c s IH]; [rewrite append_nil; by destruct r|].
  rewrite append_cons. simpl. by destruct (ascii_dec c c).
Qed.

Lemma append_assoc (a b c : string) : (a +:+ b) +:+ c = a +:+ (b +:+ c).
Proof.
  induction a as [|x a IH]; [done|]. by rewrite !append_cons, IH.
Qed.

Lemma table_names_elem w name : name ∈ App.table_names w <-> is_Some (database w !! name).
Proof.
  unfold App.table_names. rewrite list_elem_of_fmap. split.
  - intros ([n df] & -> & Hin%elem_of_map_to_list). eauto.
  - intros [df Hdf]. exists (name, df). split; [done|]. by apply elem_of_map_to_list.
Qed.

Section Stats.
Context `{TokenCodec}.

(** The statistics never name a run. The text reported as the last run
    identifier is "No runs yet" or what follows the last underscore of a
    table name, so it holds no underscore. For a run identifier made of a
    date, an underscore and a time of day, it is a time of day alone: at
    least the time of every run in the store, in text order, whatever
    the dates, and never equal to an identifier. The count of failed
    files is 0 whatever happened. *)
Theorem last_run_id_is_no_run_id credentials w stats :
  App.get_etl_stats credentials w = App.Respond stats ->
  contains "_" (App.last_run_id stats) = false /\
  App.failed_files stats = 0%nat /\
  forall date time,
    contains "_" time = false ->
    is_Some (database w !! ETL.table_name (date +:+ "_" +:+ time)) ->
    String.leb time (App.last_run_id stats) = true /\
    App.last_run_id stats <> date +:+ "_" +:+ time.
Proof.
  unfold App.get_etl_stats.
  destruct (App.Depends _ credentials) as [user|status_code detail]; [|done].
  intros [= <-]. simpl.
  set (wanted := List.filter (String.prefix "claims_with_kpis_") (App.table_names w)).
  set (run_ids := map (fun n => default EmptyString (last (split_on "_" n))) wanted).
  assert (Hclean : forall r, r ∈ run_ids -> contains "_" r = false).
  { intros r (n & -> & _)%list_elem_of_fmap.
    destruct (split_on_cons "_" n) as (seg & segs & E).
    destruct (last (split_on "_" n)) as [r|] eqn:Hr;
      [|rewrite E in Hr; by apply last_None in Hr].
    simpl. pose proof (split_on_pieces "_" n) as Hall.
    rewrite Forall_forall in Hall. by apply Hall, last_Some_elem_of. }
  assert (Hlast : contains "_"
                    match run_ids with
                    | [] => "No runs yet"
                    | _ => default EmptyString (last (sorted run_ids))
                    end = false).
  { destruct run_ids as [|r0 rest] eqn:Hids; [reflexivity|].
    destruct (last (sorted (r0 :: rest))) as [m|] eqn:Hm; [|reflexivity].
    simpl. apply Hclean. by apply sorted_elem, last_Some_elem_of. }
  split; [exact Hlast|]. split; [done|].
  intros date time Htime Htable.
  assert (Hin : time ∈ run_ids).
  { apply list_elem_of_fmap. exists (ETL.table_name (date +:+ "_" +:+ time)). split.
    - unfold ETL.table_name.
      change ("_" +:+ time) with (String "_" time).
      rewrite <- append_assoc, split_on_app, (split_on_whole _ _ Htime), last_snoc. done.
    - apply list_elem_of_In, List.filter_In. split.
      + by apply list_elem_of_In, table_names_elem.
      + apply prefix_append. }
  assert (Hmax : String.leb time
                   match run_ids with
                   | [] => "No runs yet"
                   | _ => default EmptyString (last (sorted run_ids))
                   end = true).
  { destruct run_ids as [|r0 rest] eqn:Hids; [by apply elem_of_nil in Hin|].
    destruct (last (sorted (r0 :: rest))) as [m|] eqn:Hm.
    - simpl. by apply (sorted_last_max _ _ Hm).
    - apply last_None in Hm.
      assert (Hr0 : r0 ∈ sorted (r0 :: rest)) by (apply sorted_elem; by left).
      rewrite Hm in Hr0. by apply elem_of_nil in Hr0. }
  split; [exact Hmax|]. intros Heq. rewrite Heq in Hlast.
  change ("_" +:+ time) with (String "_" time) in Hlast.
  clear -Hlast. induction date as [|c date IH].
  - rewrite append_nil, contains_char in Hlast. done.
  - rewrite append_cons, contains_char in Hlast.
    apply orb_false_iff in Hlast as [_ Hlast]. by apply IH.
Qed.

End Stats.

Lemma last_run_id_is_no_run_id_witness :
  exists stats,
    @App.get_etl_stats role_tokens "user" two_run_world = App.Respond stats /\
    App.last_run_id stats = "235959" /\
    App.last_run_id stats <> "20250102_000001".
Proof.
  assert (E : @App.get_etl_stats role_tokens "user" two_run_world
              = App.Respond (App.mkETLStats 0 0 0 "235959" []))
    by (vm_compute; reflexivity).
  eexists. split; [exact E|]. split; [reflexivity|].
  destruct (@last_run_id_is_no_run_id role_tokens "user" two_run_world _ E) as (_ & _ & Hmax).
  apply (Hmax "20250102" "000001"); [reflexivity|].
  exists sample_merged. vm_compute. reflexivity.
Defined.

(** ** ETL.py: the date columns of a sheet *)

Section Dates.
Context `{Conversions}.

Lemma to_datetime_idem c : to_datetime (to_datetime c) = to_datetime c.
Proof.
  destruct c; simpl; try done; by destruct (parse_datetime _).
Qed.

Lemma to_datetime_like cells : is_datetime_like (map to_datetime cells) = true.
Proof.
  induction cells as [|c cells IH]; [done|]. simpl. rewrite IH.
  destruct c; simpl; try done; by destruct (parse_datetime _).
Qed.

Lemma setitem_columns df name values :
  name ∈ columns df -> columns (setitem df name values) = columns df.
Proof. intros Hin%has_column_true. unfold setitem. by rewrite Hin. Qed.

Lemma parse_date_loop cols df df' :
  wf df ->
  for_each (fun df col =>
              if contains "date" (lower col)
              then try! s := getitem df col in Ok (setitem df col (map to_datetime s))
              else Ok df) cols df = Ok df' ->
  wf df' /\ columns df' = columns df /\ nrows df' = nrows df /\
  forall j c, columns df !! j = Some c ->
    column_at j df'
    = if bool_decide (c ∈ cols) && contains "date" (lower c)
      then map to_datetime (column_at j df) else column_at j df.
Proof.
  revert df. induction cols as [|col cols IH]; intros df Hwf E; simpl in E.
  { injection E as <-. repeat split; try done. }
  destruct (contains "date" (lower col)) eqn:Hdate.
  - destruct (getitem df col) as [s|] eqn:Es; simpl in E; [|done].
    apply getitem_spec in Es as (j0 & Hj0 & ->).
    assert (Hin : col ∈ columns df).
    { eapply list_elem_of_lookup_2. by apply (positions_singleton _ _ _ Hj0). }
    destruct (setitem_extends df col (map to_datetime (column_at j0 df)) Hwf)
      as ((Hwf1 & Hn1 & K1 & _ & C1) & _ & V1).
    { unfold column_at, nrows. by rewrite !length_map. }
    pose proof (setitem_columns df col (map to_datetime (column_at j0 df)) Hin) as Hcols1.
    destruct (IH _ Hwf1 E) as (Hwf' & Hcols' & Hn' & Hval').
    split; [done|]. split; [congruence|]. split; [congruence|].
    intros j c Hc. rewrite (Hval' j c) by (by rewrite Hcols1).
    destruct (decide (c = col)) as [->|Hne].
    + rewrite (V1 j) by (by rewrite Hcols1).
      rewrite (position_unique df col j0 j Hj0 Hc), Hdate.
      rewrite (bool_decide_eq_true_2 (col ∈ col :: cols)) by (by left).
      simpl. destruct (bool_decide (col ∈ cols)); simpl; [|done].
      rewrite map_map. apply map_ext. intros x. apply to_datetime_idem.
    + rewrite (C1 j c Hc) by (by intros ?%list_elem_of_singleton).
      destruct (bool_decide (c ∈ cols)) eqn:Hb.
      * apply bool_decide_eq_true in Hb.
        by rewrite (bool_decide_eq_true_2 (c ∈ col :: cols)) by (by right).
      * apply bool_decide_eq_false in Hb.
        rewrite (bool_decide_eq_false_2 (c ∈ col :: cols)); [done|].
        by intros [?|?]%elem_of_cons.
  - destruct (IH _ Hwf E) as (Hwf' & Hcols' & Hn' & Hval').
    split; [done|]. split; [done|]. split; [done|].
    intros j c Hc. rewrite (Hval' j c Hc).
    destruct (decide (c = col)) as [->|Hne]; [by rewrite Hdate, !andb_false_r|].
    destruct (bool_decide (c ∈ cols)) eqn:Hb.
    + apply bool_decide_eq_true in Hb.
      by rewrite (bool_decide_eq_true_2 (c ∈ col :: cols)) by (by right).
    + apply bool_decide_eq_false in Hb.
      rewrite (bool_decide_eq_false_2 (c ∈ col :: cols)); [done|].
      by intros [?|?]%elem_of_cons.
Qed.

(** Which columns of a sheet are read as dates: exactly those with "date"
    in their name, in any case of the letters. Such a column holds
    timestamps and nulls afterwards (a cell that is no date becomes
    null); every other column, the date of service under its canonical
    name DOS included, keeps its cells as the workbook has them; names,
    places and the number of rows stay. *)
Theorem date_named_columns_are_parsed df df' :
  wf df -> ETL.parse_date_columns df = Ok df' ->
  wf df' /\ columns df' = columns df /\ nrows df' = nrows df /\
  forall j c, columns df !! j = Some c ->
    if contains "date" (lower c)
    then column_at j df' = map to_datetime (column_at j df) /\
         is_datetime_like (column_at j df') = true
    else column_at j df' = column_at j df.
Proof.
  intros Hwf E. destruct (parse_date_loop _ _ _ Hwf E) as (Hwf' & Hcols & Hn & Hval).
  split; [done|]. split; [done|]. split; [done|].
  intros j c Hc. rewrite (Hval j c Hc).
  rewrite (bool_decide_eq_true_2 (c ∈ columns df)) by (by eapply list_elem_of_lookup_2).
  simpl. destruct (contains "date" (lower c)); [|done].
  split; [done|]. apply to_datetime_like.
Qed.

End Dates.

Lemma date_named_columns_are_parsed_witness :
  exists df',
    @ETL.parse_date_columns plain_conversions sample_raw_dates = Ok df' /\
    column_at 1 df' = [CStr "2025-07-01"] /\ column_at 2 df' = [CNull].
Proof.
  destruct (@ETL.parse_date_columns plain_conversions sample_raw_dates) as [df'|e] eqn:E;
    [|vm_compute in E; discriminate E].
  exists df'. split; [reflexivity|].
  destruct (@date_named_columns_are_parsed plain_conversions sample_raw_dates df')
    as (_ & _ & _ & Hval); [repeat constructor | exact E |].
  split.
  - exact (Hval 1%nat "DOS" eq_refl).
  - exact (proj1 (Hval 2%nat "Charge Entry Date" eq_refl)).
Defined.

(** ** ETL.py: reading a processed file back *)

Section Reports.
Context `{Conversions} `{TokenCodec}.

Lemma granted_view role_name :
  RBAC.VIEW_REPORTS ∈ granted role_name <-> role_name ∈ ["user"; "manager"; "admin"].
Proof.
  apply granted_to.
  - by intros r Hin _.
  - role_cases; decide_closed.
Qed.


End Reports.


(** ** mapping.py and ETL.py: the two header normalisers *)

Lemma for_each_ext {A S : Type} (f g : S -> A -> result S) (xs : list A) (s : S) :
  (forall s x, x ∈ xs -> f s x = g s x) -> for_each f xs s = for_each g xs s.
Proof.
  revert s. induction xs as [|x xs IH]; intros s Hfg; simpl; [done|].
  rewrite (Hfg s x) by (by left). destruct (g s x) as [s'|e]; simpl; [|done].
  apply IH. intros s0 y Hy. apply Hfg. by right.
Qed.

Lemma new_names_agree mapping col :
  mapping <> [] -> EmptyString ∉ map fst mapping -> keys_match_themselves mapping = true ->
  Mapping.new_name mapping col = ETL.new_name mapping col.
Proof.
  intros Hne Hempty Hown.
  destruct (extractOne_some token_sort_ratio col (map fst mapping)) as [[best score] E].
  { by destruct mapping. }
  destruct (extractOne_spec _ _ _ _ _ E) as (_ & _ & before & after & Hkeys & _).
  assert (Hbest : best ∈ map fst mapping).
  { rewrite Hkeys. apply elem_of_app. right. by left. }
  assert (Hbest_ne : String.eqb best EmptyString = false).
  { apply String.eqb_neq. by intros ->. }
  destruct (assoc_Some best mapping Hbest) as [canonical Hcanonical].
  unfold Mapping.new_name, Mapping.fuzzy_match_header, ETL.new_name,
    ETL.fuzzy_match_header, ETL.header_target, ETL.or_else.
  rewrite E. case_bool_decide as Hcol; simpl.
  - destruct (assoc_Some col mapping Hcol) as [own Hown_name].
    assert (Hcol_ne : String.eqb col EmptyString = false).
    { apply String.eqb_neq. by intros ->. }
    rewrite Hcol_ne, (bool_decide_eq_true_2 _ Hcol), Hown_name. simpl.
    unfold keys_match_themselves in Hown. rewrite forallb_forall in Hown.
    specialize (Hown col (proj1 (list_elem_of_In _ _) Hcol)). rewrite E in Hown.
    apply String.eqb_eq in Hown as ->.
    destruct (Qle_bool 85 score); simpl; by rewrite ?Hcol_ne, Hown_name.
  - destruct (Qle_bool 85 score); simpl.
    + by rewrite Hbest_ne, (bool_decide_eq_true_2 _ Hbest), Hcanonical.
    + by rewrite (assoc_None col mapping Hcol).
Qed.

(** The header normalisers of mapping.py and of ETL.py give the same
    result, table or exception, on every sheet, for every mapping table
    that has a key, no empty key, and whose keys are each their own best
    match: the exact-match shortcut of mapping.py changes nothing then.
    The four tables of either file are of this kind. *)
Theorem normalizers_agree :
  (forall df mapping,
     mapping <> [] -> EmptyString ∉ map fst mapping ->
     keys_match_themselves mapping = true ->
     Mapping.normalize_sheet_headers df mapping = ETL.normalize_headers df mapping) /\
  (forall name mapping,
     (name, mapping) ∈ Mapping.sheet_mappings \/ (name, mapping) ∈ ETL.sheet_mappings ->
     mapping <> [] /\ (EmptyString ∉ map fst mapping) /\
     keys_match_themselves mapping = true).
Proof.
  split.
  - intros df mapping Hne Hempty Hown.
    unfold Mapping.normalize_sheet_headers, ETL.normalize_headers.
    rewrite (for_each_ext _ (fun (new_cols : gmap string string) col =>
                               try! name := ETL.new_name mapping col in
                               Ok (<[col := name]> new_cols))); [done|].
    intros s col _. by rewrite new_names_agree.
  - intros name mapping [Hin|Hin];
      repeat (apply elem_of_cons in Hin as [[= -> ->]|Hin];
              [split; [done|]; split; [label_absent|vm_compute; reflexivity]|]);
      by apply elem_of_nil in Hin.
Qed.

Lemma normalizers_agree_witness :
  Mapping.normalize_sheet_headers reworded_charges charges_mapping
  = ETL.normalize_headers reworded_charges charges_mapping.
Proof.
  destruct normalizers_agree as [Hagree Htables].
  destruct (Htables "Charges" charges_mapping) as (Hne & Hempty & Hown);
    [right; by left|].
  exact (Hagree reworded_charges charges_mapping Hne Hempty Hown).
Defined.

(** ** final_2.py: duplicate columns and the table of a file *)

Lemma select_duplicated_elem seen cols c :
  c ∈ select (map negb (Final2Run.duplicated_from seen cols)) cols <->
  c ∈ cols /\ c ∉ seen.
Proof.
  revert seen. induction cols as [|c0 cs IH]; intros seen; simpl.
  - split; [by intros ?%elem_of_nil | by intros [?%elem_of_nil _]].
  - case_bool_decide as Hseen; simpl.
    + rewrite IH. split.
      * intros [Hin [Hne Hnot]%not_elem_of_cons]. split; [by right|done].
      * intros [[->|Hin]%elem_of_cons Hnot]; [done|]. split; [done|].
        apply not_elem_of_cons. split; [|done]. by intros ->.
    + split.
      * intros [->|[Hin [Hne Hnot]%not_elem_of_cons]%IH]%elem_of_cons.
        -- split; [by left|done].
        -- split; [by right|done].
      * intros [[->|Hin]%elem_of_cons Hnot]; [by left|].
        destruct (decide (c = c0)) as [->|Hne]; [by left|]. right.
        apply IH. split; [done|]. by apply not_elem_of_cons.
Qed.

Lemma select_duplicated_NoDup seen cols :
  NoDup (select (map negb (Final2Run.duplicated_from seen cols)) cols).
Proof.
  revert seen. induction cols as [|c0 cs IH]; intros seen; simpl; [constructor|].
  case_bool_decide as Hseen; simpl; [apply IH|].
  constructor; [|apply IH].
  intros [_ Hnot]%select_duplicated_elem. apply Hnot. by left.
Qed.

Lemma lookup_label_duplicated seen name cols r :
  name ∉ seen ->
  lookup_label name (select (map negb (Final2Run.duplicated_from seen cols)) cols)
                    (select (map negb (Final2Run.duplicated_from seen cols)) r)
  = lookup_label name cols r.
Proof.
  revert seen r. induction cols as [|c cs IH]; intros seen r Hnot; simpl; [done|].
  destruct r as [|x xs].
  - destruct (negb (bool_decide (c ∈ seen))); simpl; [done|]. by rewrite lookup_label_nil.
  - case_bool_decide as Hseen; simpl.
    + destruct (decide (c = name)) as [->|Hne]; [done|].
      apply IH. by apply not_elem_of_cons.
    + destruct (decide (c = name)) as [->|Hne]; [done|].
      apply IH. by apply not_elem_of_cons.
Qed.

(** The duplicate-column filter of final_2.py: of the columns of one name
    the first is kept and the others are dropped. The table that comes
    out has pairwise distinct column names, the same names as before, the
    same number of rows, and under every name each row holds what the
    first column of that name held. *)
Theorem drop_duplicated_keeps_first df :
  wf df ->
  let df' := Final2Run.drop_duplicated df in
  wf df' /\ NoDup (columns df') /\ nrows df' = nrows df /\
  (forall c, c ∈ columns df' <-> c ∈ columns df) /\
  (forall i r c, rows df !! i = Some r ->
     exists r', rows df' !! i = Some r' /\
                lookup_label c (columns df') r' = lookup_label c (columns df) r).
Proof.
  intros Hwf. unfold Final2Run.drop_duplicated, Final2Run.duplicated. simpl.
  split; [|split; [|split; [|split]]].
  - unfold wf in *. simpl. rewrite Forall_fmap. eapply Forall_impl; [exact Hwf|].
    intros r Hr. simpl. by apply select_length.
  - apply select_duplicated_NoDup.
  - unfold nrows. simpl. by rewrite length_map.
  - intros c. rewrite select_duplicated_elem. split; [by intros [? _]|].
    intros Hin. split; [done|]. by intros ?%elem_of_nil.
  - intros i r c Hr. eexists. split; [by rewrite list_lookup_fmap, Hr|].
    apply lookup_label_duplicated. by intros ?%elem_of_nil.
Qed.

Lemma drop_duplicated_keeps_first_witness :
  columns (Final2Run.drop_duplicated sample_repeated) = ["account num"; "amount"] /\
  NoDup (columns (Final2Run.drop_duplicated sample_repeated)).
Proof.
  split; [reflexivity|].
  destruct (drop_duplicated_keeps_first sample_repeated) as (_ & Hnd & _);
    [repeat constructor | exact Hnd].
Defined.

Section Final2Files.
Context `{Conversions}.

Lemma transform_distinct xl final_df :
  Final2Run.transform xl = Ok (Some final_df) -> NoDup (columns final_df).
Proof.
  unfold Final2Run.transform.
  destruct (Final2.find_sheet _ "charges") as [charges_sheet|]; [|done].
  destruct (Final2.find_sheet _ "payment") as [payments_sheet|]; [|done].
  destruct (Final2.find_sheet _ "pending ar") as [pending_ar_sheet|]; [|done].
  destruct (Final2.find_sheet _ "adjustment") as [adjustments_sheet|]; [|done].
  destruct (parse xl charges_sheet) as [charges|]; simpl; [|done].
  destruct (parse xl payments_sheet) as [payments|]; simpl; [|done].
  destruct (parse xl pending_ar_sheet) as [pending_ar|]; simpl; [|done].
  destruct (parse xl adjustments_sheet) as [adjustments|]; simpl; [|done].
  destruct (Final2Run.parse_dates _ ["claim date"; _; _]) as [charges'|]; simpl; [|done].
  destruct (Final2Run.parse_dates _ ["payment date"]) as [payments'|]; simpl; [|done].
  destruct (Final2Run.parse_dates _ ["dis date"; _]) as [pending_ar'|]; simpl; [|done].
  destruct (merge_left charges' _ _) as [m1|]; simpl; [|done].
  destruct (merge_left m1 _ _) as [m2|]; simpl; [|done].
  match goal with |- bind ?e _ = _ -> _ => destruct e as [m3|]; simpl; [|done] end.
  intros [= <-]. apply select_duplicated_NoDup.
Qed.

Lemma archive_attempts_others attempts file w other :
  other <> file ->
  assoc other (input_dir (fst (Final2.archive_attempts attempts file w)))
  = assoc other (input_dir w).
Proof.
  intros Hne. revert w. induction attempts as [|a rest IH]; intros w; simpl; [done|].
  unfold shutil_move. simpl.
  destruct (assoc file (input_dir w)) as [f|] eqn:Hf; simpl; [|done].
  destruct (held_open f) as [|k]; simpl.
  - by apply assoc_remove_file.
  - rewrite IH. simpl. by apply assoc_hold_less_other.
Qed.

(** What the body of the loop does for one file. *)
Lemma process_file_effect file w n :
  let w' := fst (Final2Run.process_file file w n) in
  let n' := snd (Final2Run.process_file file w n) in
  (forall t, t <> Final2Run.table_name file -> database w' !! t = database w !! t) /\
  (forall p, p <> Final2Run.export_name file -> output_dir w' !! p = output_dir w !! p) /\
  (forall other, other <> file ->
     assoc other (input_dir w') = assoc other (input_dir w)) /\
  match clean_frame file w with
  | Some final_df =>
      n' = S n /\ NoDup (columns final_df) /\
      database w' !! Final2Run.table_name file = Some final_df /\
      output_dir w' !! Final2Run.export_name file = Some final_df
  | None => n' = n
  end.
Proof.
  unfold Final2Run.process_file, clean_frame, ETL.open_workbook. simpl.
  destruct (assoc file (input_dir w)) as [f|] eqn:Hf; simpl; [|done].
  destruct (content f) as [xl|]; simpl; [|done].
  destruct (Final2Run.transform xl) as [[final_df|]|e] eqn:Et; simpl; [|done|done].
  pose proof (transform_distinct _ _ Et) as Hnd.
  unfold to_sql. rewrite decide_True by done. simpl.
  unfold Final2.archive_and_count, Final2.archive.
  match goal with |- context [Final2.archive_attempts _ file ?w0] => set (w1 := w0) end.
  destruct (archive_attempts_spec (seq 0 3) file w1 f Hf) as (w2 & E & _ & _ & Hdb & Hout).
  pose proof (archive_attempts_others (seq 0 3) file w1) as Hothers.
  rewrite E in Hothers |- *. simpl in *.
  split; [intros t Ht; by rewrite Hdb, lookup_insert_ne|].
  split; [intros p Hp; by rewrite Hout, lookup_insert_ne|].
  split; [intros other Hne; by rewrite Hothers|].
  split; [done|]. split; [done|].
  by rewrite Hdb, Hout, !lookup_insert_eq.
Qed.

Lemma clean_frame_same file w w' :
  assoc file (input_dir w') = assoc file (input_dir w) ->
  clean_frame file w' = clean_frame file w.
Proof. intros E. unfold clean_frame, ETL.open_workbook. by rewrite E. Qed.

Lemma length_append (a b : string) :
  String.length (a +:+ b) = (String.length a + String.length b)%nat.
Proof.
  induction a as [|x a IH]; [done|]. rewrite append_cons. simpl. by rewrite IH.
Qed.

Lemma append_inj_r (a b s : string) : a +:+ s = b +:+ s -> a = b.
Proof.
  revert b. induction a as [|x a IH]; intros [|y b] E.
  - done.
  - apply (f_equal String.length) in E. rewrite append_nil, length_append in E.
    simpl in E. lia.
  - apply (f_equal String.length) in E. rewrite append_nil, length_append in E.
    simpl in E. lia.
  - rewrite !append_cons in E. injection E as -> E. f_equal. by apply IH.
Qed.

Lemma names_by_tag file other :
  Final2Run.file_tag file <> Final2Run.file_tag other ->
  file <> other /\ Final2Run.table_name file <> Final2Run.table_name other /\
  Final2Run.export_name file <> Final2Run.export_name other.
Proof.
  intros Htag. split; [by intros ->|]. split.
  - unfold Final2Run.table_name. intros E. by apply String.app_inj in E.
  - unfold Final2Run.export_name. intros E. by apply append_inj_r in E.
Qed.

Lemma process_listing_tables listing w n :
  NoDup (map Final2Run.file_tag (xlsx_only listing)) ->
  let w' := fst (Final2Run.process_listing listing w n) in
  (forall file final_df,
     file ∈ xlsx_only listing -> clean_frame file w = Some final_df ->
     database w' !! Final2Run.table_name file = Some final_df /\
     output_dir w' !! Final2Run.export_name file = Some final_df /\
     NoDup (columns final_df)) /\
  snd (Final2Run.process_listing listing w n)
  = (n + length (List.filter (fun file => bool_decide (is_Some (clean_frame file w)))
                             (xlsx_only listing)))%nat /\
  (forall t, (forall file, file ∈ xlsx_only listing -> t <> Final2Run.table_name file) ->
     database w' !! t = database w !! t) /\
  (forall p, (forall file, file ∈ xlsx_only listing -> p <> Final2Run.export_name file) ->
     output_dir w' !! p = output_dir w !! p) /\
  (forall other, other ∉ xlsx_only listing ->
     assoc other (input_dir w') = assoc other (input_dir w)).
Proof.
  revert w n. induction listing as [|g rest IH]; intros w n Hnd; simpl.
  { split; [by intros ? ? ?%elem_of_nil|]. split; [lia|]. done. }
  unfold xlsx_only in *. simpl in Hnd |- *.
  destruct (endswith (lower g) ".xlsx") eqn:Hx; [|by apply IH].
  simpl in Hnd. apply NoDup_cons in Hnd as [Hfresh Hnd].
  pose proof (process_file_effect g w n) as (Hdb & Hout & Hfiles & Hg).
  destruct (Final2Run.process_file g w n) as [w1 n1]. simpl in *.
  destruct (IH w1 n1 Hnd) as (Hframes & Hcount & Hdb' & Hout' & Hfiles').
  assert (Hrest : forall file,
            file ∈ List.filter (fun f => endswith (lower f) ".xlsx") rest ->
            Final2Run.file_tag g <> Final2Run.file_tag file).
  { intros file Hin E. apply Hfresh. rewrite E. apply list_elem_of_fmap. eauto. }
  assert (Hsame : forall file,
            file ∈ List.filter (fun f => endswith (lower f) ".xlsx") rest ->
            clean_frame file w1 = clean_frame file w).
  { intros file Hin. apply clean_frame_same, Hfiles.
    intros ->. by apply (Hrest g). }
  split; [|split; [|split; [|split]]].
  - intros file final_df [->|Hin]%elem_of_cons Hframe.
    + rewrite Hframe in Hg. destruct Hg as (_ & Hdistinct & Htable & Hexport).
      rewrite Hdb', Hout'; [done| |].
      * intros file Hin. by apply names_by_tag, Hrest.
      * intros file Hin. by apply names_by_tag, Hrest.
    + apply Hframes; [done|]. by rewrite Hsame.
  - rewrite Hcount.
    rewrite (List.filter_ext_in
               (fun file => bool_decide (is_Some (clean_frame file w1)))
               (fun file => bool_decide (is_Some (clean_frame file w))))
      by (intros file Hin%list_elem_of_In; by rewrite Hsame).
    destruct (clean_frame g w) as [final_df|].
    + destruct Hg as (-> & _). rewrite bool_decide_eq_true_2 by eauto. simpl. lia.
    + rewrite Hg, bool_decide_eq_false_2 by (by intros [? ?]). lia.
  - intros t Ht. rewrite Hdb'.
    + apply Hdb, Ht. by left.
    + intros file Hin. apply Ht. by right.
  - intros p Hp. rewrite Hout'.
    + apply Hout, Hp. by left.
    + intros file Hin. apply Hp. by right.
  - intros other [Hne Hnot]%not_elem_of_cons. rewrite Hfiles' by done. by apply Hfiles.
Qed.

(** One table per file: in a run of final_2.py over workbooks whose names
    give pairwise distinct tags, every file that gets as far as the
    export has, after the run, its own export and its own table, both
    holding the frame computed for it, with pairwise distinct column
    names; a later file never overwrites them. The files counted are
    exactly those, archived or not, and no other table or export is
    touched. *)
Theorem final_2_one_table_per_file w :
  NoDup (map Final2Run.file_tag (xlsx_only (map fst (input_dir w)))) ->
  let w' := fst (Final2Run.run w) in
  (forall file final_df,
     file ∈ xlsx_only (map fst (input_dir w)) -> clean_frame file w = Some final_df ->
     database w' !! Final2Run.table_name file = Some final_df /\
     output_dir w' !! Final2Run.export_name file = Some final_df /\
     NoDup (columns final_df)) /\
  snd (Final2Run.run w)
  = length (List.filter (fun file => bool_decide (is_Some (clean_frame file w)))
                        (xlsx_only (map fst (input_dir w)))) /\
  (forall t, (forall file, file ∈ xlsx_only (map fst (input_dir w)) ->
                t <> Final2Run.table_name file) ->
     database w' !! t = database w !! t) /\
  (forall p, (forall file, file ∈ xlsx_only (map fst (input_dir w)) ->
                p <> Final2Run.export_name file) ->
     output_dir w' !! p = output_dir w !! p).
Proof.
  intros Hnd. unfold Final2Run.run.
  destruct (process_listing_tables (map fst (input_dir w)) w 0 Hnd)
    as (Hframes & Hcount & Hdb & Hout & _).
  split; [exact Hframes|]. split; [by rewrite Hcount|]. split; [exact Hdb|exact Hout].
Qed.

End Final2Files.

Lemma final_2_one_table_per_file_witness :
  exists final_df,
    @clean_frame plain_conversions "january.xlsx" three_file_world = Some final_df /\
    database (fst (@Final2Run.run plain_conversions three_file_world))
      !! "claims_clean_january" = Some final_df /\
    snd (@Final2Run.run plain_conversions three_file_world) = 3%nat.
Proof.
  destruct (@clean_frame plain_conversions "january.xlsx" three_file_world)
    as [final_df|] eqn:E; [|vm_compute in E; discriminate E].
  exists final_df. split; [reflexivity|].
  destruct (@final_2_one_table_per_file plain_conversions three_file_world)
    as (Hframes & Hcount & _).
  { decide_closed. }
  split.
  - apply (Hframes "january.xlsx" final_df); [vm_compute; label_present | exact E].
  - rewrite Hcount. vm_compute. reflexivity.
Defined.

(** ** Instances of the statements above *)

Lemma find_sheet_first_or_none_witness :
  Final2.find_sheet ["Summary"; "Charges Jan"; "Charges Feb"] "charges" = Some "Charges Jan".
Proof.
  apply (proj2 (find_sheet_first_or_none ["Summary"; "Charges Jan"; "Charges Feb"] "charges")).
  exists ["Summary"], ["Charges Feb"]. split; [reflexivity|]. split; [reflexivity|].
  repeat constructor.
Defined.

Lemma who_may_call_witness :
  App.require_permissions [RBAC.DELETE] (App.mkCaller (Some "1") (Some "ann") (Some "Admin"))
  = App.Respond (App.mkCaller (Some "1") (Some "ann") (Some "Admin")) /\
  App.require_permissions [RBAC.READ] (App.mkCaller (Some "2") (Some "bob") None)
  = App.HTTPException 403 "Not enough permissions".
Proof.
  split.
  - apply (who_may_call (App.mkCaller (Some "1") (Some "ann") (Some "Admin"))).
    vm_compute. label_present.
  - apply (who_may_call (App.mkCaller (Some "2") (Some "bob") None)); [done|].
    vm_compute. label_absent.
Defined.

Lemma batch_touches_only_its_table_witness :
  database (fst (@ETL.process_files plain_conversions "20250801_090000" three_file_world))
    !! "claims_with_kpis_20250701_090000" = None.
Proof.
  destruct (@batch_touches_only_its_table plain_conversions "20250801_090000"
              three_file_world) as (Hdb & _).
  rewrite Hdb; [reflexivity|]. vm_compute. discriminate.
Defined.

(** ** logger.py *)

(** [get_logger] never duplicates handlers: the first call for a name that
    has no handler attaches the rotating file handler and the console
    handler, in this order; a name that has a handler already keeps
    exactly the handlers it has. So a second call changes nothing but the
    level, whatever the levels asked for, and no other logger is
    touched. *)
Theorem get_logger_never_duplicates name level1 level2 registry :
  let registry1 := LoggerPy.get_logger name level1 registry in
  LoggerPy.get_logger name level2 registry1 = LoggerPy.get_logger name level2 registry /\
  LoggerPy.level (LoggerPy.getLogger name registry1) = level1 /\
  LoggerPy.handlers (LoggerPy.getLogger name registry1)
  = match LoggerPy.handlers (LoggerPy.getLogger name registry) with
    | [] => [LoggerPy.RotatingFileHandler "logs/etl.log" (2 * 1024 * 1024)%N 5
               "%(asctime)s - %(levelname)s - %(message)s" "%Y-%m-%d %H:%M:%S";
             LoggerPy.StreamHandler]
    | existing => existing
    end /\
  forall other, other <> name ->
    LoggerPy.getLogger other registry1 = LoggerPy.getLogger other registry.
Proof.
  unfold LoggerPy.get_logger, LoggerPy.getLogger. cbn zeta.
  rewrite lookup_insert_eq. cbn [default from_option id LoggerPy.handlers].
  destruct (LoggerPy.handlers (default _ (registry !! name))) as [|h hs] eqn:Hh;
    cbn [LoggerPy.handlers LoggerPy.level].
  - split; [by rewrite insert_insert_eq|]. split; [done|]. split; [done|].
    intros other Hne. by rewrite lookup_insert_ne.
  - split; [by rewrite insert_insert_eq|]. split; [done|]. split; [done|].
    intros other Hne. by rewrite lookup_insert_ne.
Qed.

(** ** init_users.py and the report endpoint *)

Section Users.
Context `{PasswordContext}.

Lemma rows_where_app j value cols rs extra :
  InitUsers.rows_where j value (mkFrame cols (rs ++ extra))
  = InitUsers.rows_where j value (mkFrame cols rs)
    ++ InitUsers.rows_where j value (mkFrame cols extra).
Proof. unfold InitUsers.rows_where. simpl. apply List.filter_app. Qed.

(** [seed_admin] never touches an account that is there. When a row with
    the user name exists, whatever its role and password, nothing is
    written; an e-mail address that another account has, or a missing
    table, is an error and nothing is written. Otherwise one row is added
    after the rows that were there, with the role admin; no other table
    changes; and seeding the same name again, with any password, writes
    nothing. *)
Theorem seed_admin_keeps_accounts rowid now salt username email password w :
  let w' := fst (InitUsers.seed_admin rowid now salt username email password w) in
  match snd (InitUsers.seed_admin rowid now salt username email password w) with
  | inl _ => w' = w
  | inr InitUsers.AlreadyExists =>
      w' = w /\
      exists table r, database w !! "users" = Some table /\ r ∈ rows table /\
                      at_pos 1 r = CStr username
  | inr (InitUsers.Seeded _ _) =>
      (exists table,
         database w !! "users" = Some table /\
         database w' !! "users"
         = Some (mkFrame InitUsers.users_columns
                   (rows table ++
                    [[CNum (inject_Z rowid); CStr username; CStr email;
                      CStr (pwd_hash salt password); CStr "admin"; CStr now]]))) /\
      (forall t, t <> "users" -> database w' !! t = database w !! t) /\
      input_dir w' = input_dir w /\ archive_dir w' = archive_dir w /\
      output_dir w' = output_dir w /\
      forall rowid' now' salt' email' password',
        InitUsers.seed_admin rowid' now' salt' username email' password' w'
        = (w', inr InitUsers.AlreadyExists)
  end.
Proof.
  unfold InitUsers.seed_admin.
  destruct (database w !! "users") as [table|] eqn:Ht; [|done].
  case_bool_decide as Hcols; simpl; [|done].
  destruct (InitUsers.rows_where 1 username table) as [|r rs] eqn:Hu.
  - destruct (InitUsers.rows_where 2 email table) as [|r rs] eqn:He; simpl; [|done].
    split; [|split; [|split; [|split; [|split]]]]; try done.
    + exists table. split; [done|]. by rewrite lookup_insert_eq, Hcols.
    + intros t Hne. by rewrite lookup_insert_ne.
    + intros rowid' now' salt' email' password'.
      rewrite lookup_insert_eq. simpl.
      rewrite (bool_decide_eq_true_2 _ Hcols). simpl.
      rewrite rows_where_app. unfold InitUsers.rows_where at 2. simpl.
      unfold at_pos. simpl. rewrite String.eqb_refl.
      by destruct (InitUsers.rows_where 1 username (mkFrame (columns table) (rows table))).
  - simpl. split; [done|]. exists table, r. split; [done|].
    assert (Hin : r ∈ InitUsers.rows_where 1 username table) by (rewrite Hu; by left).
    unfold InitUsers.rows_where in Hin.
    apply list_elem_of_In, List.filter_In in Hin as [Hin Heq].
    split; [by apply list_elem_of_In|].
    destruct (at_pos 1 r); try done. simpl in Heq. by apply String.eqb_eq in Heq as ->.
Qed.

Section Exposure.
Context `{TokenCodec}.

(** The users table is a report like any other. init_users.py keeps the
    accounts in the database file that ETL.py reports from; after
    [ensure_users_table] and [seed_admin] on a database without accounts,
    the table users is among the reports listed and the report endpoint
    hands its row, the password hash included, to a caller of any of the
    three roles. *)
Theorem reports_serve_the_password_hashes rowid now salt username email password
    credentials user w :
  database w !! "users" = None ->
  App.get_current_user credentials = App.Respond user ->
  role_of user ∈ ["user"; "manager"; "admin"] ->
  let w' := fst (InitUsers.seed_admin rowid now salt username email password
                   (InitUsers.ensure_users_table w)) in
  "users" ∈ App.table_names w' /\
  exists report,
    App.get_report_data "users" credentials w' = App.Respond report /\
    App.row_count report = 1%nat /\
    App.data report
    = [[("id", CNum (inject_Z rowid)); ("username", CStr username); ("email", CStr email);
        ("password_hash", CStr (pwd_hash salt password)); ("role", CStr "admin");
        ("created_at", CStr now)]].
Proof.
  intros Hfresh Huser Hrole.
  assert (Hdep : App.Depends (App.require_permissions [RBAC.VIEW_REPORTS]) credentials
                 = App.Respond user).
  { unfold App.Depends. rewrite Huser. by apply require_one, granted_view. }
  unfold InitUsers.ensure_users_table, InitUsers.seed_admin. rewrite Hfresh. simpl.
  rewrite lookup_insert_eq. simpl. split.
  - apply table_names_elem. simpl. rewrite lookup_insert_eq. eauto.
  - unfold App.get_report_data. rewrite Hdep. simpl. rewrite lookup_insert_eq.
    eexists. split; [reflexivity|]. done.
Qed.

End Exposure.

End Users.

Lemma reports_serve_the_password_hashes_witness :
  exists report,
    @App.get_report_data role_tokens "users" "user"
      (fst (@InitUsers.seed_admin plain_passwords 1 "2025-08-01 09:00:00" "salt"
              "admin" "admin@example.com" "Admin@123"
              (InitUsers.ensure_users_table free_world)))
    = App.Respond report /\
    App.data report
    = [[("id", CNum 1); ("username", CStr "admin"); ("email", CStr "admin@example.com");
        ("password_hash", CStr "salt$Admin@123"); ("role", CStr "admin");
        ("created_at", CStr "2025-08-01 09:00:00")]].
Proof.
  destruct (@reports_serve_the_password_hashes plain_passwords role_tokens 1
              "2025-08-01 09:00:00" "salt" "admin" "admin@example.com" "Admin@123"
              "user" (App.mkCaller (Some "1") None (Some "user")) free_world)
    as (_ & report & Hrep & _ & Hdata).
  - reflexivity.
  - vm_compute. reflexivity.
  - vm_compute. label_present.
  - exists report. split; [exact Hrep|exact Hdata].
Defined.
